(** * flao_logs: the composite detectors, the deduplicating search, the
    observation metrics, the command extractor, the events and the command
    CSV of [analyse_uao.py], embedded and verified.

    The embedding follows the Python source function by function.
    - Python exceptions are made explicit: a function that can raise
      returns a value of [res], and [x ← e; k] is sequencing that stops at
      the first exception.  The two [try/except] blocks that are modelled,
      in [details] and in [search], are written out.
    - Timestamps are the POSIX seconds returned by [log_timestamp]
      (Python floats).  They are carried as integers of [Z], in a fixed
      sub-second unit; the detectors only copy them, the search compares
      differences of them and the metrics add and subtract them.
    - A command object is a value: the detectors never mutate a command
      after it has been put into an output list (the composites under
      construction live in the loop state until they are appended).  The
      command extractor does, and has a store of objects of its own. *)

From stdpp Require Import base option list strings gmap sorting.
From Stdlib Require Import ZArith Ascii String Lia.

Set Warnings "-register-all,-clear-no-such-hyp".

Local Open Scope string_scope.
Local Open Scope list_scope.
Local Open Scope Z_scope.

(** ** Exceptions *)

Inductive exn :=
| TypeError
| UnboundLocalError
| IndexError
| ValueError
| AttributeError.

Inductive res (A : Type) :=
| Ok (a : A)
| Raise (e : exn).
Arguments Ok {A} a.
Arguments Raise {A} e.

#[global] Instance res_ret : MRet res := fun A a => Ok a.
#[global] Instance res_bind : MBind res := fun A B f m =>
  match m with
  | Ok a => f a
  | Raise e => Raise e
  end.

(** Monadic left fold: a Python [for] loop whose body may raise. *)
Fixpoint foldM {S A} (step : S → A → res S) (s : S) (l : list A) : res S :=
  match l with
  | [] => Ok s
  | a :: l' => s' ← step s a; foldM step s' l'
  end.

(** ** Numbers *)

Definition time := Z.

(** The value of a decimal literal accepted by [float()]: the real number
    [(-1)^neg * mant / 10^scale].  Python rounds it to the nearest
    double. *)
Record pyfloat := mkFloat { fneg : bool; fmant : N; fscale : nat }.

(** [x == 0] for [x = float(literal)].  The nearest double of a positive
    real is [0.0] exactly when the real is at most [2^-1075], half of the
    smallest subnormal (a tie goes to the even neighbour, which is zero). *)
Definition float_is_zero (x : pyfloat) : bool :=
  (Z.of_N (fmant x) * 2 ^ 1075 <=? 10 ^ Z.of_nat (fscale x))%Z.

(** ** Commands *)

(** The attributes of an [ArbCmd] instance.  [success] is Python's
    [None]/[True]/[False]; the last four are attributes that
    [get_AOARB_cmds] adds only when the matching log line was seen
    ([hasattr]). *)
Record CmdData := mkCmd {
  name : string;
  args : string;
  start_time : option time;
  end_time : option time;
  success : option bool;
  errstr : string;
  intervention : option bool;
  estimatedMag : option pyfloat;
  hoBinning : option Z;
  hoSpeed : option Z
}.

(** [ArbCmd(name, args, start_time, end_time, success, errstr)]. *)
Definition new_ArbCmd (n a : string) (st en : option time)
    (su : option bool) (er : string) : CmdData :=
  mkCmd n a st en su er None None None None.

(** The class hierarchy: [ArbCmd] and its three subclasses.  The meta
    command 'Acquire' is a plain [ArbCmd]. *)
Inductive ArbCmd :=
| Cmd (d : CmdData)
| OffsetSequence (d : CmdData) (pause resume : option ArbCmd)
| ExposureSequence (d : CmdData) (resume pause : option ArbCmd)
| CompleteObs (d : CmdData) (wfs mode : string) (mag : pyfloat)
    (cmds : list ArbCmd).

Definition data (c : ArbCmd) : CmdData :=
  match c with
  | Cmd d => d
  | OffsetSequence d _ _ => d
  | ExposureSequence d _ _ => d
  | CompleteObs d _ _ _ _ => d
  end.

Definition cname (c : ArbCmd) : string := name (data c).
Definition csuccess (c : ArbCmd) : option bool := success (data c).
Definition cerrstr (c : ArbCmd) : string := errstr (data c).
Definition cargs (c : ArbCmd) : string := args (data c).
Definition cstart (c : ArbCmd) : option time := start_time (data c).
Definition cend (c : ArbCmd) : option time := end_time (data c).

(** [x in [n1, n2, ...]] on names. *)
Definition name_in (c : ArbCmd) (l : list string) : bool :=
  bool_decide (cname c ∈ l).
Definition name_is (c : ArbCmd) (n : string) : bool :=
  bool_decide (cname c = n).

(** ** Python's boolean operators on [None]/[True]/[False] *)

(** [a and b]: [a] when [a] is falsy, else [b]. *)
Definition py_and (a b : option bool) : option bool :=
  match a with
  | Some true => b
  | _ => a
  end.

(** [operator.and_(a, b)], that is [a & b]: defined on two [bool]s,
    [TypeError] when an operand is [None]. *)
Definition operator_and_ (a b : option bool) : res (option bool) :=
  match a, b with
  | Some x, Some y => Ok (Some (x && y))
  | _, _ => Raise TypeError
  end.

(** [reduce(f, l)] for a non-empty [l]. *)
Definition reduce {A} (f : A → A → res A) (l : list A) : res A :=
  match l with
  | [] => Raise TypeError
  | x :: l' => foldM f x l'
  end.

(** [x is True]. *)
Definition is_True (a : option bool) : option bool :=
  Some (bool_decide (a = Some true)).

(** Truth value of [None]/[True]/[False] in an [if]. *)
Definition truthy (a : option bool) : bool :=
  bool_decide (a = Some true).

(** [sep.join(l)]. *)
Fixpoint join (sep : string) (l : list string) : string :=
  match l with
  | [] => ""
  | [x] => x
  | x :: l' => x +:+ sep +:+ join sep l'
  end.

(** [l[n]]: [IndexError] out of range. *)
Definition py_index {A} (l : list A) (n : nat) : res A :=
  match l !! n with
  | Some x => Ok x
  | None => Raise IndexError
  end.

(** ** The regular expressions of [ArbCmd]

    [re] is a library; the patterns are fixed strings of the source, so
    each is embedded as the matcher it denotes.  All of them are
    deterministic enough for backtracking to be written out: a greedy
    digit run is followed by a non-digit, and the only real backtracking,
    in [wfsPattern], is explicit. *)

Definition is_digit (c : ascii) : bool :=
  let n := nat_of_ascii c in (48 <=? n)%nat && (n <=? 57)%nat.

(** [\w] on ASCII text. *)
Definition is_word (c : ascii) : bool :=
  let n := nat_of_ascii c in
  is_digit c || ((65 <=? n)%nat && (n <=? 90)%nat)
  || ((97 <=? n)%nat && (n <=? 122)%nat) || (n =? 95)%nat.

(** Longest prefix of [s] whose characters satisfy [p], and the rest. *)
Fixpoint span (p : ascii → bool) (s : string) : string * string :=
  match s with
  | String c s' =>
      if p c then let '(a, b) := span p s' in (String c a, b) else ("", s)
  | EmptyString => ("", "")
  end.

Fixpoint strip_prefix (p s : string) : option string :=
  match p with
  | EmptyString => Some s
  | String a p' =>
      match s with
      | String b s' => if Ascii.eqb a b then strip_prefix p' s' else None
      | EmptyString => None
      end
  end.

(** [floatPattern = '[-+]?\d*\.\d+|d+'] matched at the start of [s]: the
    text matched, if any.  The second alternative is a run of the letter
    [d] (the source has [d+], not [\d+]). *)
Definition match_floatPattern (s : string) : option string :=
  let alt2 :=
    let '(ds, _) := span (Ascii.eqb "d") s in
    if bool_decide (ds = "") then None else Some ds in
  let '(sgn, s1) :=
    match s with
    | String c s' =>
        if Ascii.eqb c "-" || Ascii.eqb c "+" then (String c "", s')
        else ("", s)
    | EmptyString => ("", s)
    end in
  let '(ip, s2) := span is_digit s1 in
  match s2 with
  | String c s3 =>
      if Ascii.eqb c "." then
        let '(fp, _) := span is_digit s3 in
        if bool_decide (fp = "") then alt2
        else Some (sgn +:+ ip +:+ "." +:+ fp)
      else alt2
  | EmptyString => alt2
  end.

(** [(\w+)] at the start of [s], up to the end of the pattern. *)
Definition match_word (s : string) : option string :=
  let '(w, _) := span is_word s in
  if bool_decide (w = "") then None else Some w.

(** [(\w+)WFS] at the start of [s]: the longest non-empty run of word
    characters that is followed by [WFS]. *)
Fixpoint match_word_WFS (s : string) : option string :=
  match s with
  | String c s' =>
      if is_word c then
        match match_word_WFS s' with
        | Some g => Some (String c g)
        | None =>
            match strip_prefix "WFS" s' with
            | Some _ => Some (String c "")
            | None => None
            end
        end
      else None
  | EmptyString => None
  end.

(** [re.findall(lit + '(group)', s)[0]]: the group of the leftmost match,
    [IndexError] when there is no match. *)
Fixpoint findall0 (lit : string) (group : string → option string)
    (s : string) : res string :=
  let here :=
    match strip_prefix lit s with
    | Some r => group r
    | None => None
    end in
  match here with
  | Some g => Ok g
  | None =>
      match s with
      | String _ s' => findall0 lit group s'
      | EmptyString => Raise IndexError
      end
  end.

(** [re.findall(floatPattern, s)]: all non-overlapping matches, left to
    right.  [skip] counts the characters of the current match that are
    still to be passed over. *)
Fixpoint findall_float (skip : nat) (s : string) : list string :=
  match s with
  | EmptyString => []
  | String _ s' =>
      match skip with
      | S k => findall_float k s'
      | O =>
          match match_floatPattern s with
          | Some m => m :: findall_float (String.length m - 1) s'
          | None => findall_float 0 s'
          end
      end
  end.

(** Decimal value of a run of digits. *)
Fixpoint digits_value (acc : N) (s : string) : N :=
  match s with
  | EmptyString => acc
  | String c s' =>
      digits_value (10 * acc + N.of_nat (nat_of_ascii c - 48))%N s'
  end.

(** [float(s)] on the texts [floatPattern] can match: a signed decimal
    with a fractional part is converted, anything else (the [d+] texts)
    is a [ValueError]. *)
Definition float (s : string) : res pyfloat :=
  let '(neg, s1) :=
    match s with
    | String c s' =>
        if Ascii.eqb c "-" then (true, s')
        else if Ascii.eqb c "+" then (false, s') else (false, s)
    | EmptyString => (false, s)
    end in
  let '(ip, s2) := span is_digit s1 in
  match s2 with
  | String c s3 =>
      let '(fp, rest) := span is_digit s3 in
      if Ascii.eqb c "." && negb (bool_decide (fp = ""))
         && bool_decide (rest = "")
      then Ok (mkFloat neg (digits_value 0 (ip +:+ fp)) (String.length fp))
      else Raise ValueError
  | EmptyString => Raise ValueError
  end.

(** ** Metrics of a complete observation (methods of [CompleteObs])

    The methods are functions of the composite's own attributes [d] and of
    its sub-command list [cmds]. *)

Definition is_StartAO (c : ArbCmd) : bool := name_in c ["StartAO"; "Start AO"].
Definition is_Stop (c : ArbCmd) : bool := name_in c ["Stop"; "StopAO"].
Definition is_Pause (c : ArbCmd) : bool := name_in c ["PauseAO"; "Pause"].
Definition is_Resume (c : ArbCmd) : bool := name_in c ["ResumeAO"; "Resume"].

(** [a - b] on two time attributes: [TypeError] when one is [None]. *)
Definition py_sub (a b : option time) : res time :=
  match a, b with
  | Some x, Some y => Ok (x - y)
  | _, _ => Raise TypeError
  end.

Definition total_time (d : CmdData) : time :=
  match end_time d, start_time d with
  | Some e, Some s => e - s
  | _, _ => 0
  end.

Definition setup_duration (d : CmdData) (cmds : list ArbCmd) : res time :=
  startao ← py_index (filter (λ x, is_StartAO x = true) cmds) 0;
  py_sub (cend startao) (start_time d).

(** First loop of [ao_setup_overhead]. *)
Definition is_intervention (cmds : list ArbCmd) : bool :=
  foldl (λ b cmd,
    if name_in cmd ["CenterStar"; "CenterPupils"; "CheckFlux"; "CloseLoop"]
    then true else b) false cmds.

(** Second loop of [ao_setup_overhead], from the running total [ao_time];
    the [return 0] after the loop is the empty case. *)
Fixpoint ao_setup_loop (interv : bool) (ao_time : time)
    (cmds : list ArbCmd) : time :=
  match cmds with
  | [] => 0
  | cmd :: rest =>
      if name_in cmd ["Acquire"; "Done"] then ao_setup_loop interv ao_time rest
      else
        match cend cmd, cstart cmd with
        | Some e, Some s =>
            if interv && name_is cmd "AcquireRefAO"
            then ao_setup_loop interv ao_time rest
            else
              let ao_time := ao_time + (e - s) in
              if is_StartAO cmd then ao_time
              else ao_setup_loop interv ao_time rest
        | _, _ => ao_setup_loop interv ao_time rest
        end
  end.

Definition ao_setup_overhead (cmds : list ArbCmd) : time :=
  ao_setup_loop (is_intervention cmds) 0 cmds.

Definition telescope_overhead (d : CmdData) (cmds : list ArbCmd) : res time :=
  sd ← setup_duration d cmds;
  Ok (sd - ao_setup_overhead cmds).

(** The locals of [offsets_overhead]: [pause_time] is unbound ([None])
    until the first Pause, then bound to an attribute value, which may
    itself be Python's [None]. *)
Record offsets_locals := mkOffsetsLocals {
  pause_time : option (option time);
  offsets_time : time
}.

Definition offsets_overhead_step (st : offsets_locals) (cmd : ArbCmd)
    : res offsets_locals :=
  let pt :=
    if is_Pause cmd then Some (cstart cmd) else pause_time st in
  if is_Resume cmd then
    let resume_time := cend cmd in
    match pt with
    | None => Raise UnboundLocalError
    | Some p =>
        dt ← py_sub resume_time p;
        Ok (mkOffsetsLocals pt (offsets_time st + dt))
    end
  else Ok (mkOffsetsLocals pt (offsets_time st)).

Definition offsets_overhead (cmds : list ArbCmd) : res time :=
  st ← foldM offsets_overhead_step (mkOffsetsLocals None 0) cmds;
  Ok (offsets_time st).

Definition total_open_time (d : CmdData) (cmds : list ArbCmd) : res time :=
  let tt := total_time d in
  sd ← setup_duration d cmds;
  oo ← offsets_overhead cmds;
  Ok (tt - sd - oo).

Definition total_ao_overhead (cmds : list ArbCmd) : res time :=
  oo ← offsets_overhead cmds;
  Ok (ao_setup_overhead cmds + oo).

(** ** [ArbCmd.details] and [ArbCmd.is_instrument_preset] *)

(** The attributes that the PresetAO branch of [details] stores on the
    command. *)
Record PresetAttrs := mkPresetAttrs {
  p_wfs : string;
  p_mag : pyfloat;
  p_refX : pyfloat;
  p_refY : pyfloat;
  p_mode : string
}.

(** The five [re.findall(...)[0]] and three [float(...)] of the PresetAO
    branch, in source order. *)
Definition preset_fields (a : string) : res PresetAttrs :=
  wfs ← findall0 "wfsSpec = " match_word_WFS a;
  mag ← findall0 "expectedStarMagnitude = " match_floatPattern a ≫= float;
  refX ← findall0 "roCoordX = " match_floatPattern a ≫= float;
  refY ← findall0 "roCoordY = " match_floatPattern a ≫= float;
  mode ← findall0 "mode = " match_word a;
  Ok (mkPresetAttrs wfs mag refX refY mode).

(** What [details()] leaves on [self]: the attributes exist exactly when
    the command is a PresetAO whose branch ran without an exception. *)
Definition preset_attrs (c : ArbCmd) : option PresetAttrs :=
  if name_is c "PresetAO" then
    match preset_fields (cargs c) with
    | Ok p => Some p
    | Raise _ => None
    end
  else None.

Definition is_instrument_preset (c : ArbCmd) : res bool :=
  if negb (name_is c "PresetAO") then Ok false
  else
    match preset_attrs c with
    | Some p =>
        Ok (negb (float_is_zero (p_refX p)) || negb (float_is_zero (p_refY p)))
    | None => Raise AttributeError
    end.

(** The two kinds of Python 3 sequence object [details] handles: a list,
    and the lazy iterator returned by the builtin [map], which has neither
    a length nor indexing. *)
Inductive pyseq (A : Type) :=
| PyList (l : list A)
| PyMapObject (l : list (res A)).
Arguments PyList {A} l.
Arguments PyMapObject {A} l.

Definition py_map {A B} (f : A → res B) (l : list A) : pyseq B :=
  PyMapObject (f <$> l).

Definition py_len {A} (s : pyseq A) : res nat :=
  match s with
  | PyList l => Ok (List.length l)
  | PyMapObject _ => Raise TypeError
  end.

Definition py_getitem {A} (s : pyseq A) (n : nat) : res A :=
  match s with
  | PyList l => py_index l n
  | PyMapObject _ => Raise TypeError
  end.

(** Arguments of a [%]-format. *)
Inductive fmtarg :=
| FStr (s : string)
| FFloat (x : pyfloat)
| FRound1 (x : pyfloat)
| FTime (t : time)
| FPercent (ot tt : time)
| FInt (z : Z).

Section Details.
(** String formatting ([fmt % args]) is a library operation on floats;
    it is a parameter, and cannot raise on the arguments given here. *)
Variable py_format : string → list fmtarg → string.

Definition details_offset (c : ArbCmd) : res (list string) :=
  if name_is c "OffsetSequence" || name_is c "OffsetXY" then
    let coords := py_map float (findall_float 0 (cargs c)) in
    n ← py_len coords;
    if (n =? 2)%nat then
      x ← py_getitem coords 0;
      y ← py_getitem coords 1;
      Ok [py_format "X=%.2f, Y=%.2f mm" [FFloat x; FFloat y]]
    else Ok []
  else Ok [].

Definition details_preset (c : ArbCmd) : res (list string) :=
  if name_is c "PresetAO" then
    p ← preset_fields (cargs c);
    let interventionDesc :=
      match intervention (data c) with
      | Some true => "Intervention mode"
      | Some false => "Automatic mode"
      | None => "Intervention/automatic mode unknown"
      end in
    Ok [py_format "%s, star mag= %.1f, posXY= %.1f, %.1f mm, mode = %s"
          [FStr (p_wfs p); FFloat (p_mag p); FRound1 (p_refX p);
           FRound1 (p_refY p); FStr (p_mode p)];
        interventionDesc]
  else Ok [].

Definition details_obs (c : ArbCmd) : res (list string) :=
  if name_is c "CompleteObs" then
    match c with
    | CompleteObs d wfs _ _ cmds =>
        let tt := total_time d in
        ot ← total_open_time d cmds;
        let per := if bool_decide (tt ≠ 0) then FPercent ot tt else FInt 0 in
        Ok [py_format "%s, open shutter: %ds (%d%%)" [FStr wfs; FTime ot; per]]
    | _ => Raise AttributeError
    end
  else Ok [].

Definition details_acquire (c : ArbCmd) : list string :=
  from_option (λ x, [py_format "Estimated magnitude: %.1f" [FFloat x]]) []
    (estimatedMag (data c))
  ++ from_option (λ x, [py_format "Ccd39 binning: %d" [FInt x]]) []
    (hoBinning (data c))
  ++ from_option (λ x, [py_format "Loop speed: %d Hz" [FInt x]]) []
    (hoSpeed (data c)).

(** [details()]: the four [if] blocks run in order inside one [try];
    an exception leaves the function through the [except] clause, which
    prints it, and the list built so far is returned. *)
Definition details (c : ArbCmd) : list string :=
  match details_offset c with
  | Raise _ => []
  | Ok d1 =>
      match details_preset c with
      | Raise _ => d1
      | Ok d2 =>
          match details_obs c with
          | Raise _ => d1 ++ d2
          | Ok d3 =>
              if name_is c "Acquire" then details_acquire c
              else d1 ++ d2 ++ d3
          end
      end
  end.
End Details.

(** ** [detectOffsets] *)

(** [OffsetSequence(pause, resume, args, start_time, end_time, success,
    errstr)] and [ExposureSequence(resume, pause, ...)]. *)
Definition new_OffsetSequence (pause resume : option ArbCmd) (a : string)
    (t0 t1 : option time) (su : option bool) (er : string) : ArbCmd :=
  OffsetSequence (new_ArbCmd "OffsetSequence" a t0 t1 su er) pause resume.

Definition new_ExposureSequence (resume pause : option ArbCmd) (a : string)
    (t0 t1 : option time) (su : option bool) (er : string) : ArbCmd :=
  ExposureSequence (new_ArbCmd "ExposureSequence" a t0 t1 su er) resume pause.

(** The loop state: the output list, and the local [args], which is
    unbound until a Pause branch assigns it (the function assigns [args],
    so the name is local and never refers to the module's [args]). *)
Record offsets_state := mkOffsetsState {
  args_local : option string;
  off_newCmds : list ArbCmd
}.

(** One iteration of [for n in range(len(cmds)-2)]. *)
Definition detectOffsets_step (cmds : list ArbCmd) (st : offsets_state)
    (n : nat) : res offsets_state :=
  c0 ← py_index cmds n;
  c1 ← py_index cmds (n + 1);
  c2 ← py_index cmds (n + 2);
  st' ←
    (if name_is c0 "Pause" && name_is c1 "OffsetXY" && name_is c2 "Resume"
     then
       let t0 := cstart c0 in
       let t1 := cend c2 in
       su ← reduce operator_and_ [csuccess c0; csuccess c1; csuccess c2];
       let er := join " " [cerrstr c0; cerrstr c1; cerrstr c2] in
       let a := cargs c1 in
       let cmd := new_OffsetSequence (Some c0) (Some c2) a t0 t1 su er in
       Ok (mkOffsetsState (Some a) (off_newCmds st ++ [cmd]))
     else if name_is c0 "Pause" && name_is c1 "OffsetXY" then
       let t0 := cstart c0 in
       let t1 := cend c1 in
       su ← reduce operator_and_
              [is_True (csuccess c0); is_True (csuccess c1)];
       let er := join " " [cerrstr c0; cerrstr c1] in
       let a := cargs c1 in
       let '(su, er) :=
         if truthy su then (Some false, "Resume was not sent") else (su, er) in
       let cmd := new_OffsetSequence (Some c0) None a t0 t1 su er in
       Ok (mkOffsetsState (Some a) (off_newCmds st ++ [cmd]))
     else if name_is c0 "Pause" && name_is c1 "Resume" then
       let t0 := cstart c0 in
       let t1 := cend c1 in
       let su := py_and (csuccess c0) (csuccess c1) in
       let er := cerrstr c0 +:+ " " +:+ cerrstr c1 in
       let a := "" in
       let cmd := new_OffsetSequence (Some c0) (Some c1) a t0 t1 su er in
       Ok (mkOffsetsState (Some a) (off_newCmds st ++ [cmd]))
     else if name_is c0 "Pause" then
       let t0 := cstart c0 in
       let t1 := cend c0 in
       let su := csuccess c0 in
       let er := cerrstr c0 in
       let a := "" in
       let '(su, er) :=
         if truthy su then (Some false, "no OffsetXY or Resume")
         else (su, er) in
       let cmd := new_OffsetSequence (Some c0) None a t0 t1 su er in
       Ok (mkOffsetsState (Some a) (off_newCmds st ++ [cmd]))
     else if name_is c0 "Resume" && name_is c1 "Pause" then
       let t0 := cstart c0 in
       let t1 := cend c0 in
       let su := py_and (csuccess c0) (csuccess c1) in
       let er := cerrstr c0 +:+ " " +:+ cerrstr c1 in
       match args_local st with
       | None => Raise UnboundLocalError
       | Some a =>
           let cmd := new_ExposureSequence (Some c0) (Some c1) a t0 t1 su er in
           Ok (mkOffsetsState (Some a) (off_newCmds st ++ [cmd]))
       end
     else Ok st);
  Ok (mkOffsetsState (args_local st') (off_newCmds st' ++ [c0])).

Definition detectOffsets (cmds : list ArbCmd) : res (list ArbCmd) :=
  if (List.length cmds <? 3)%nat then Ok cmds
  else
    st ← foldM (detectOffsets_step cmds) (mkOffsetsState None [])
          (seq 0 (List.length cmds - 2));
    Ok (off_newCmds st).

(** ** [detectAcquires] *)

(** [acquireCmd.success = acquireCmd.success and cmd.success;
    acquireCmd.errstr += cmd.errstr; acquireCmd.end_time = cmd.end_time]. *)
Definition acquire_fold (acq : CmdData) (cmd : ArbCmd) : CmdData :=
  mkCmd (name acq) (args acq) (start_time acq) (cend cmd)
    (py_and (success acq) (csuccess cmd)) (errstr acq +:+ cerrstr cmd)
    (intervention acq) (estimatedMag acq) (hoBinning acq) (hoSpeed acq).

(** The three [hasattr] copies of the CheckFlux branch. *)
Definition acquire_copy (acq : CmdData) (cmd : ArbCmd) : CmdData :=
  mkCmd (name acq) (args acq) (start_time acq) (end_time acq)
    (success acq) (errstr acq) (intervention acq)
    (from_option Some (estimatedMag acq) (estimatedMag (data cmd)))
    (from_option Some (hoBinning acq) (hoBinning (data cmd)))
    (from_option Some (hoSpeed acq) (hoSpeed (data cmd))).

(** [acquireCmd.success = False; acquireCmd.errstr += ' Command not
    completed']. *)
Definition acquire_fail (acq : CmdData) : CmdData :=
  mkCmd (name acq) (args acq) (start_time acq) (end_time acq)
    (Some false) (errstr acq +:+ " Command not completed")
    (intervention acq) (estimatedMag acq) (hoBinning acq) (hoSpeed acq).

(** The loop state.  [acquireCmd] and [acquireDone] are bound together by
    the AcquireRefAO branch and unbound before. *)
Record acquires_state := mkAcquiresState {
  inAcquire : bool;
  acquire_locals : option (CmdData * bool);
  acq_newCmds : list ArbCmd
}.

Definition acquire_subcommands : list string :=
  ["CenterPupils"; "CenterStar"; "CloseLoop"; "OptimizeGain";
   "ReCloseLoop"; "getLastImage"; "ApplyOpticalGain"].

Definition detectAcquires_step (st : acquires_state) (cmd : ArbCmd)
    : res acquires_state :=
  st' ←
    (if name_is cmd "AcquireRefAO" then
       let acquireCmd :=
         new_ArbCmd "Acquire" "" (cstart cmd) None (csuccess cmd)
           (cerrstr cmd) in
       Ok (mkAcquiresState true (Some (acquireCmd, false)) (acq_newCmds st))
     else if inAcquire st then
       match acquire_locals st with
       | None => Raise UnboundLocalError
       | Some (acquireCmd, acquireDone) =>
           if name_is cmd "CheckFlux" then
             let acquireCmd := acquire_copy (acquire_fold acquireCmd cmd) cmd in
             Ok (mkAcquiresState true (Some (acquireCmd, acquireDone))
                   (acq_newCmds st))
           else if name_in cmd acquire_subcommands then
             let acquireCmd := acquire_fold acquireCmd cmd in
             Ok (mkAcquiresState true (Some (acquireCmd, acquireDone))
                   (acq_newCmds st))
           else if name_is cmd "Done" then
             let acquireCmd := acquire_fold acquireCmd cmd in
             if bool_decide (csuccess cmd = Some true) then
               Ok (mkAcquiresState false (Some (acquireCmd, true))
                     (acq_newCmds st ++ [Cmd acquireCmd]))
             else
               Ok (mkAcquiresState true (Some (acquireCmd, true))
                     (acq_newCmds st))
           else if negb acquireDone then
             let acquireCmd := acquire_fail acquireCmd in
             Ok (mkAcquiresState false (Some (acquireCmd, acquireDone))
                   (acq_newCmds st ++ [Cmd acquireCmd]))
           else Ok st
       end
     else Ok st);
  Ok (mkAcquiresState (inAcquire st') (acquire_locals st')
        (acq_newCmds st' ++ [cmd])).

Definition detectAcquires (cmds : list ArbCmd) : res (list ArbCmd) :=
  st ← foldM detectAcquires_step (mkAcquiresState false None []) cmds;
  Ok (acq_newCmds st).

(** ** [detectCompleteObs] *)

(** The [CompleteObs] object under construction ([obsCmd]). *)
Record ObsCmd := mkObsCmd {
  o_data : CmdData;
  o_wfs : string;
  o_mode : string;
  o_mag : pyfloat;
  o_cmds : list ArbCmd
}.

Definition obs_object (o : ObsCmd) : ArbCmd :=
  CompleteObs (o_data o) (o_wfs o) (o_mode o) (o_mag o) (o_cmds o).

(** [obsCmd.cmds.append(cmd)]. *)
Definition obs_append (o : ObsCmd) (cmd : ArbCmd) : ObsCmd :=
  mkObsCmd (o_data o) (o_wfs o) (o_mode o) (o_mag o) (o_cmds o ++ [cmd]).

(** [obsCmd.end_time = cmd.end_time; obsCmd.success = True]. *)
Definition obs_close (o : ObsCmd) (cmd : ArbCmd) : ObsCmd :=
  let d := o_data o in
  mkObsCmd
    (mkCmd (name d) (args d) (start_time d) (cend cmd) (Some true) (errstr d)
       (intervention d) (estimatedMag d) (hoBinning d) (hoSpeed d))
    (o_wfs o) (o_mode o) (o_mag o) (o_cmds o).

Record obs_state := mkObsState {
  inObs : bool;
  inPreset : bool;
  obsCmd : option ObsCmd;
  obs_newCmds : list ArbCmd
}.

Definition detectCompleteObs_step (st : obs_state) (cmd : ArbCmd)
    : res obs_state :=
  is_preset ←
    (if name_is cmd "PresetAO" then is_instrument_preset cmd else Ok false);
  st' ←
    (if (is_preset : bool) then
       match preset_attrs cmd with
       | None => Raise AttributeError
       | Some p =>
           let o :=
             mkObsCmd (new_ArbCmd "CompleteObs" "" (cstart cmd) None None "")
               (p_wfs p) (p_mode p) (p_mag p) [cmd] in
           Ok (mkObsState false true (Some o) (obs_newCmds st))
       end
     else if inPreset st && name_is cmd "Cancel" then
       Ok (mkObsState false false (obsCmd st) (obs_newCmds st))
     else if inObs st then
       match obsCmd st with
       | None => Raise UnboundLocalError
       | Some o =>
           let o := obs_append o cmd in
           if is_Stop cmd then
             let o := obs_close o cmd in
             Ok (mkObsState false (inPreset st) (Some o)
                   (obs_newCmds st ++ [obs_object o]))
           else Ok (mkObsState true (inPreset st) (Some o) (obs_newCmds st))
       end
     else if inPreset st then
       match obsCmd st with
       | None => Raise UnboundLocalError
       | Some o =>
           let o := obs_append o cmd in
           if is_StartAO cmd then
             Ok (mkObsState true false (Some o) (obs_newCmds st))
           else Ok (mkObsState (inObs st) true (Some o) (obs_newCmds st))
       end
     else Ok st);
  Ok (mkObsState (inObs st') (inPreset st') (obsCmd st')
        (obs_newCmds st' ++ [cmd])).

Definition detectCompleteObs (cmds : list ArbCmd) : res (list ArbCmd) :=
  st ← foldM detectCompleteObs_step (mkObsState false false None []) cmds;
  Ok (obs_newCmds st).

(** ** The deduplicating [search] *)

(** [s.split(sep)] for a one-character separator. *)
Fixpoint split_on (sep : ascii) (s : string) : list string :=
  match s with
  | EmptyString => [""]
  | String c s' =>
      if Ascii.eqb c sep then "" :: split_on sep s'
      else
        match split_on sep s' with
        | x :: r => String c x :: r
        | [] => [String c ""]
        end
  end.

Definition is_space (c : ascii) : bool :=
  let n := nat_of_ascii c in
  (n =? 32)%nat || ((9 <=? n)%nat && (n <=? 13)%nat).

Fixpoint lstrip (s : string) : string :=
  match s with
  | String c s' => if is_space c then lstrip s' else s
  | EmptyString => ""
  end.

Fixpoint rstrip (s : string) : string :=
  match s with
  | String c s' =>
      let r := rstrip s' in
      if is_space c && bool_decide (r = "") then "" else String c r
  | EmptyString => ""
  end.

(** [s.strip()]. *)
Definition strip (s : string) : string := rstrip (lstrip s).

(** [p.search(s)] for the compiled pattern [p]: a greater-than sign, two
    spaces, a dot and a space, then a group that takes the rest of the
    line.  The result is group 1 of the leftmost match. *)
Fixpoint continuation (s : string) : option string :=
  match strip_prefix ">  . " s with
  | Some r => Some (fst (span (λ c, negb (Ascii.eqb c "010")) r))
  | None =>
      match s with
      | String _ s' => continuation s'
      | EmptyString => None
      end
  end.

Section Search.
(** [log_timestamp] is [time.strptime] and [calendar.timegm] on field 3
    of the line: library code, taken as a parameter.  It raises on a
    line without that field or with a malformed one. *)
Variable log_timestamp : string → res time.

(** The test of the loop body, [now-prev >= mindiff]. *)
Definition accepts (mindiff prev now : time) : bool :=
  bool_decide (mindiff ≤ now - prev).

(** The locals [prev] and [found2]. *)
Record search_state := mkSearchState {
  prev : time;
  found2 : gmap Z string
}.

(** One iteration of [for f in found]. *)
Definition search_step (mindiff : time) (st : search_state) (f : string)
    : res search_state :=
  now ← log_timestamp f;
  let found2' :=
    if accepts mindiff (prev st) now then
      match found2 st !! now with
      | None => <[now := strip f]> (found2 st)
      | Some v =>
          match split_on "|" f !! 4%nat with
          | Some field =>
              match continuation field with
              | Some g => <[now := v +:+ g]> (found2 st)
              | None => found2 st
              end
          | None => found2 st
          end
      end
    else found2 st in
  Ok (mkSearchState now found2').

(** [search(..., getDict=True)] on the lines [found] that the line
    source returns. *)
Definition search_dict (found : list string) (mindiff : time)
    : res (gmap Z string) :=
  st ← foldM (search_step mindiff) (mkSearchState 0 ∅) found;
  Ok (found2 st).

(** [search(..., getDict=False)]: the values in the order of
    [sorted(found2.keys())]. *)
Definition search (found : list string) (mindiff : time)
    : res (list string) :=
  found2 ← search_dict found mindiff;
  Ok ((λ k, default "" (found2 !! k))
        <$> merge_sort Z.le (elements (dom found2))).
End Search.

(** * Vocabulary of the statements and sample inputs *)

(** ** Commands outside the patterns of [detectOffsets] *)

Definition starts_no_pattern (c : ArbCmd) : Prop :=
  cname c ≠ "Pause" ∧ cname c ≠ "Resume".

(** ** The state of [detectAcquires] *)

(** The locals are bound whenever a window is open. *)
Definition acquires_inv (st : acquires_state) : Prop :=
  inAcquire st = true → is_Some (acquire_locals st).

(** The state with [p] put in front of its output list. *)
Definition acq_prepend (p : list ArbCmd) (st : acquires_state)
    : acquires_state :=
  mkAcquiresState (inAcquire st) (acquire_locals st) (p ++ acq_newCmds st).

Definition res_map {A B} (f : A → B) (r : res A) : res B :=
  match r with Ok a => Ok (f a) | Raise e => Raise e end.

(** ** Open acquisition windows *)

(** The commands that leave an open window open without emitting its
    composite: the recognised sub-commands, and a Done that did not
    succeed. *)
Definition keeps_window_open (c : ArbCmd) : Prop :=
  cname c = "CheckFlux" ∨ cname c ∈ acquire_subcommands
  ∨ (cname c = "Done" ∧ csuccess c ≠ Some true).

(** The composite a window starts with. *)
Definition fresh_Acquire (c : ArbCmd) : CmdData :=
  new_ArbCmd "Acquire" "" (cstart c) None (csuccess c) (cerrstr c).

(** ** The composite built by [detectCompleteObs] *)

(** The sub-command list while the detector is in the preset phase: the
    opening instrument preset, then commands none of which is a StartAO. *)
Definition shape_preset (l : list ArbCmd) : Prop :=
  ∃ p pre, l = p :: pre
    ∧ is_instrument_preset p = Ok true
    ∧ Forall (λ c, is_StartAO c = false) pre.

(** In the observation phase: a first StartAO has been reached, and no Stop
    has come after it. *)
Definition shape_obs (l : list ArbCmd) : Prop :=
  ∃ p pre s mid, l = p :: pre ++ s :: mid
    ∧ is_instrument_preset p = Ok true
    ∧ Forall (λ c, is_StartAO c = false) pre
    ∧ is_StartAO s = true
    ∧ Forall (λ c, is_Stop c = false) mid.

(** When the composite is emitted: the Stop that closed it is its last
    sub-command, and the only Stop after the first StartAO. *)
Definition shape_closed (l : list ArbCmd) : Prop :=
  ∃ p pre s mid e, l = p :: pre ++ s :: mid ++ [e]
    ∧ is_instrument_preset p = Ok true
    ∧ Forall (λ c, is_StartAO c = false) pre
    ∧ is_StartAO s = true
    ∧ Forall (λ c, is_Stop c = false) mid
    ∧ is_Stop e = true.

(** A composite as [detectCompleteObs] emits it. *)
Definition emitted_obs (c : ArbCmd) : Prop :=
  ∃ d wfs mode mag cmds, c = CompleteObs d wfs mode mag cmds
    ∧ name d = "CompleteObs"
    ∧ success d = Some true
    ∧ shape_closed cmds.

Definition obs_inv (st : obs_state) : Prop :=
  match inObs st, inPreset st with
  | false, false => True
  | false, true =>
      ∃ o, obsCmd st = Some o ∧ name (o_data o) = "CompleteObs"
        ∧ shape_preset (o_cmds o)
  | true, false =>
      ∃ o, obsCmd st = Some o ∧ name (o_data o) = "CompleteObs"
        ∧ shape_obs (o_cmds o)
  | true, true => False
  end.

(** ** Sample commands *)

Definition atomic (n a : string) (st en : option time) (su : option bool)
    : ArbCmd :=
  Cmd (new_ArbCmd n a st en su "").

Definition instrument_args : string :=
  "wfsSpec = FLAOWFS, expectedStarMagnitude = 10.5, roCoordX = 1.5, roCoordY = 0.0, mode = ACE_AO".

Definition zero_args : string :=
  "wfsSpec = FLAOWFS, expectedStarMagnitude = 10.5, roCoordX = 0.0, roCoordY = 0.000, mode = ACE_AO".

(** A StartAO that failed and was sent again, inside one observation. *)
Definition two_StartAO : list ArbCmd :=
  [atomic "PresetAO" instrument_args (Some 1) (Some 5) (Some true);
   atomic "StartAO" "" (Some 6) None (Some false);
   atomic "StartAO" "" (Some 8) (Some 9) (Some true);
   atomic "StopAO" "" (Some 20) (Some 21) (Some true)].

(** The invariant as the data model words it. *)
Definition exactly_one_StartAO_and_Stop (cmds : list ArbCmd) : Prop :=
  List.length (filter (λ c, is_StartAO c = true) cmds) = 1%nat
  ∧ List.length (filter (λ c, is_Stop c = true) cmds) = 1%nat.

(** ** The description of [ao_setup_overhead] *)

(** [end_time - start_time] of a command; a command without both times
    has no duration to add. *)
Definition duration (c : ArbCmd) : time :=
  match cend c, cstart c with
  | Some e, Some s => e - s
  | _, _ => 0
  end.

Definition timed (c : ArbCmd) : bool :=
  bool_decide (is_Some (cend c) ∧ is_Some (cstart c)).

Definition Zsum (l : list Z) : Z := foldr Z.add 0 l.

(** "Some command named CenterStar, CenterPupils, CheckFlux or CloseLoop
    is present anywhere in the sub-command list." *)
Definition has_intervention (cmds : list ArbCmd) : bool :=
  bool_decide (Exists (λ c,
    cname c ∈ ["CenterStar"; "CenterPupils"; "CheckFlux"; "CloseLoop"]) cmds).

(** The commands the sum runs over: not Acquire, not Done, and not
    AcquireRefAO when there was an intervention. *)
Definition counted (interv : bool) (c : ArbCmd) : bool :=
  negb (name_in c ["Acquire"; "Done"])
  && negb (interv && name_is c "AcquireRefAO").

(** The commands up to and including the first one that satisfies [stop];
    [None] when no command does. *)
Fixpoint upto_first (stop : ArbCmd → bool) (cmds : list ArbCmd)
    : option (list ArbCmd) :=
  match cmds with
  | [] => None
  | c :: rest =>
      if stop c then Some [c] else (c ::.) <$> upto_first stop rest
  end.

(** The description of the claim, word for word: the sum over the
    sub-commands up to and including the first StartAO, with the excluded
    names left out; 0 when there is no StartAO. *)
Definition stated_ao_setup_overhead (cmds : list ArbCmd) : time :=
  match upto_first is_StartAO cmds with
  | None => 0
  | Some pre =>
      Zsum (duration <$>
        filter (λ c, counted (has_intervention cmds) c = true) pre)
  end.

(** What the code computes: commands that lack a time are passed over
    before their name is looked at, so the sum ends at the first StartAO
    that has both times. *)
Definition timed_ao_setup_overhead (cmds : list ArbCmd) : time :=
  match upto_first (λ c, is_StartAO c && timed c) cmds with
  | None => 0
  | Some pre =>
      Zsum (duration <$>
        filter (λ c, timed c && counted (has_intervention cmds) c = true) pre)
  end.

(** The sum of the description, from a running total. *)
Definition timed_sum_from (interv : bool) (acc : time) (cmds : list ArbCmd)
    : time :=
  match upto_first (λ c, is_StartAO c && timed c) cmds with
  | None => 0
  | Some pre =>
      acc + Zsum (duration <$>
              filter (λ c, timed c && counted interv c = true) pre)
  end.

(** ** The per-observation CSV writer *)

(** One row of [update_output_csv]; the metrics are kept as numbers (the
    source formats each with ['%d' %]), and [row_start] is the time that
    [dayStr] and [hourStr] format. *)
Record csv_row := mkRow {
  row_start : option time;
  row_tottime : time;
  row_opentime : time;
  row_setuptime : time;
  row_aosetuptime : time;
  row_telsetuptime : time;
  row_offsetstime : time;
  row_wfs : string;
  row_mode : string;
  row_mag : pyfloat
}.

(** The body of [for cmd in cmds] in [update_output_csv]: the method calls
    in source order, none of them inside a [try]. *)
Definition output_csv_row (cmd : ArbCmd) : res csv_row :=
  match cmd with
  | CompleteObs d wfs mode mag cmds =>
      let tottime := total_time d in
      opentime ← total_open_time d cmds;
      setuptime ← setup_duration d cmds;
      let aosetuptime := ao_setup_overhead cmds in
      telsetuptime ← telescope_overhead d cmds;
      offsetstime ← offsets_overhead cmds;
      Ok (mkRow (start_time d) tottime opentime setuptime aosetuptime
            telsetuptime offsetstime wfs mode mag)
  | _ => Raise AttributeError
  end.

(** The loop of [update_output_csv] that appends one row per command to
    [data]. *)
Definition update_output_csv_rows (data : list csv_row) (cmds : list ArbCmd)
    : res (list csv_row) :=
  foldM (λ data cmd, row ← output_csv_row cmd; Ok (data ++ [row])) data cmds.

(** ** Sample inputs of [detectOffsets] *)

Definition three_plain : list ArbCmd :=
  [atomic "PresetAO" zero_args (Some 1) (Some 5) (Some true);
   atomic "AcquireRefAO" "" (Some 6) (Some 9) (Some true);
   atomic "StartAO" "" (Some 10) (Some 12) (Some true)].

Definition five_plain : list ArbCmd :=
  three_plain
  ++ [atomic "OffsetZ" "0.1" (Some 13) (Some 14) (Some true);
      atomic "StopAO" "" (Some 20) (Some 21) (Some true)].

(** Scenario 1, with the success values as parameters. *)
Definition Pause_100 (su : option bool) : ArbCmd :=
  atomic "Pause" "" (Some 100) (Some 102) su.
Definition OffsetXY_103 (su : option bool) : ArbCmd :=
  atomic "OffsetXY" "1.0,2.0" (Some 103) (Some 105) su.
Definition Resume_106 (su : option bool) : ArbCmd :=
  atomic "Resume" "" (Some 106) (Some 108) su.

Definition scenario1 (s0 s1 s2 : option bool) : list ArbCmd :=
  [Pause_100 s0; OffsetXY_103 s1; Resume_106 s2].

(** ** The description of the search *)

(** The rule as the description states it: a line is accepted when its
    timestamp is at least [mindiff] after that of the previous accepted
    line (the first line has none before it).  The accepted timestamps. *)
Fixpoint stated_accepted (mindiff : time) (last : option time)
    (ts : list time) : list time :=
  match ts with
  | [] => []
  | t :: rest =>
      if match last with
         | None => true
         | Some p => bool_decide (mindiff ≤ t - p)
         end
      then t :: stated_accepted mindiff (Some t) rest
      else stated_accepted mindiff last rest
  end.

(** The rule of the loop: a line is compared with the line just before
    it, accepted or not, and the first line with 0. *)
Fixpoint accepted_after_previous_line (mindiff prev : time)
    (ts : list time) : list time :=
  match ts with
  | [] => []
  | t :: rest =>
      if accepts mindiff prev t
      then t :: accepted_after_previous_line mindiff t rest
      else accepted_after_previous_line mindiff t rest
  end.

(** A timestamp parser for the examples: field 3 of the line is read as a
    count of seconds. *)
Definition seconds_timestamp (line : string) : res time :=
  match split_on "|" line !! 3%nat with
  | Some f => Ok (Z.of_N (digits_value 0 f))
  | None => Raise IndexError
  end.

Definition burst_lines : list string :=
  ["AOARB|L|MAIN|1000|> heartbeat"; "AOARB|L|MAIN|1100|> heartbeat";
   "AOARB|L|MAIN|1200|> heartbeat"].

Definition unordered_lines : list string :=
  ["AOARB|L|MAIN|1000|> heartbeat"; "AOARB|L|MAIN|100|> heartbeat";
   "AOARB|L|MAIN|1050|> heartbeat"].

(** ** Inputs of the worked examples *)

(** The composite that [detectCompleteObs] emits on [two_StartAO], and the
    output: the composite comes just before the StopAO that closed it. *)
Definition two_StartAO_obs : ArbCmd :=
  CompleteObs (new_ArbCmd "CompleteObs" "" (Some 1) (Some 21) (Some true) "")
    "FLAO" "ACE_AO" (mkFloat false 105 1) two_StartAO.

Definition two_StartAO_output : list ArbCmd :=
  take 3 two_StartAO ++ two_StartAO_obs :: drop 3 two_StartAO.

Definition zero_preset : ArbCmd :=
  atomic "PresetAO" zero_args (Some 1) (Some 5) (Some true).

Definition zero_preset_attrs : PresetAttrs :=
  mkPresetAttrs "FLAO" (mkFloat false 105 1) (mkFloat false 0 1)
    (mkFloat false 0 3) "ACE_AO".

(** The reference position written without a decimal point. *)
Definition integer_zero_args : string :=
  "wfsSpec = FLAOWFS, expectedStarMagnitude = 10.5, roCoordX = 0, roCoordY = 0, mode = ACE_AO".

Definition integer_zero_preset : ArbCmd :=
  atomic "PresetAO" integer_zero_args (Some 1) (Some 5) (Some true).

Definition AcquireRefAO_1 : ArbCmd :=
  atomic "AcquireRefAO" "" (Some 10) (Some 11) (Some true).
Definition AcquireRefAO_2 : ArbCmd :=
  atomic "AcquireRefAO" "" (Some 30) (Some 31) (Some true).
Definition open_window : list ArbCmd :=
  [atomic "CheckFlux" "" (Some 12) (Some 13) (Some true);
   atomic "Done" "" (Some 14) (Some 15) (Some false)].
Definition after_restart : list ArbCmd :=
  [atomic "Done" "" (Some 32) (Some 33) (Some true)].

Definition resume_first : list ArbCmd :=
  [atomic "PresetAO" instrument_args (Some 1) (Some 5) (Some true);
   atomic "StartAO" "" (Some 6) (Some 7) (Some true)].
Definition obs_data : CmdData :=
  new_ArbCmd "CompleteObs" "" (Some 1) (Some 21) (Some true) "".

Definition ordered_lines : list string :=
  ["AOARB|L|MAIN|1000|> heartbeat"; "AOARB|L|MAIN|1100|> heartbeat";
   "AOARB|L|MAIN|1300|> heartbeat"].

(** ** Vocabulary of the further properties *)

(** Neither a Pause nor a Resume, under either spelling. *)
Definition no_offset_command (c : ArbCmd) : Prop :=
  is_Pause c = false ∧ is_Resume c = false.

(** [offsets_time] moved by [x]. *)
Definition offsets_shift (x : time) (st : offsets_locals) : offsets_locals :=
  mkOffsetsLocals (pause_time st) (x + offsets_time st).

Definition bracket_before : list ArbCmd :=
  [atomic "PresetAO" instrument_args (Some 1) (Some 5) (Some true);
   atomic "StartAO" "" (Some 6) (Some 7) (Some true)].
Definition bracket_between : list ArbCmd :=
  [atomic "OffsetXY" "1.0,2.0" (Some 103) (Some 105) (Some true)].
Definition bracket_after : list ArbCmd :=
  [atomic "StopAO" "" (Some 120) (Some 121) (Some true)].

(** A command on which [is_instrument_preset()] returns [False]: any
    command that is not a PresetAO, and a PresetAO at the origin. *)
Definition not_instrument (c : ArbCmd) : Prop :=
  is_instrument_preset c = Ok false.

(** A command that the preset phase only records. *)
Definition stays_in_preset (c : ArbCmd) : Prop :=
  not_instrument c ∧ is_StartAO c = false ∧ name_is c "Cancel" = false.

(** A command that the observation phase only records. *)
Definition stays_in_obs (c : ArbCmd) : Prop :=
  not_instrument c ∧ is_Stop c = false.

(** The composite that [detectCompleteObs] emits for the preset [p] with
    parsed fields [a], closed by the Stop [e], over the sub-commands
    [cmds]. *)
Definition closed_CompleteObs (p : ArbCmd) (a : PresetAttrs) (e : ArbCmd)
    (cmds : list ArbCmd) : ArbCmd :=
  CompleteObs (new_ArbCmd "CompleteObs" "" (cstart p) (cend e) (Some true) "")
    (p_wfs a) (p_mode a) (p_mag a) cmds.

(** The state with [l] put in front of its output list. *)
Definition obs_prepend (l : list ArbCmd) (st : obs_state) : obs_state :=
  mkObsState (inObs st) (inPreset st) (obsCmd st) (l ++ obs_newCmds st).

(** The fields of the composite under construction come from the preset
    at the head of its sub-commands. *)
Definition obs_fields_of (o : ObsCmd) (p : ArbCmd) : Prop :=
  head (o_cmds o) = Some p
  ∧ start_time (o_data o) = cstart p
  ∧ ∃ a, preset_attrs p = Some a
      ∧ o_wfs o = p_wfs a ∧ o_mode o = p_mode a ∧ o_mag o = p_mag a.

Definition obs_fields_inv (st : obs_state) : Prop :=
  inObs st = true ∨ inPreset st = true →
  ∃ o p, obsCmd st = Some o ∧ obs_fields_of o p.

(** What an emitted composite records of its observation. *)
Definition emitted_fields (c : ArbCmd) : Prop :=
  ∃ d wfs mode mag cmds p e a,
    c = CompleteObs d wfs mode mag cmds
    ∧ head cmds = Some p ∧ last cmds = Some e
    ∧ start_time d = cstart p ∧ end_time d = cend e
    ∧ preset_attrs p = Some a
    ∧ wfs = p_wfs a ∧ mode = p_mode a ∧ mag = p_mag a.

Definition instrument_preset : ArbCmd :=
  atomic "PresetAO" instrument_args (Some 1) (Some 5) (Some true).
Definition instrument_attrs : PresetAttrs :=
  mkPresetAttrs "FLAO" (mkFloat false 105 1) (mkFloat false 15 1)
    (mkFloat false 0 1) "ACE_AO".
Definition StartAO_6 : ArbCmd :=
  atomic "StartAO" "" (Some 6) (Some 7) (Some true).
Definition StopAO_20 : ArbCmd :=
  atomic "StopAO" "" (Some 20) (Some 21) (Some true).
Definition Cancel_8 : ArbCmd :=
  atomic "Cancel" "" (Some 8) (Some 9) (Some true).

(** A sub-command that an open acquisition window folds into its
    composite (Done apart). *)
Definition folded_subcommand (c : ArbCmd) : Prop :=
  cname c = "CheckFlux" ∨ cname c ∈ acquire_subcommands.

(** A command that [detectAcquires] does not know. *)
Definition unrecognised (c : ArbCmd) : Prop :=
  cname c ≠ "AcquireRefAO" ∧ cname c ≠ "CheckFlux"
  ∧ (cname c ∉ acquire_subcommands) ∧ cname c ≠ "Done".

(** The composite after the commands [mid] of an open window have been
    folded into it, in order. *)
Definition window_fold (acq : CmdData) (mid : list ArbCmd) : CmdData :=
  foldl (λ acq c,
    if name_is c "CheckFlux" then acquire_copy (acquire_fold acq c) c
    else acquire_fold acq c) acq mid.

Definition CheckFlux_12 : ArbCmd :=
  atomic "CheckFlux" "" (Some 12) (Some 13) (Some true).
Definition CloseLoop_14 : ArbCmd :=
  atomic "CloseLoop" "" (Some 14) (Some 15) (Some true).
Definition Done_16 : ArbCmd :=
  atomic "Done" "" (Some 16) (Some 17) (Some true).
Definition Done_32 : ArbCmd :=
  atomic "Done" "" (Some 32) (Some 33) (Some true).

(** A composite made by [detectOffsets]. *)
Definition offsets_composite (c : ArbCmd) : Prop :=
  match c with
  | OffsetSequence d _ _ => name d = "OffsetSequence"
  | ExposureSequence d _ _ => name d = "ExposureSequence"
  | _ => False
  end.

Definition pause_without_resume : list ArbCmd :=
  [Pause_100 (Some true); OffsetXY_103 (Some true);
   atomic "OffsetZ" "0.1" (Some 110) (Some 111) (Some true);
   Pause_100 None; StopAO_20; StopAO_20].

(** Consecutive timestamps closer than [mindiff]. *)
Fixpoint all_close (mindiff prev : time) (ts : list time) : Prop :=
  match ts with
  | [] => True
  | t :: rest => t - prev < mindiff ∧ all_close mindiff t rest
  end.

(** Timestamps that never step back, from [prev] on. *)
Fixpoint non_decreasing_from (prev : time) (ts : list time) : Prop :=
  match ts with
  | [] => True
  | t :: rest => prev ≤ t ∧ non_decreasing_from t rest
  end.

(** ** [update_cmd_csv]

    The file is a parameter: [data] is what [csv.reader] returns for it,
    the empty list when the file does not exist, and the result is what
    [csv.writer] is given, [None] when the function returns without
    writing.  A row is the list of its fields. *)

Section CmdCsv.
(** [dayStr], [hourStr] and the ['%d' %] format of a duration are library
    formatting; [day] is [args.day]. *)
Variable dayStr hourStr format_d : time → string.
Variable day : string.

Definition cmd_csv_header : list string :=
  ["day"; "hour"; "command"; "elapsed"].

(** [lambda row: (row[0] != args.day) or (row[2] != cmds[0].name)]. *)
Definition other_day_or_command (name0 : string) (row : list string)
    : res bool :=
  r0 ← py_index row 0;
  if bool_decide (r0 ≠ day) then Ok true
  else
    r2 ← py_index row 2;
    Ok (bool_decide (r2 ≠ name0)).

(** [lambda row: row[0] != 'day']. *)
Definition not_header (row : list string) : res bool :=
  r0 ← py_index row 0;
  Ok (bool_decide (r0 ≠ "day")).

(** The two chained [filter] objects, consumed by [list()]: each row goes
    through the first test and, when it passes, through the second. *)
Fixpoint keep_rows (name0 : string) (data : list (list string))
    : res (list (list string)) :=
  match data with
  | [] => Ok []
  | row :: rest =>
      b1 ← other_day_or_command name0 row;
      b ← (if b1 : bool then not_header row else Ok false);
      kept ← keep_rows name0 rest;
      Ok (if b : bool then row :: kept else kept)
  end.

(** The row of one command, when the loop does not skip it. *)
Definition cmd_csv_row (cmd : ArbCmd) : option (list string) :=
  if negb (truthy (csuccess cmd)) then None
  else
    match cend cmd, cstart cmd with
    | Some e, Some s =>
        Some [dayStr s; hourStr s; cname cmd; format_d (e - s)]
    | _, _ => None
    end.

(** [x[0]], the sort key; every row that reaches the sort has a first
    field. *)
Definition row_key (row : list string) : string :=
  match row with
  | k :: _ => k
  | [] => ""
  end.

(** [data.sort(key=lambda x: x[0])]: the sort is stable, so its result is
    that of the insertion sort that puts a row before the first row whose
    key is not smaller. *)
Fixpoint insert_row (x : list string) (l : list (list string))
    : list (list string) :=
  match l with
  | [] => [x]
  | y :: l' =>
      if String.leb (row_key x) (row_key y) then x :: l
      else y :: insert_row x l'
  end.

Definition sort_rows (l : list (list string)) : list (list string) :=
  foldr insert_row [] l.

(** The order of the sort key. *)
Definition key_le (a b : list string) : Prop :=
  String.leb (row_key a) (row_key b) = true.

Definition update_cmd_csv (data : list (list string)) (cmds : list ArbCmd)
    : res (option (list (list string))) :=
  match cmds with
  | [] => Ok None
  | cmd0 :: _ =>
      data ← keep_rows (cname cmd0) data;
      let data := data ++ omap cmd_csv_row cmds in
      let data := sort_rows data in
      Ok (Some (cmd_csv_header :: data))
  end.

(** The rows of the file that a run keeps: those that have a first field
    other than [day] or a third field other than the command name, and are
    not a header. *)
Definition kept_row (name0 : string) (row : list string) : bool :=
  match row !! 0%nat with
  | Some r0 =>
      bool_decide (r0 ≠ "day")
      && (bool_decide (r0 ≠ day)
          || match row !! 2%nat with
             | Some r2 => bool_decide (r2 ≠ name0)
             | None => false
             end)
  | None => false
  end.

(** A row on which the tests of the run raise nothing. *)
Definition readable_row (row : list string) : bool :=
  match row !! 0%nat with
  | Some r0 => bool_decide (r0 ≠ day) || bool_decide (is_Some (row !! 2%nat))
  | None => false
  end.

(** A row of the day and the command of the run. *)
Definition row_of_run (name0 : string) (row : list string) : Prop :=
  row !! 0%nat = Some day ∧ row !! 2%nat = Some name0.

(** What the source's comment assumes of the commands of a run: they share
    their name, and those that have a start time started on the day of the
    run. *)
Definition one_day_and_command (name0 : string) (cmds : list ArbCmd) : Prop :=
  Forall (λ c, cname c = name0 ∧ ∀ s, cstart c = Some s → dayStr s = day)
    cmds.
End CmdCsv.

(** ** A sample file and run for [update_cmd_csv]

    Stand-ins for the formatting: the day string tells the first day from
    the later ones, the hour and the duration are fixed. *)
Definition sample_dayStr (t : time) : string :=
  if bool_decide (t < 86400) then "20200101" else "20200102".
Definition sample_hourStr (t : time) : string := "00:00:10".
Definition sample_format_d (d : time) : string := "4".

Definition sample_cmd_file : list (list string) :=
  [ cmd_csv_header;
    ["20191231"; "23:00:00"; "PresetAO"; "7"];
    ["20200101"; "01:00:00"; "PresetAO"; "9"];
    ["20200101"; "02:00:00"; "StartAO"; "3"] ].

(** A file with a blank line. *)
Definition blank_line_file : list (list string) :=
  [ cmd_csv_header; []; ["20191231"; "23:00:00"; "PresetAO"; "7"] ].

Definition PresetAO_done : ArbCmd :=
  atomic "PresetAO" "" (Some 10) (Some 14) (Some true).
Definition PresetAO_failed : ArbCmd :=
  atomic "PresetAO" "" (Some 20) (Some 24) (Some false).
Definition sample_run : list ArbCmd := [PresetAO_done; PresetAO_failed].

(** What the sample run writes below the header. *)
Definition sample_written_body : list (list string) :=
  [ ["20191231"; "23:00:00"; "PresetAO"; "7"];
    ["20200101"; "02:00:00"; "StartAO"; "3"];
    ["20200101"; "00:00:10"; "PresetAO"; "4"] ].

(** ** The events of the report

    One constructor for each class; [name] is fixed by the class. *)

Inductive Event :=
| SkipFrameEvent (t : time) (details : string)
| FailedActuatorEvent (t : time) (details : string) (actno : option Z)
| RIPEvent (t : time) (details : string).

Definition ev_name (e : Event) : string :=
  match e with
  | SkipFrameEvent _ _ => "SkipFrame"
  | FailedActuatorEvent _ _ _ => "FailedActuator"
  | RIPEvent _ _ => "RIP"
  end.

Definition ev_t (e : Event) : time :=
  match e with
  | SkipFrameEvent t _ | FailedActuatorEvent t _ _ | RIPEvent t _ => t
  end.

Definition ev_details (e : Event) : string :=
  match e with
  | SkipFrameEvent _ d | FailedActuatorEvent _ d _ | RIPEvent _ d => d
  end.

(** [s.replace(old, new)] for an [old] of the two characters [a], [b]:
    occurrences are replaced from the left and do not overlap. *)
Fixpoint replace2 (a b : ascii) (new : string) (s : string) : string :=
  match s with
  | String c s' =>
      if Ascii.eqb c a then
        match s' with
        | String d s'' =>
            if Ascii.eqb d b then new +:+ replace2 a b new s''
            else String c (replace2 a b new s')
        | EmptyString => String c ""
        end
      else String c (replace2 a b new s')
  | EmptyString => ""
  end.

(** The group of the leftmost match of [lit] followed by [group], as
    [findall0] but without the index. *)
Fixpoint first_match {A} (lit : string) (group : string → option A)
    (s : string) : option A :=
  let here :=
    match strip_prefix lit s with
    | Some r => group r
    | None => None
    end in
  match here with
  | Some g => Some g
  | None =>
      match s with
      | String _ s' => first_match lit group s'
      | EmptyString => None
      end
  end.

(** What follows the literal text in the pattern of
    [FailedActuatorEvent.fromLogLine]: a dot, that is one character other
    than a newline, a space, a group of one or more digits (on ASCII text)
    and a group with the rest of the line. *)
Definition failing_actuator_groups (r : string) : option (string * string) :=
  match r with
  | String c (String sp r') =>
      if Ascii.eqb c "010" then None
      else if negb (Ascii.eqb sp " ") then None
      else
        let '(ds, rest) := span is_digit r' in
        if bool_decide (ds = "") then None
        else Some (ds, fst (span (λ c, negb (Ascii.eqb c "010")) rest))
  | _ => None
  end.

Definition failing_actuator_text : string := "Failing actuator detected N".

Section Events.
(** [log_timestamp] and [int] are library code. *)
Variable log_timestamp : string → res time.
Variable py_int : string → res Z.

(** [log, msg = line.split('>')] needs exactly two fields. *)
Definition SkipFrameEvent_fromLogLine (line : string) : res Event :=
  t ← log_timestamp line;
  let line := replace2 "-" ">" "--" line in
  match split_on ">" line with
  | [log; msg] => Ok (SkipFrameEvent t msg)
  | _ => Raise ValueError
  end.

(** [actno] and [msg] are bound only when the pattern is found; the
    arguments of the constructor are evaluated from the left, [actno]
    first. *)
Definition FailedActuatorEvent_fromLogLine (line : string) : res Event :=
  t ← log_timestamp line;
  match first_match failing_actuator_text failing_actuator_groups line with
  | Some (actno, reason) =>
      match split_on ">" line with
      | [log; msg] =>
          let details := "Act: " +:+ actno +:+ " - " +:+ msg in
          n ← py_int actno;
          Ok (FailedActuatorEvent t details (Some n))
      | _ => Raise ValueError
      end
  | None => Raise UnboundLocalError
  end.

(** The [ValueError] of the unpacking is caught. *)
Definition RIPEvent_fromLogLine (line : string) : res Event :=
  t ← log_timestamp line;
  match split_on "_" line with
  | [procname; other] =>
      let procname :=
        if bool_decide (procname = "fastdiagn") then "FastDiagnostic"
        else procname in
      let procname :=
        if bool_decide (procname = "housekeeper") then "HouseKeeper"
        else procname in
      Ok (RIPEvent t ("Detected by " +:+ procname))
  | _ => Ok (RIPEvent t "")
  end.
End Events.

(** The number of occurrences of a character. *)
Fixpoint count_char (c : ascii) (s : string) : nat :=
  match s with
  | String d s' => (if Ascii.eqb d c then 1 else 0) + count_char c s'
  | EmptyString => 0
  end.


(** An [int] for the examples: the value of a run of digits. *)
Definition digits_int (s : string) : res Z := Ok (Z.of_N (digits_value 0 s)).

(** Sample lines of the three kinds. *)
Definition skip_frame_line : string :=
  "AOARB|L|MAIN|1000|> loop -> SkipFrame".
Definition actuator_line : string :=
  "fastdiagn|L|MAIN|1000|> Failing actuator detected N. 123 (current)".
Definition no_space_actuator_line : string :=
  "fastdiagn|L|MAIN|1000|> Failing actuator detected N.123 (current)".
Definition rip_line : string :=
  "fastdiagn_L|MAIN|DIAG|1000|FUNCTEMERGENCYST".

(** ** [get_AOARB_cmds]

    The commands are objects that the loop changes after it has stored
    them: [curCmd], [lastAcquireRef] and the entries of [cmds] are
    references into a store of objects, numbered in the order of their
    creation. *)

(** [s.find(sub)]: the index of the first occurrence. *)
Fixpoint find (sub s : string) : option nat :=
  match strip_prefix sub s with
  | Some _ => Some 0%nat
  | None =>
      match s with
      | String _ s' => S <$> find sub s'
      | EmptyString => None
      end
  end.

(** [sub in s]. *)
Definition contains (sub s : string) : bool :=
  match find sub s with Some _ => true | None => false end.

(** [s.index(sub)]. *)
Definition index (sub s : string) : res nat :=
  match find sub s with Some n => Ok n | None => Raise ValueError end.

(** [s[n:]] and [s[:n]]. *)
Fixpoint string_drop (n : nat) (s : string) : string :=
  match n, s with
  | S n', String _ s' => string_drop n' s'
  | _, _ => s
  end.

Fixpoint string_take (n : nat) (s : string) : string :=
  match n, s with
  | S n', String c s' => String c (string_take n' s')
  | _, _ => ""
  end.

(** [s.split()[0]]: the first run of characters that are not white
    space. *)
Definition first_word (s : string) : res string :=
  let s' := lstrip s in
  if bool_decide (s' = "") then Raise IndexError
  else Ok (fst (span (λ c, negb (is_space c)) s')).

(** What a dot-star group can take: the text up to the next newline. *)
Definition line_segment (s : string) : string :=
  fst (span (λ c, negb (Ascii.eqb c "010")) s).

(** The text before the last occurrence of [c]. *)
Fixpoint before_last (c : ascii) (s : string) : option string :=
  match s with
  | EmptyString => None
  | String d s' =>
      match before_last c s' with
      | Some r => Some (String d r)
      | None => if Ascii.eqb d c then Some "" else None
      end
  end.

(** [p1], after its literal text: a lazy group up to an opening
    parenthesis, a greedy group and a closing parenthesis.  The lazy group
    stops at the first opening parenthesis (if no closing one follows it,
    none follows a later one either) and the greedy group at the last
    closing one. *)
Definition p1_groups (r : string) : option (string * string) :=
  let '(name, rest) := span (λ c, negb (Ascii.eqb c "(")) (line_segment r) in
  match rest with
  | String _ rest' =>
      match before_last ")" rest' with
      | Some a => Some (name, a)
      | None => None
      end
  | EmptyString => None
  end.

(** [p2], after its literal text: the rest of the line. *)
Definition p2_groups (r : string) : option string := Some (line_segment r).

(** [p3], after its literal text: digits, a space, and a greedy group in
    parentheses. *)
Definition p3_groups (r : string) : option string :=
  let '(ds, r1) := span is_digit r in
  if bool_decide (ds = "") then None
  else
    match strip_prefix " (" r1 with
    | Some r2 => before_last ")" (line_segment r2)
    | None => None
    end.

(** The name and the arguments that the three patterns give, [None] for a
    malformed request. *)
Definition parse_request (line : string) : option (string * string) :=
  match first_match "Request: " p1_groups line with
  | Some (name, args) => Some (name, args)
  | None =>
      match first_match "Request: " p2_groups line with
      | Some name => Some (name, "")
      | None =>
          match first_match "has received command " p3_groups line with
          | Some name => Some (name, "")
          | None => None
          end
      end
  end.

Definition startCmdFlao : string := "FSM (status".
Definition startCmdUao : string := "Request:".
Definition endCmdFlao : string := " successfully completed".
Definition endCmdUao : string := "Status after command:".
Definition exceptionStr : string := "[AOException]".
Definition illegalCmdStr : string := "Illegal command".
Definition interventionStr : string := "Intervention:".
Definition readyForStartStr : string :=
  "Status after command: AOArbitrator.ReadyForStartAO".
Definition estimatedMagStr : string := "Estimated magnitude from ccd39: ".
Definition hoBinningStr : string := "HO binning  : ".
Definition hoSpeedStr : string := "HO speed    : ".

(** Assignments to the attributes of a command. *)
Definition set_end_time (t : option time) (d : CmdData) : CmdData :=
  mkCmd (name d) (args d) (start_time d) t (success d) (errstr d)
    (intervention d) (estimatedMag d) (hoBinning d) (hoSpeed d).
Definition set_success (b : option bool) (d : CmdData) : CmdData :=
  mkCmd (name d) (args d) (start_time d) (end_time d) b (errstr d)
    (intervention d) (estimatedMag d) (hoBinning d) (hoSpeed d).
Definition set_errstr (e : string) (d : CmdData) : CmdData :=
  mkCmd (name d) (args d) (start_time d) (end_time d) (success d) e
    (intervention d) (estimatedMag d) (hoBinning d) (hoSpeed d).
Definition set_intervention (b : bool) (d : CmdData) : CmdData :=
  mkCmd (name d) (args d) (start_time d) (end_time d) (success d) (errstr d)
    (Some b) (estimatedMag d) (hoBinning d) (hoSpeed d).
Definition set_estimatedMag (x : pyfloat) (d : CmdData) : CmdData :=
  mkCmd (name d) (args d) (start_time d) (end_time d) (success d) (errstr d)
    (intervention d) (Some x) (hoBinning d) (hoSpeed d).
Definition set_hoBinning (n : Z) (d : CmdData) : CmdData :=
  mkCmd (name d) (args d) (start_time d) (end_time d) (success d) (errstr d)
    (intervention d) (estimatedMag d) (Some n) (hoSpeed d).
Definition set_hoSpeed (n : Z) (d : CmdData) : CmdData :=
  mkCmd (name d) (args d) (start_time d) (end_time d) (success d) (errstr d)
    (intervention d) (estimatedMag d) (hoBinning d) (Some n).

(** The objects and the locals of the loop.  [a_args] is the local
    [args], unbound until the first request is parsed. *)
Record arb_state := mkArbState {
  a_heap : list CmdData;
  a_cmds : list nat;
  a_curCmd : option nat;
  a_lastAcquireRef : option nat;
  a_args : option string
}.

Definition arb_init : arb_state := mkArbState [] [] None None None.

(** An assignment to attributes of [curCmd]: AttributeError on [None]. *)
Definition with_curCmd (st : arb_state) (f : CmdData → CmdData)
    : res arb_state :=
  match a_curCmd st with
  | Some i =>
      Ok (mkArbState (alter f i (a_heap st)) (a_cmds st) (a_curCmd st)
            (a_lastAcquireRef st) (a_args st))
  | None => Raise AttributeError
  end.

(** [if curCmd is not None: cmds.append(curCmd); curCmd = None]. *)
Definition store_curCmd (st : arb_state) : arb_state :=
  match a_curCmd st with
  | Some i =>
      mkArbState (a_heap st) (a_cmds st ++ [i]) None (a_lastAcquireRef st)
        (a_args st)
  | None => st
  end.

(** [curCmd = ArbCmd(...)], then the test on the name. *)
Definition new_curCmd (st : arb_state) (n a : string) (t : time)
    : arb_state :=
  let i := List.length (a_heap st) in
  mkArbState (a_heap st ++ [new_ArbCmd n a (Some t) None None ""])
    (a_cmds st) (Some i)
    (if bool_decide (n = "AcquireRefAO") then Some i
     else a_lastAcquireRef st)
    (Some a).

Section GetCmds.
(** [log_timestamp], [float] and [int] are library code. *)
Variable log_timestamp : string → res time.
Variable py_float : string → res pyfloat.
Variable py_int : string → res Z.

(** The branch of a request.  The local [args] is bound after the
    timestamp is read, so that a line whose timestamp cannot be read leaves
    it as it was. *)
Definition arb_request (st : arb_state) (line : string) : res arb_state :=
  if contains "getLastImage" line then Ok st
  else
    let st := store_curCmd st in
    t ← log_timestamp line;
    match parse_request line with
    | Some (n, a) => Ok (new_curCmd st n a t)
    | None =>
        Ok (mkArbState (a_heap st) (a_cmds st) (a_curCmd st)
              (a_lastAcquireRef st) (Some ""))
    end.

(** The branch of the end of a command. *)
Definition arb_end (st : arb_state) (line : string) : res arb_state :=
  t ← log_timestamp line;
  st ← with_curCmd st
         (λ d, set_errstr "" (set_success (Some true)
                                (set_end_time (Some t) d)));
  if contains readyForStartStr line then
    match a_lastAcquireRef st with
    | Some i =>
        Ok (mkArbState (alter (set_end_time (Some t)) i (a_heap st))
              (a_cmds st) (a_curCmd st) (a_lastAcquireRef st) (a_args st))
    | None => Ok st
    end
  else Ok st.

(** The text after the first occurrence of [sub], [line[pos+len(sub):]]. *)
Definition text_after (sub line : string) : res string :=
  pos ← index sub line;
  Ok (string_drop (pos + String.length sub) line).

(** The body of the [try]. *)
Definition arb_body (st : arb_state) (line : string) : res arb_state :=
  if contains startCmdFlao line || contains startCmdUao line then
    arb_request st line
  else if contains endCmdFlao line || contains endCmdUao line then
    arb_end st line
  else if contains exceptionStr line then
    r ← text_after exceptionStr line;
    with_curCmd st (λ d, set_success (Some false) (set_errstr (strip r) d))
  else if contains illegalCmdStr line then
    pos ← index illegalCmdStr line;
    with_curCmd st
      (λ d, set_success (Some false)
              (set_errstr (strip (string_drop pos line)) d))
  else if contains interventionStr line then
    pos ← index interventionStr line;
    let pos := (pos + String.length interventionStr)%nat in
    let interv := string_take 5 (string_drop (pos + 1) line) in
    with_curCmd st
      (set_intervention (bool_decide (string_take 4 interv = "True")))
  else if contains estimatedMagStr line then
    r ← text_after estimatedMagStr line;
    x ← py_float r;
    with_curCmd st (set_estimatedMag x)
  else if contains hoBinningStr line then
    r ← text_after hoBinningStr line;
    n ← py_int r;
    with_curCmd st (set_hoBinning n)
  else if contains hoSpeedStr line then
    r ← text_after hoSpeedStr line;
    w ← first_word r;
    n ← py_int w;
    with_curCmd st (set_hoSpeed n)
  else Ok st.

(** The [try] with its handler.  The handler reads [args.verbose], and
    [args] is the local of this function, not the module's: unbound it
    raises UnboundLocalError, bound it is a string and raises
    AttributeError. *)
Definition arb_try (st : arb_state) (line : string) : res arb_state :=
  match arb_body st line with
  | Ok st' => Ok st'
  | Raise _ =>
      match a_args st with
      | None => Raise UnboundLocalError
      | Some _ => Raise AttributeError
      end
  end.

(** The loop over the lines and the last command; every reference is to
    an object of the store. *)
Definition AOARB_cmds_of_lines (lines : list string) : res (list ArbCmd) :=
  st ← foldM arb_try arb_init lines;
  let st := store_curCmd st in
  Ok (omap (λ i, Cmd <$> a_heap st !! i) (a_cmds st)).

(** [lines = search('AOARB', string='MAIN', mindiff=0)]; [found] is what
    the log files give. *)
Definition get_AOARB_cmds (found : list string) : res (list ArbCmd) :=
  lines ← search log_timestamp found 0;
  AOARB_cmds_of_lines lines.
End GetCmds.

(** ** Kinds of lines *)

Definition is_request_marker (line : string) : bool :=
  contains startCmdFlao line || contains startCmdUao line.


(** The texts that the loop looks for. *)
Definition markers : list string :=
  [ startCmdFlao; startCmdUao; endCmdFlao; endCmdUao; exceptionStr;
    illegalCmdStr; interventionStr; estimatedMagStr; hoBinningStr;
    hoSpeedStr ].

Definition no_marker (line : string) : Prop :=
  Forall (λ m, contains m line = false) markers.

(** A line without any of the texts, or a request for the last image. *)
Definition ignored_line (line : string) : Prop :=
  no_marker line
  ∨ (is_request_marker line = true ∧ contains "getLastImage" line = true).

(** A request that the patterns can read. *)
Definition well_formed_request (line : string) : bool :=
  is_request_marker line && negb (contains "getLastImage" line)
  && bool_decide (is_Some (parse_request line)).

Section GetCmdsVocabulary.
Variable log_timestamp : string → res time.



(** The command [d] is the one that the request [line] asks for; a
    command that has succeeded has an end time. *)
Definition command_of_request (d : CmdData) (line : string) : Prop :=
  parse_request line = Some (name d, args d)
  ∧ (∃ t, log_timestamp line = Ok t ∧ start_time d = Some t)
  ∧ (success d = Some true → is_Some (end_time d)).

(** The state of the loop after the requests [reqs]: the store holds
    their commands, and [cmds] with [curCmd] refers to all of them in
    order. *)
Definition arb_inv (reqs : list string) (st : arb_state) : Prop :=
  Forall2 command_of_request (a_heap st) reqs
  ∧ a_cmds (store_curCmd st) = seq 0 (List.length (a_heap st)).
End GetCmdsVocabulary.


(** A step that creates no command and changes none of the properties of
    [command_of_request]. *)
Definition arb_touched (st st' : arb_state) : Prop :=
  a_cmds st' = a_cmds st ∧ a_curCmd st' = a_curCmd st
  ∧ ∃ fs : list (nat * (CmdData → CmdData)),
      a_heap st' = foldr (λ '(i, f) h, alter f i h) (a_heap st) fs
      ∧ Forall (λ '(_, f), ∀ d,
                  name (f d) = name d ∧ args (f d) = args d
                  ∧ start_time (f d) = start_time d
                  ∧ ((success d = Some true → is_Some (end_time d))
                     → success (f d) = Some true → is_Some (end_time (f d))))
               fs.

Definition acquire_request : string :=
  "AOARB|L|MAIN|1000|> Request: AcquireRefAO()".
Definition heartbeat_line : string :=
  "AOARB|L|MAIN|1005|> heartbeat".
Definition acquire_status : string :=
  "AOARB|L|MAIN|1010|> Status after command: AOArbitrator.RefAcquired".

(** ** [outputEvents]

    [sortedEvents] is what the report lists and counts.  The dictionary
    [ev] is keyed by the time of the event; every key of the second loop
    is in it. *)
Definition events_by_time (events : list Event) : gmap Z Event :=
  foldl (λ ev e, <[ev_t e := e]> ev) ∅ events.

Definition sortedEvents (sort : bool) (events : list Event) : list Event :=
  if sort then
    let ev := events_by_time events in
    omap (λ k, ev !! k) (merge_sort Z.le (elements (dom ev)))
  else events.

(** The last event of its time in the list. *)
Definition last_of_its_time (events : list Event) (e : Event) : Prop :=
  ∃ pre post,
    events = pre ++ e :: post ∧ Forall (λ e', ev_t e' ≠ ev_t e) post.

(** * Verification *)

(** ** Generic facts *)

Lemma foldM_app {S A} (step : S → A → res S) (s : S) (l1 l2 : list A) :
  foldM step s (l1 ++ l2) = (s' ← foldM step s l1; foldM step s' l2).
Proof.
  revert s. induction l1 as [|a l1 IH]; intros s; simpl; [done|].
  destruct (step s a) as [s'|e]; simpl; [apply IH | done].
Qed.

Lemma bind_Ok {A B} (m : res A) (f : A → res B) (b : B) :
  (x ← m; f x) = Ok b → ∃ a, m = Ok a ∧ f a = Ok b.
Proof. destruct m as [a|e]; simpl; [eauto | discriminate]. Qed.

Lemma py_index_lookup {A} (l : list A) (n : nat) (x : A) :
  l !! n = Some x → py_index l n = Ok x.
Proof. unfold py_index. by intros ->. Qed.

(** ** [detectOffsets] on commands that start no pattern *)

Lemma detectOffsets_step_plain cmds st n c0 c1 c2 :
  cmds !! n = Some c0 → cmds !! (n + 1)%nat = Some c1 →
  cmds !! (n + 2)%nat = Some c2 → starts_no_pattern c0 →
  detectOffsets_step cmds st n
  = Ok (mkOffsetsState (args_local st) (off_newCmds st ++ [c0])).
Proof.
  intros H0 H1 H2 [Hp Hr]. unfold detectOffsets_step.
  rewrite (py_index_lookup _ _ _ H0), (py_index_lookup _ _ _ H1),
    (py_index_lookup _ _ _ H2). simpl.
  unfold name_is.
  rewrite (bool_decide_eq_false_2 (cname c0 = "Pause")),
    (bool_decide_eq_false_2 (cname c0 = "Resume")) by done.
  done.
Qed.

Lemma detectOffsets_loop_plain cmds a k :
  Forall starts_no_pattern cmds → (k + 2 ≤ List.length cmds)%nat →
  foldM (detectOffsets_step cmds) (mkOffsetsState a []) (seq 0 k)
  = Ok (mkOffsetsState a (take k cmds)).
Proof.
  intros Hall. induction k as [|k IH]; intros Hk; [done|].
  rewrite seq_S, foldM_app, IH by lia. simpl.
  destruct (lookup_lt_is_Some_2 cmds k) as [c0 H0]; [lia|].
  destruct (lookup_lt_is_Some_2 cmds (k + 1)) as [c1 H1]; [lia|].
  destruct (lookup_lt_is_Some_2 cmds (k + 2)) as [c2 H2]; [lia|].
  rewrite (detectOffsets_step_plain _ _ _ _ _ _ H0 H1 H2); simpl.
  - by rewrite (take_S_r _ _ _ H0).
  - eapply Forall_lookup_1; eauto.
Qed.

(** Without a Pause or a Resume no composite is created: the output is the
    input cut two commands short. *)
Lemma detectOffsets_plain cmds :
  Forall starts_no_pattern cmds → (3 ≤ List.length cmds)%nat →
  detectOffsets cmds = Ok (take (List.length cmds - 2) cmds).
Proof.
  intros Hall Hlen. unfold detectOffsets.
  destruct (Nat.ltb_spec (List.length cmds) 3) as [?|_]; [lia|].
  by rewrite detectOffsets_loop_plain by (done || lia).
Qed.

(** ** [detectAcquires]: the loop never raises and only adds commands *)

Lemma detectAcquires_step_spec st cmd :
  acquires_inv st →
  ∃ st' e, detectAcquires_step st cmd = Ok st'
    ∧ acquires_inv st'
    ∧ acq_newCmds st' = acq_newCmds st ++ e ++ [cmd].
Proof.
  intros Hinv. unfold detectAcquires_step, name_is, name_in.
  destruct (bool_decide (cname cmd = "AcquireRefAO")); simpl.
  { eexists _, []. split; [done|]. split; [by intros _; eexists | done]. }
  destruct (inAcquire st) eqn:Hin; simpl.
  2:{ eexists _, []. split; [done|]. split; [|done].
      intros H; simpl in H. congruence. }
  destruct (Hinv Hin) as [[acq dn] ->].
  destruct (bool_decide (cname cmd = "CheckFlux")); simpl.
  { eexists _, []. split; [done|]. split; [by intros _; eexists | done]. }
  destruct (bool_decide (cname cmd ∈ acquire_subcommands)); simpl.
  { eexists _, []. split; [done|]. split; [by intros _; eexists | done]. }
  destruct (bool_decide (cname cmd = "Done")); simpl.
  { destruct (bool_decide (csuccess cmd = Some true)); simpl.
    - eexists _, [_]. split; [done|]. split; [by intros _; eexists|].
      simpl. by rewrite <- app_assoc.
    - eexists _, []. split; [done|]. split; [by intros _; eexists | done]. }
  destruct dn; simpl.
  - eexists _, []. split; [done|]. split; [|done].
    intros _. exact (Hinv Hin).
  - eexists _, [_]. split; [done|]. split; [by intros _; eexists|].
    simpl. by rewrite <- app_assoc.
Qed.

Lemma detectAcquires_loop_spec cmds : ∀ st,
  acquires_inv st →
  ∃ st' out, foldM detectAcquires_step st cmds = Ok st'
    ∧ acquires_inv st'
    ∧ acq_newCmds st' = acq_newCmds st ++ out
    ∧ sublist cmds out.
Proof.
  induction cmds as [|cmd cmds IH]; intros st Hinv; simpl.
  - exists st, []. by rewrite app_nil_r.
  - destruct (detectAcquires_step_spec st cmd Hinv)
      as (st1 & e & -> & Hinv1 & Hn1).
    simpl. destruct (IH st1 Hinv1) as (st' & out & -> & Hinv' & Hn' & Hsub).
    exists st', (e ++ cmd :: out). repeat split; [done| |].
    + rewrite Hn', Hn1. by rewrite <- !app_assoc.
    + apply sublist_inserts_l. by constructor.
Qed.

Lemma acquires_inv_init : acquires_inv (mkAcquiresState false None []).
Proof. intros H. discriminate. Qed.

(** [detectAcquires] returns on every input, and its output contains the
    input commands in their order. *)
Lemma detectAcquires_preserves cmds :
  ∃ out, detectAcquires cmds = Ok out ∧ sublist cmds out.
Proof.
  unfold detectAcquires.
  destruct (detectAcquires_loop_spec cmds _ acquires_inv_init)
    as (st' & out & -> & _ & Hn & Hsub).
  exists out. simpl in *. by rewrite Hn.
Qed.

(** The loop does not read its output list. *)
Lemma detectAcquires_step_prepend p st cmd :
  detectAcquires_step (acq_prepend p st) cmd
  = res_map (acq_prepend p) (detectAcquires_step st cmd).
Proof.
  destruct st as [i l n]. unfold detectAcquires_step, acq_prepend. simpl.
  destruct (name_is cmd "AcquireRefAO"); simpl.
  { by rewrite <- app_assoc. }
  destruct i; simpl; [|by rewrite <- app_assoc].
  destruct l as [[acq dn]|]; simpl; [|done].
  repeat (match goal with |- context [if ?b then _ else _] => destruct b end;
          simpl; rewrite <- ?app_assoc; try done).
Qed.

Lemma detectAcquires_loop_prepend p cmds : ∀ st,
  foldM detectAcquires_step (acq_prepend p st) cmds
  = res_map (acq_prepend p) (foldM detectAcquires_step st cmds).
Proof.
  induction cmds as [|cmd cmds IH]; intros st; simpl; [done|].
  rewrite detectAcquires_step_prepend.
  destruct (detectAcquires_step st cmd) as [st1|e]; simpl; [apply IH | done].
Qed.

(** ** [detectAcquires]: a second AcquireRefAO in an open window *)

Lemma detectAcquires_step_AcquireRefAO st c :
  cname c = "AcquireRefAO" →
  detectAcquires_step st c
  = Ok (mkAcquiresState true (Some (fresh_Acquire c, false))
          (acq_newCmds st ++ [c])).
Proof.
  intros Hn. unfold detectAcquires_step, name_is.
  by rewrite bool_decide_eq_true_2.
Qed.

Lemma AcquireRefAO_not_subcommand : "AcquireRefAO" ∉ acquire_subcommands.
Proof. by apply (bool_decide_unpack _). Qed.

Lemma detectAcquires_step_keeps c acq dn n :
  keeps_window_open c →
  ∃ acq' dn',
    detectAcquires_step (mkAcquiresState true (Some (acq, dn)) n) c
    = Ok (mkAcquiresState true (Some (acq', dn')) (n ++ [c])).
Proof.
  unfold detectAcquires_step, name_is, name_in. simpl.
  intros [Hc | [Hc | [Hc Hs]]].
  - rewrite Hc. simpl. by eexists _, _.
  - destruct (bool_decide (cname c = "AcquireRefAO")) eqn:Ha.
    { apply bool_decide_eq_true_1 in Ha. rewrite Ha in Hc.
      by apply AcquireRefAO_not_subcommand in Hc. }
    simpl. destruct (bool_decide (cname c = "CheckFlux")); simpl;
      [by eexists _, _|].
    rewrite bool_decide_eq_true_2 by done. simpl. by eexists _, _.
  - rewrite Hc. simpl. rewrite bool_decide_eq_false_2 by done.
    simpl. by eexists _, _.
Qed.

Lemma detectAcquires_loop_keeps mid :
  Forall keeps_window_open mid → ∀ acq dn n,
  ∃ acq' dn',
    foldM detectAcquires_step (mkAcquiresState true (Some (acq, dn)) n) mid
    = Ok (mkAcquiresState true (Some (acq', dn')) (n ++ mid)).
Proof.
  induction 1 as [|c mid Hc _ IH]; intros acq dn n; simpl.
  - eexists _, _. by rewrite app_nil_r.
  - destruct (detectAcquires_step_keeps c acq dn n Hc) as (acq1 & dn1 & ->).
    simpl. destruct (IH acq1 dn1 (n ++ [c])) as (acq' & dn' & ->).
    eexists _, _. by rewrite <- app_assoc.
Qed.

(** When a second AcquireRefAO arrives while the window opened by a first
    one is still open (only recognised sub-commands and unsuccessful Done
    commands in between), the output carries the first AcquireRefAO and the
    commands after it with no Acquire composite among them, and continues
    exactly as the output of a run that starts at the second
    AcquireRefAO. *)
Lemma detectAcquires_restart_runs
    (pre mid rest : list ArbCmd) (a1 a2 : ArbCmd) :
  cname a1 = "AcquireRefAO" → cname a2 = "AcquireRefAO" →
  Forall keeps_window_open mid →
  ∃ out_pre out_rest,
    detectAcquires pre = Ok out_pre
    ∧ detectAcquires (a2 :: rest) = Ok out_rest
    ∧ detectAcquires (pre ++ a1 :: mid ++ a2 :: rest)
      = Ok (out_pre ++ a1 :: mid ++ out_rest).
Proof.
  intros H1 H2 Hmid. unfold detectAcquires.
  destruct (detectAcquires_loop_spec pre _ acquires_inv_init)
    as (st_pre & out_pre & Hpre & _ & Hn_pre & _).
  simpl in Hn_pre.
  set (s2 := mkAcquiresState true (Some (fresh_Acquire a2, false)) [a2]).
  assert (acquires_inv s2) as Hinv2 by (intros _; by eexists).
  destruct (detectAcquires_loop_spec rest s2 Hinv2)
    as (st_r & out_r & Hr & _ & Hn_r & _).
  exists out_pre, (a2 :: out_r).
  split; [rewrite Hpre; simpl; by rewrite Hn_pre|].
  split.
  { simpl. rewrite (detectAcquires_step_AcquireRefAO _ _ H2). simpl.
    fold s2. rewrite Hr. simpl. by rewrite Hn_r. }
  rewrite foldM_app, Hpre. simpl.
  rewrite (detectAcquires_step_AcquireRefAO _ _ H1). simpl.
  rewrite foldM_app.
  destruct (detectAcquires_loop_keeps mid Hmid (fresh_Acquire a1) false
              (acq_newCmds st_pre ++ [a1])) as (acq' & dn' & ->).
  simpl. rewrite (detectAcquires_step_AcquireRefAO _ _ H2). simpl.
  change (mkAcquiresState true (Some (fresh_Acquire a2, false))
            (((acq_newCmds st_pre ++ [a1]) ++ mid) ++ [a2]))
    with (acq_prepend ((acq_newCmds st_pre ++ [a1]) ++ mid) s2).
  rewrite detectAcquires_loop_prepend, Hr. simpl.
  rewrite Hn_r, Hn_pre. simpl. by rewrite <- !app_assoc.
Qed.

(** ** [detectCompleteObs]: the shape of the composite under construction *)

Lemma detectCompleteObs_step_spec st cmd st' :
  obs_inv st → detectCompleteObs_step st cmd = Ok st' →
  obs_inv st'
  ∧ ∃ e, obs_newCmds st' = obs_newCmds st ++ e ++ [cmd]
      ∧ Forall emitted_obs e.
Proof.
  destruct st as [io ip oc n]. unfold obs_inv, detectCompleteObs_step. simpl.
  intros Hinv Hstep.
  apply bind_Ok in Hstep as (b & Hb & Hstep).
  apply bind_Ok in Hstep as (st1 & Hst1 & Hstep).
  injection Hstep as <-. simpl.
  destruct b.
  { (* an instrument preset opens a composite *)
    destruct (name_is cmd "PresetAO"); [|discriminate].
    destruct (preset_attrs cmd) as [p|]; [|discriminate].
    injection Hst1 as <-. simpl. split.
    - eexists. split; [done|]. split; [done|]. exists cmd, [].
      by repeat split.
    - by exists []. }
  destruct ip, io; simpl in *; try done.
  - (* preset phase *)
    destruct Hinv as (o & -> & Hname & p & pre & Hl & Hp & Hpre).
    destruct (name_is cmd "Cancel"); simpl in Hst1.
    { injection Hst1 as <-. simpl. split; [done | by exists []]. }
    destruct (is_StartAO cmd) eqn:Hs; injection Hst1 as <-; simpl.
    + split; [|by exists []]. eexists. split; [done|]. split; [done|]. simpl.
      exists p, pre, cmd, []. rewrite Hl. by repeat split.
    + split; [|by exists []]. eexists. split; [done|]. split; [done|]. simpl.
      exists p, (pre ++ [cmd]). rewrite Hl. repeat split; [done|].
      apply Forall_app. split; [done | by constructor].
  - (* observation phase *)
    destruct Hinv
      as (o & -> & Hname & p & pre & s & mid & Hl & Hp & Hpre & Hs & Hmid).
    destruct (is_Stop cmd) eqn:He; injection Hst1 as <-; simpl.
    + split; [done|]. eexists [_]. split; [by rewrite <- app_assoc|].
      constructor; [|done]. eexists _, _, _, _, _. split; [done|]. simpl.
      split; [done|]. split; [done|].
      exists p, pre, s, mid, cmd. rewrite Hl.
      repeat split; try done. simpl. by rewrite <- !app_assoc.
    + split; [|by exists []]. eexists. split; [done|]. split; [done|]. simpl.
      exists p, pre, s, (mid ++ [cmd]). rewrite Hl.
      repeat split; try done.
      * simpl. by rewrite <- !app_assoc.
      * apply Forall_app. split; [done | by constructor].
  - (* outside *)
    injection Hst1 as <-. simpl. split; [done | by exists []].
Qed.

Lemma detectCompleteObs_loop_spec cmds : ∀ st st',
  obs_inv st → foldM detectCompleteObs_step st cmds = Ok st' →
  obs_inv st'
  ∧ ∃ out, obs_newCmds st' = obs_newCmds st ++ out
      ∧ sublist cmds out
      ∧ Forall (λ c, c ∈ cmds ∨ emitted_obs c) out.
Proof.
  induction cmds as [|cmd cmds IH]; intros st st' Hinv Hrun; simpl in Hrun.
  - injection Hrun as <-. split; [done|]. exists []. by rewrite app_nil_r.
  - apply bind_Ok in Hrun as (st1 & Hstep & Hrun).
    destruct (detectCompleteObs_step_spec _ _ _ Hinv Hstep)
      as (Hinv1 & e & Hn1 & He).
    destruct (IH _ _ Hinv1 Hrun) as (Hinv' & out & Hn' & Hsub & Hout).
    split; [done|]. exists (e ++ cmd :: out). repeat split.
    + rewrite Hn', Hn1. by rewrite <- !app_assoc.
    + apply sublist_inserts_l. by constructor.
    + apply Forall_app. split.
      * eapply Forall_impl; [exact He | by right].
      * constructor; [left; by left|].
        eapply Forall_impl; [exact Hout|]. simpl.
        intros c [Hc | Hc]; [left; by right | by right].
Qed.

Lemma obs_inv_init : obs_inv (mkObsState false false None []).
Proof. done. Qed.

(** Whenever [detectCompleteObs] returns, its output contains the input
    commands in their order. *)
Lemma detectCompleteObs_preserves cmds out :
  detectCompleteObs cmds = Ok out → sublist cmds out.
Proof.
  unfold detectCompleteObs. intros H.
  apply bind_Ok in H as (st' & Hrun & [= <-]).
  destruct (detectCompleteObs_loop_spec _ _ _ obs_inv_init Hrun)
    as (_ & out & Hn & Hsub & _).
  simpl in Hn. by rewrite Hn.
Qed.

(** It returns when [details()] can read the fields of every PresetAO. *)
Lemma detectCompleteObs_step_total st cmd :
  obs_inv st → (cname cmd = "PresetAO" → is_Some (preset_attrs cmd)) →
  ∃ st', detectCompleteObs_step st cmd = Ok st'.
Proof.
  destruct st as [io ip oc n]. unfold obs_inv, detectCompleteObs_step.
  simpl. intros Hinv Hp.
  assert (∃ b, (if name_is cmd "PresetAO" then is_instrument_preset cmd
                else Ok false) = Ok b
               ∧ (b = true → is_Some (preset_attrs cmd))) as (b & -> & Hb).
  { unfold is_instrument_preset, name_is.
    case_bool_decide as Hn; simpl; [|by exists false].
    destruct (Hp Hn) as [p Hp']. rewrite Hp'. eexists. split; [done|].
    by eexists. }
  simpl. destruct b.
  { destruct (Hb eq_refl) as [p ->]. simpl. by eexists. }
  destruct ip, io; simpl in *; try done;
    try (destruct Hinv as (o & -> & _));
    repeat (match goal with
            | |- context [if ?b then _ else _] => destruct b
            end; simpl; try by eexists);
    by eexists.
Qed.

Lemma detectCompleteObs_total cmds :
  Forall (λ c, cname c = "PresetAO" → is_Some (preset_attrs c)) cmds →
  ∃ out, detectCompleteObs cmds = Ok out.
Proof.
  unfold detectCompleteObs. generalize obs_inv_init.
  generalize (mkObsState false false None []).
  induction cmds as [|cmd cmds IH]; intros st Hinv Hall; simpl.
  - by eexists.
  - apply Forall_cons in Hall as [Hc Hall].
    destruct (detectCompleteObs_step_total st cmd Hinv Hc) as [st1 Hstep].
    rewrite Hstep. simpl.
    destruct (detectCompleteObs_step_spec _ _ _ Hinv Hstep) as [Hinv1 _].
    exact (IH st1 Hinv1 Hall).
Qed.

(** ** [detectCompleteObs]: emitted composites and presets at the origin *)

(** C2, as stated, fails: a second StartAO that arrives during the
    observation is appended like any other command, so the emitted,
    successful composite holds two of them. *)
Lemma completeObs_two_StartAO :
  ∃ out d wfs mode mag cmds,
    detectCompleteObs two_StartAO = Ok out
    ∧ CompleteObs d wfs mode mag cmds ∈ out
    ∧ (CompleteObs d wfs mode mag cmds ∉ two_StartAO)
    ∧ success d = Some true
    ∧ (¬ exactly_one_StartAO_and_Stop cmds).
Proof.
  eexists _, _, _, _, _, _. split; [vm_compute; reflexivity|].
  split; [do 3 apply list_elem_of_further; apply list_elem_of_here|].
  split; [|split; [reflexivity|]].
  - unfold two_StartAO. rewrite !elem_of_cons, elem_of_nil.
    intros [H | [H | [H | [H | []]]]]; discriminate H.
  - intros [H _]. vm_compute in H. discriminate H.
Qed.

(** C2, amended.  Every command of the output is an input command or a
    composite emitted by the detector; an emitted composite is named
    CompleteObs, is marked successful, and its sub-command list is the
    opening instrument preset, commands without a StartAO, a first StartAO,
    commands without a Stop, and the closing Stop as last element. *)
Theorem detectCompleteObs_emitted_shape (cmds out : list ArbCmd) :
  detectCompleteObs cmds = Ok out →
  ∀ c, c ∈ out → c ∈ cmds ∨ emitted_obs c.
Proof.
  unfold detectCompleteObs. intros H.
  apply bind_Ok in H as (st' & Hrun & [= <-]).
  destruct (detectCompleteObs_loop_spec _ _ _ obs_inv_init Hrun)
    as (_ & out & Hn & _ & Hall).
  simpl in Hn. rewrite Hn. intros c Hc.
  by apply (proj1 (Forall_forall _ _) Hall).
Qed.

(** A PresetAO from whose argument text [details()] reads all its fields,
    with the reference position (0, 0), is not an instrument preset, and
    the detector's step on it opens no composite: it returns from the
    outside state and stays outside, and from any state the phase flags
    are kept, the command is passed through, and the composite under
    construction is left as it is or extended by the command. *)
Lemma zero_PresetAO_opens_no_CompleteObs (c : ArbCmd) (p : PresetAttrs) :
  cname c = "PresetAO" → preset_fields (cargs c) = Ok p →
  float_is_zero (p_refX p) = true → float_is_zero (p_refY p) = true →
  is_instrument_preset c = Ok false
  ∧ detectCompleteObs_step (mkObsState false false None []) c
    = Ok (mkObsState false false None [c])
  ∧ ∀ st st', detectCompleteObs_step st c = Ok st' →
      inObs st' = inObs st ∧ inPreset st' = inPreset st
      ∧ obs_newCmds st' = obs_newCmds st ++ [c]
      ∧ (obsCmd st' = obsCmd st
         ∨ ∃ o, obsCmd st = Some o ∧ obsCmd st' = Some (obs_append o c)).
Proof.
  intros Hn Hp Hx Hy.
  assert (is_instrument_preset c = Ok false) as Hi.
  { unfold is_instrument_preset, preset_attrs, name_is.
    rewrite bool_decide_eq_true_2 by done. simpl.
    by rewrite Hp, Hx, Hy. }
  assert (is_Stop c = false ∧ is_StartAO c = false
          ∧ name_is c "Cancel" = false ∧ name_is c "PresetAO" = true)
    as (Hstop & Hstart & Hcancel & Hpreset).
  { unfold is_Stop, is_StartAO, name_in, name_is. by rewrite Hn. }
  split; [done|]. split.
  { unfold detectCompleteObs_step. by rewrite Hpreset, Hi. }
  intros [io ip oc n] st'. unfold detectCompleteObs_step.
  rewrite Hpreset, Hi, Hcancel, Hstop, Hstart. simpl.
  rewrite andb_false_r.
  destruct io; [|destruct ip]; (destruct oc as [o|]; simpl; [|try done]);
    intros [= <-]; simpl; eauto 10.
Qed.

(** C8.  A PresetAO whose argument text gives the reference position as
    [roCoordX = 0, roCoordY = 0] is not answered with [False]: the second
    alternative of [floatPattern] is a run of the letter [d], so a number
    without a decimal point is not matched, [details()] ends in its handler
    before it sets [refX], and [is_instrument_preset()] raises
    AttributeError; the detector raises with it.  The same text with
    [0.0] and [0.000] is read, gives [False], and goes through the detector
    unchanged. *)
Theorem integer_zero_PresetAO_raises :
  match_floatPattern "0" = None
  ∧ findall0 "roCoordX = " match_floatPattern integer_zero_args
    = Raise IndexError
  ∧ preset_attrs integer_zero_preset = None
  ∧ is_instrument_preset integer_zero_preset = Raise AttributeError
  ∧ detectCompleteObs [integer_zero_preset] = Raise AttributeError
  ∧ is_instrument_preset zero_preset = Ok false
  ∧ detectCompleteObs [zero_preset] = Ok [zero_preset].
Proof.
  assert (findall0 "roCoordX = " match_floatPattern integer_zero_args
          = Raise IndexError) as Hx by (vm_compute; reflexivity).
  assert (preset_attrs integer_zero_preset = None) as Ha
    by (vm_compute; reflexivity).
  assert (is_instrument_preset integer_zero_preset = Raise AttributeError)
    as Hi.
  { unfold is_instrument_preset. rewrite Ha. reflexivity. }
  split; [vm_compute; reflexivity|]. split; [exact Hx|].
  split; [exact Ha|]. split; [exact Hi|]. split.
  { unfold detectCompleteObs. cbn [foldM]. unfold detectCompleteObs_step.
    cbn [inObs inPreset]. rewrite Hi. reflexivity. }
  split; vm_compute; reflexivity.
Qed.

(** ** [ao_setup_overhead] against its description *)

Lemma is_intervention_has_intervention cmds :
  is_intervention cmds = has_intervention cmds.
Proof.
  unfold is_intervention, has_intervention.
  assert (∀ b, foldl (λ b cmd,
            if name_in cmd ["CenterStar"; "CenterPupils"; "CheckFlux"; "CloseLoop"]
            then true else b) b cmds
          = b || bool_decide (Exists (λ c,
              cname c ∈ ["CenterStar"; "CenterPupils"; "CheckFlux"; "CloseLoop"])
              cmds)) as H; [|by rewrite H].
  induction cmds as [|c cmds IH]; intros b; simpl.
  - by rewrite orb_false_r.
  - rewrite IH. unfold name_in.
    destruct (bool_decide (cname c ∈ _)) eqn:Hc.
    + apply bool_decide_eq_true_1 in Hc.
      rewrite (bool_decide_eq_true_2 (Exists _ (c :: cmds))) by (by left).
      by rewrite orb_true_r.
    + apply bool_decide_eq_false_1 in Hc. destruct b; simpl; [done|].
      apply bool_decide_ext. rewrite Exists_cons. tauto.
Qed.

Lemma is_StartAO_counted interv c :
  is_StartAO c = true → counted interv c = true.
Proof.
  unfold is_StartAO, counted, name_in, name_is. intros H.
  apply bool_decide_eq_true_1 in H.
  rewrite !elem_of_cons, elem_of_nil in H.
  destruct H as [-> | [-> | []]]; by rewrite andb_false_r.
Qed.

Lemma timed_sum_from_stop interv acc c cmds :
  is_StartAO c = true → timed c = true →
  timed_sum_from interv acc (c :: cmds) = acc + duration c.
Proof.
  intros Hs Ht. unfold timed_sum_from. simpl. rewrite Hs, Ht. simpl.
  rewrite filter_cons_True by (by rewrite Ht, (is_StartAO_counted _ _ Hs)).
  rewrite filter_nil, fmap_cons, fmap_nil. unfold Zsum. cbn [foldr]. lia.
Qed.

Lemma timed_sum_from_skip interv acc c cmds :
  timed c && counted interv c = false →
  timed_sum_from interv acc (c :: cmds) = timed_sum_from interv acc cmds.
Proof.
  intros Hk. unfold timed_sum_from. simpl.
  destruct (is_StartAO c) eqn:Hs; simpl.
  { rewrite (is_StartAO_counted _ _ Hs), andb_true_r in Hk. rewrite Hk. simpl.
    destruct (upto_first _ cmds); simpl; [|done].
    rewrite filter_cons_False; [done|].
    by rewrite Hk, (is_StartAO_counted _ _ Hs). }
  destruct (upto_first _ cmds); simpl; [|done].
  rewrite filter_cons_False; [done | by rewrite Hk].
Qed.

Lemma timed_sum_from_add interv acc c cmds :
  is_StartAO c = false → timed c && counted interv c = true →
  timed_sum_from interv acc (c :: cmds)
  = timed_sum_from interv (acc + duration c) cmds.
Proof.
  intros Hs Hk. unfold timed_sum_from. simpl. rewrite Hs. simpl.
  destruct (upto_first _ cmds); simpl; [|done].
  rewrite filter_cons_True by done.
  rewrite fmap_cons. unfold Zsum. cbn [foldr]. lia.
Qed.

Lemma timed_Some c e s :
  cend c = Some e → cstart c = Some s →
  timed c = true ∧ duration c = e - s.
Proof.
  intros He Hs. unfold timed, duration. rewrite He, Hs.
  split; [|done]. apply bool_decide_eq_true_2. split; by eexists.
Qed.

Lemma timed_None c :
  cend c = None ∨ cstart c = None → timed c = false.
Proof.
  intros H. unfold timed. apply bool_decide_eq_false_2.
  intros [[e He] [s Hs]]. destruct H; congruence.
Qed.

Lemma ao_setup_loop_spec interv cmds : ∀ acc,
  ao_setup_loop interv acc cmds = timed_sum_from interv acc cmds.
Proof.
  induction cmds as [|c cmds IH]; intros acc; simpl; [done|].
  destruct (name_in c ["Acquire"; "Done"]) eqn:Hex.
  { rewrite IH, timed_sum_from_skip; [done|].
    unfold counted. by rewrite Hex, andb_false_r. }
  destruct (cend c) as [e|] eqn:He.
  2:{ rewrite IH, timed_sum_from_skip; [done|].
      rewrite timed_None; [done | by left]. }
  destruct (cstart c) as [s|] eqn:Hst.
  2:{ rewrite IH, timed_sum_from_skip; [done|].
      rewrite timed_None; [done | by right]. }
  destruct (timed_Some c e s He Hst) as [Ht Hd].
  destruct (interv && name_is c "AcquireRefAO") eqn:Hacq.
  { rewrite IH, timed_sum_from_skip; [done|].
    unfold counted. rewrite Hacq. by destruct (timed c), (name_in c _). }
  assert (timed c && counted interv c = true) as Hk.
  { unfold counted. by rewrite Ht, Hex, Hacq. }
  destruct (is_StartAO c) eqn:Hs.
  - by rewrite timed_sum_from_stop, Hd.
  - by rewrite IH, timed_sum_from_add, Hd.
Qed.

(** C4, amended.  [ao_setup_overhead()] is the sum of (end − start) over
    the sub-commands that have both times, up to and including the first
    StartAO that has both times, leaving out Acquire and Done, and
    AcquireRefAO exactly when an intervention command occurs anywhere in
    the list; it is 0 when no StartAO with both times is reached. *)
Theorem ao_setup_overhead_timed_sum (cmds : list ArbCmd) :
  ao_setup_overhead cmds = timed_ao_setup_overhead cmds.
Proof.
  unfold ao_setup_overhead, timed_ao_setup_overhead.
  rewrite ao_setup_loop_spec, is_intervention_has_intervention.
  unfold timed_sum_from. by destruct (upto_first _ cmds).
Qed.

(** C4, as stated, fails on an observation whose first StartAO has no end
    time: the code passes over it and stops at the next StartAO. *)
Lemma ao_setup_overhead_skips_untimed_StartAO :
  ao_setup_overhead two_StartAO = 5
  ∧ stated_ao_setup_overhead two_StartAO = 4
  ∧ ao_setup_overhead two_StartAO ≠ stated_ao_setup_overhead two_StartAO.
Proof. split; [reflexivity|]. split; [reflexivity | discriminate]. Qed.

(** ** [offsets_overhead] and the per-observation CSV writer *)

Lemma is_Resume_not_Pause c : is_Resume c = true → is_Pause c = false.
Proof.
  unfold is_Resume, is_Pause, name_in. intros H.
  apply bool_decide_eq_true_1 in H.
  rewrite !elem_of_cons, elem_of_nil in H.
  by destruct H as [-> | [-> | []]].
Qed.

Lemma offsets_overhead_step_unbound acc c :
  is_Pause c = false →
  offsets_overhead_step (mkOffsetsLocals None acc) c
  = if is_Resume c then Raise UnboundLocalError
    else Ok (mkOffsetsLocals None acc).
Proof. intros Hc. unfold offsets_overhead_step. by rewrite Hc. Qed.

Lemma offsets_overhead_loop_unbound pre r rest : ∀ acc,
  Forall (λ c, is_Pause c = false) pre → is_Resume r = true →
  foldM offsets_overhead_step (mkOffsetsLocals None acc) (pre ++ r :: rest)
  = Raise UnboundLocalError.
Proof.
  intros acc Hpre Hr. induction Hpre as [|c pre Hc _ IH]; cbn [app foldM].
  - by rewrite offsets_overhead_step_unbound, Hr
      by (by apply is_Resume_not_Pause).
  - rewrite offsets_overhead_step_unbound by done.
    destruct (is_Resume c); [done | exact IH].
Qed.

(** C9.  When a Resume (or ResumeAO) comes before any Pause (or PauseAO) in
    the sub-command list, [offsets_overhead()] raises UnboundLocalError, the
    read of [pause_time] before any assignment; the CSV writer's row for
    such an observation raises as well, and so does the writer's loop over
    any list of observations that contains it. *)
Theorem offsets_overhead_Resume_before_Pause
    (d : CmdData) (wfs mode : string) (mag : pyfloat)
    (pre rest : list ArbCmd) (r : ArbCmd) :
  Forall (λ c, is_Pause c = false) pre → is_Resume r = true →
  let obs := CompleteObs d wfs mode mag (pre ++ r :: rest) in
  offsets_overhead (pre ++ r :: rest) = Raise UnboundLocalError
  ∧ (∃ e, output_csv_row obs = Raise e)
  ∧ (∀ data before after,
       ∃ e, update_output_csv_rows data (before ++ obs :: after) = Raise e).
Proof.
  intros Hpre Hr obs.
  assert (offsets_overhead (pre ++ r :: rest) = Raise UnboundLocalError) as Ho.
  { unfold offsets_overhead.
    by rewrite (offsets_overhead_loop_unbound pre r rest 0 Hpre Hr). }
  assert (∃ e, output_csv_row obs = Raise e) as [e He].
  { unfold obs, output_csv_row, total_open_time. rewrite Ho.
    destruct (setup_duration d (pre ++ r :: rest)); simpl; by eexists. }
  split; [done|]. split; [by exists e|].
  intros data before after. unfold update_output_csv_rows.
  revert data.
  induction before as [|c before IH]; intros data; cbn [app foldM].
  - rewrite He. by eexists.
  - destruct (output_csv_row c); [apply IH | by eexists].
Qed.

(** ** [detectOffsets]: the end of the list, unknown success, [details] *)

(** C1, at a failing input.  The loop of [detectOffsets] visits the
    windows that start at the indices below [len(cmds)-2] and appends only
    the first command of each: the last two commands of the input are
    missing from the output. *)
Theorem detectOffsets_drops_last_two :
  detectOffsets three_plain = Ok (take 1 three_plain)
  ∧ ¬ sublist three_plain (take 1 three_plain).
Proof.
  split; [reflexivity|].
  intros H%sublist_length. simpl in H. lia.
Qed.

(** C5, at a failing input.  On five commands without Pause, Resume or
    OffsetXY no composite is created, but each application cuts two
    commands off the end, so the second application changes the result of
    the first. *)
Theorem detectOffsets_not_idempotent :
  Forall (λ c, cname c ∉ ["Pause"; "Resume"; "OffsetXY"]) five_plain
  ∧ detectOffsets five_plain = Ok (take 3 five_plain)
  ∧ detectOffsets (take 3 five_plain) = Ok (take 1 five_plain)
  ∧ (detectOffsets five_plain ≫= detectOffsets) ≠ detectOffsets five_plain.
Proof.
  split; [|split; [reflexivity | split; [reflexivity | discriminate]]].
  repeat constructor; by apply (bool_decide_unpack _).
Qed.

(** C6, at the scenario.  [detectOffsets] builds the one OffsetSequence the
    scenario describes, but its [details()] is empty, whatever the
    formatting: [len()] of the [map] object raises TypeError inside the
    [try], and the list is returned as it was. *)
Theorem scenario1_OffsetSequence_details_empty
    (py_format : string → list fmtarg → string) :
  ∃ seq,
    detectOffsets (scenario1 (Some true) (Some true) (Some true))
    = Ok [seq; Pause_100 (Some true)]
    ∧ cname seq = "OffsetSequence"
    ∧ cstart seq = Some 100 ∧ cend seq = Some 108
    ∧ csuccess seq = Some true
    ∧ findall_float 0 (cargs seq) = ["1.0"; "2.0"]
    ∧ details py_format seq = []
    ∧ details py_format seq ≠ ["X=1.00, Y=2.00 mm"].
Proof.
  eexists. split; [reflexivity|]. by repeat split.
Qed.

(** C7, at a failing input.  With three known success values the composite
    of the full window carries their conjunction; with an unknown one
    among them [reduce(operator.and_, ...)] raises TypeError and
    [detectOffsets] aborts, whereas the two-element form turns an unknown
    value into [False] with its [is True] test. *)
Theorem detectOffsets_window_and_unknown_success :
  (∀ b0 b1 b2 : bool, ∃ seq,
     detectOffsets (scenario1 (Some b0) (Some b1) (Some b2))
     = Ok [seq; Pause_100 (Some b0)]
     ∧ csuccess seq = Some (b0 && b1 && b2))
  ∧ (∀ s1 s2, detectOffsets (scenario1 None s1 s2) = Raise TypeError)
  ∧ (∀ s0 s2, detectOffsets (scenario1 s0 None s2) = Raise TypeError)
  ∧ (∀ s0 s1, detectOffsets (scenario1 s0 s1 None) = Raise TypeError)
  ∧ (∀ s1, ∃ seq,
       detectOffsets [Pause_100 None; OffsetXY_103 s1; Pause_100 None]
       = Ok [seq; Pause_100 None]
       ∧ csuccess seq = Some false).
Proof.
  split; [intros b0 b1 b2; eexists; split; reflexivity|].
  split; [by intros [[]|] [[]|]|].
  split; [by intros [[]|] [[]|]|].
  split; [by intros [[]|] [[]|]|].
  intros [[]|]; eexists; split; reflexivity.
Qed.

(** ** The deduplicating [search] against its description *)

Section SearchFacts.
Variable log_timestamp : string → res time.

Lemma search_step_dom mindiff st f now :
  log_timestamp f = Ok now →
  ∃ st', search_step log_timestamp mindiff st f = Ok st'
    ∧ prev st' = now
    ∧ dom (found2 st')
      = if accepts mindiff (prev st) now
        then {[now]} ∪ dom (found2 st) else dom (found2 st).
Proof.
  intros Hts. unfold search_step. rewrite Hts. simpl.
  eexists. split; [done|]. split; [done|]. simpl.
  destruct (accepts mindiff (prev st) now); [|done].
  destruct (found2 st !! now) as [v|] eqn:Hv.
  - assert (now ∈ dom (found2 st)) as Hin by (apply elem_of_dom; eauto).
    destruct (split_on "|" f !! 4%nat) as [fld|]; [|set_solver].
    destruct (continuation fld); [|set_solver].
    rewrite dom_insert_L. set_solver.
  - by rewrite dom_insert_L.
Qed.

Lemma search_loop_dom mindiff found ts :
  Forall2 (λ f t, log_timestamp f = Ok t) found ts → ∀ st,
  ∃ st', foldM (search_step log_timestamp mindiff) st found = Ok st'
    ∧ dom (found2 st')
      = list_to_set (accepted_after_previous_line mindiff (prev st) ts)
        ∪ dom (found2 st).
Proof.
  induction 1 as [|f t found ts Hf _ IH]; intros st; simpl.
  - exists st. split; [done | set_solver].
  - destruct (search_step_dom mindiff st f t Hf) as (st1 & -> & Hp & Hd).
    simpl. destruct (IH st1) as (st' & -> & Hd').
    exists st'. split; [done|]. rewrite Hd', Hd, Hp.
    destruct (accepts mindiff (prev st) t); set_solver.
Qed.
End SearchFacts.

Lemma accepted_after_previous_line_subseteq mindiff prev ts x :
  x ∈ accepted_after_previous_line mindiff prev ts → x ∈ ts.
Proof.
  revert prev. induction ts as [|t ts IH]; intros prev; simpl; [done|].
  destruct (accepts mindiff prev t); rewrite ?elem_of_cons; naive_solver.
Qed.

Lemma accepted_gap_from_earlier mindiff ts : ∀ prev x y,
  StronglySorted Z.le (prev :: ts) →
  x ∈ accepted_after_previous_line mindiff prev ts →
  y ≤ prev → mindiff ≤ x - y.
Proof.
  induction ts as [|t ts IH]; intros prev x y Hs Hx Hy; simpl in Hx.
  { by apply elem_of_nil in Hx. }
  apply StronglySorted_inv in Hs as [Hs Hall].
  apply Forall_cons in Hall as [Hpt _].
  assert (x = t ∧ mindiff ≤ t - prev
          ∨ x ∈ accepted_after_previous_line mindiff t ts) as [[-> Hacc] | Hin].
  { unfold accepts in Hx. case_bool_decide; [|by right].
    apply elem_of_cons in Hx as [-> | Hx]; [by left | by right]. }
  - lia.
  - apply (IH t x y Hs Hin). lia.
Qed.

Lemma accepted_pairwise_gap mindiff ts : ∀ prev t1 t2,
  StronglySorted Z.le ts →
  t1 ∈ accepted_after_previous_line mindiff prev ts →
  t2 ∈ accepted_after_previous_line mindiff prev ts →
  t1 < t2 → mindiff ≤ t2 - t1.
Proof.
  induction ts as [|t ts IH]; intros prev t1 t2 Hs H1 H2 Hlt; simpl in *.
  { by apply elem_of_nil in H1. }
  pose proof Hs as Hs'.
  apply StronglySorted_inv in Hs as [Hs Hall].
  assert (∀ x, x ∈ (if accepts mindiff prev t
                     then t :: accepted_after_previous_line mindiff t ts
                     else accepted_after_previous_line mindiff t ts) →
               x = t ∨ x ∈ accepted_after_previous_line mindiff t ts) as Hc.
  { intros x. destruct (accepts mindiff prev t); rewrite ?elem_of_cons; tauto. }
  apply Hc in H1, H2.
  assert (∀ x, x ∈ accepted_after_previous_line mindiff t ts → t ≤ x) as Hge.
  { intros x Hx%accepted_after_previous_line_subseteq.
    by apply (proj1 (Forall_forall _ _) Hall). }
  destruct H2 as [-> | H2].
  - destruct H1 as [-> | H1]; [lia|]. apply Hge in H1. lia.
  - destruct H1 as [-> | H1].
    + by apply (accepted_gap_from_earlier mindiff ts t t2 t).
    + by apply (IH t t1 t2).
Qed.

(** C3, amended.  When every line has a timestamp, the search returns, and
    the timestamps it keeps are exactly those of the lines that come at
    least [mindiff] after the line just before them (0 before the first
    line), whether that line was accepted or not.  When the timestamps of
    the stream do not decrease, any two different timestamps it keeps are
    at least [mindiff] apart. *)
Theorem search_accepts_after_previous_line
    (log_timestamp : string → res time) (found : list string)
    (ts : list time) (mindiff : time) :
  Forall2 (λ f t, log_timestamp f = Ok t) found ts →
  ∃ found2,
    search_dict log_timestamp found mindiff = Ok found2
    ∧ (∀ t, t ∈ dom found2
            ↔ t ∈ accepted_after_previous_line mindiff 0 ts)
    ∧ (Sorted Z.le ts →
       ∀ t1 t2, t1 ∈ dom found2 → t2 ∈ dom found2 → t1 < t2 →
         mindiff ≤ t2 - t1).
Proof.
  intros Hts. unfold search_dict.
  destruct (search_loop_dom log_timestamp mindiff found ts Hts
              (mkSearchState 0 ∅)) as (st' & -> & Hd).
  simpl in *. exists (found2 st'). split; [done|].
  assert (∀ t, t ∈ dom (found2 st')
               ↔ t ∈ accepted_after_previous_line mindiff 0 ts) as Hiff.
  { intros t. rewrite Hd. set_solver. }
  split; [done|]. intros Hsorted t1 t2 H1 H2 Hlt.
  apply Hiff in H1, H2.
  apply (accepted_pairwise_gap mindiff ts 0 t1 t2); try done.
  apply Sorted_StronglySorted; [|done]. intros x y z. lia.
Qed.

(** C3, as stated, fails.  In a burst whose lines are 100 apart, with
    [mindiff = 120], the third line is 200 after the only accepted line and
    is still rejected; and in a stream that steps back in time two
    timestamps only 50 apart are both kept. *)
Lemma search_compares_with_previous_line :
  (∃ found2,
     search_dict seconds_timestamp burst_lines 120 = Ok found2
     ∧ 1200 ∈ stated_accepted 120 None [1000; 1100; 1200]
     ∧ 1200 ∉ dom found2)
  ∧ (∃ found2,
       search_dict seconds_timestamp unordered_lines 120 = Ok found2
       ∧ 1000 ∈ dom found2 ∧ 1050 ∈ dom found2).
Proof.
  split.
  - eexists. split; [vm_compute; reflexivity|].
    split; [by apply (bool_decide_unpack _)|].
    by apply (bool_decide_unpack _).
  - eexists. split; [vm_compute; reflexivity|].
    split; by apply (bool_decide_unpack _).
Qed.

(** ** The theorems at concrete inputs *)

(** The observation with a repeated StartAO: its composite is not an
    input command, so it has the emitted shape. *)
Lemma detectCompleteObs_emitted_shape_witness :
  detectCompleteObs two_StartAO = Ok two_StartAO_output
  ∧ two_StartAO_obs ∈ two_StartAO_output
  ∧ (two_StartAO_obs ∈ two_StartAO ∨ emitted_obs two_StartAO_obs).
Proof.
  assert (detectCompleteObs two_StartAO = Ok two_StartAO_output) as H
    by reflexivity.
  assert (two_StartAO_obs ∈ two_StartAO_output) as Hin
    by (do 3 apply list_elem_of_further; apply list_elem_of_here).
  split; [exact H|]. split; [exact Hin|].
  exact (detectCompleteObs_emitted_shape two_StartAO two_StartAO_output H
           two_StartAO_obs Hin).
Defined.

(** A PresetAO at the origin goes through the detector unchanged. *)
Lemma zero_PresetAO_opens_no_CompleteObs_witness :
  cname zero_preset = "PresetAO"
  ∧ preset_fields (cargs zero_preset) = Ok zero_preset_attrs
  ∧ float_is_zero (p_refX zero_preset_attrs) = true
  ∧ float_is_zero (p_refY zero_preset_attrs) = true
  ∧ is_instrument_preset zero_preset = Ok false
  ∧ detectCompleteObs [zero_preset] = Ok [zero_preset].
Proof.
  assert (cname zero_preset = "PresetAO") as H1 by reflexivity.
  assert (preset_fields (cargs zero_preset) = Ok zero_preset_attrs) as H2
    by (vm_compute; reflexivity).
  assert (float_is_zero (p_refX zero_preset_attrs) = true) as H3
    by (vm_compute; reflexivity).
  assert (float_is_zero (p_refY zero_preset_attrs) = true) as H4
    by (vm_compute; reflexivity).
  destruct (zero_PresetAO_opens_no_CompleteObs zero_preset zero_preset_attrs
              H1 H2 H3 H4) as (Hi & Hstep & _).
  repeat (split; [assumption|]).
  unfold detectCompleteObs. cbn [foldM]. rewrite Hstep. reflexivity.
Defined.

(** An observation that resumes before it ever paused. *)
Lemma offsets_overhead_Resume_before_Pause_witness :
  Forall (λ c, is_Pause c = false) resume_first
  ∧ is_Resume (Resume_106 (Some true)) = true
  ∧ offsets_overhead
      (resume_first ++ Resume_106 (Some true) :: [Pause_100 (Some true)])
    = Raise UnboundLocalError.
Proof.
  assert (Forall (λ c, is_Pause c = false) resume_first) as H1
    by (repeat constructor).
  assert (is_Resume (Resume_106 (Some true)) = true) as H2 by reflexivity.
  split; [exact H1|]. split; [exact H2|].
  exact (proj1 (offsets_overhead_Resume_before_Pause obs_data "FLAO" "ACE_AO"
                  (mkFloat false 105 1) resume_first
                  [Pause_100 (Some true)] (Resume_106 (Some true)) H1 H2)).
Defined.

(** An ordered stream: the first and the third line are kept, 300 apart. *)
Lemma search_accepts_after_previous_line_witness :
  Forall2 (λ f t, seconds_timestamp f = Ok t) ordered_lines [1000; 1100; 1300]
  ∧ Sorted Z.le [1000; 1100; 1300]
  ∧ ∃ found2,
      search_dict seconds_timestamp ordered_lines 120 = Ok found2
      ∧ 1000 ∈ dom found2 ∧ 1300 ∈ dom found2 ∧ 120 ≤ 1300 - 1000.
Proof.
  assert (Forall2 (λ f t, seconds_timestamp f = Ok t) ordered_lines
            [1000; 1100; 1300]) as H1 by (repeat constructor).
  assert (Sorted Z.le [1000; 1100; 1300]) as H2
    by (repeat constructor; lia).
  split; [exact H1|]. split; [exact H2|].
  destruct (search_accepts_after_previous_line seconds_timestamp ordered_lines
              [1000; 1100; 1300] 120 H1) as (found2 & Hs & Hiff & Hgap).
  assert (1000 ∈ dom found2) as Ha
    by (apply Hiff; apply (bool_decide_unpack _); reflexivity).
  assert (1300 ∈ dom found2) as Hb
    by (apply Hiff; apply (bool_decide_unpack _); reflexivity).
  exists found2. split; [exact Hs|]. split; [exact Ha|]. split; [exact Hb|].
  apply (Hgap H2 1000 1300 Ha Hb). lia.
Defined.

(** * Further properties of the code *)

(** ** [offsets_overhead] and [setup_duration] *)

Lemma offsets_overhead_step_no_Resume st c :
  is_Resume c = false →
  ∃ pt, offsets_overhead_step st c = Ok (mkOffsetsLocals pt (offsets_time st)).
Proof. intros Hr. unfold offsets_overhead_step. rewrite Hr. by eexists. Qed.

Lemma offsets_overhead_loop_no_Resume cmds : ∀ st,
  Forall (λ c, is_Resume c = false) cmds →
  ∃ pt, foldM offsets_overhead_step st cmds
        = Ok (mkOffsetsLocals pt (offsets_time st)).
Proof.
  induction cmds as [|c cmds IH]; intros st Hall; cbn [foldM].
  - exists (pause_time st). by destruct st.
  - apply Forall_cons in Hall as [Hc Hall].
    destruct (offsets_overhead_step_no_Resume st c Hc) as [pt ->].
    exact (IH _ Hall).
Qed.

(** X1.  Without a Resume (or ResumeAO) among the sub-commands
    [offsets_overhead()] returns 0: a Pause that is never resumed costs
    nothing, and nothing is raised. *)
Theorem offsets_overhead_without_Resume (cmds : list ArbCmd) :
  Forall (λ c, is_Resume c = false) cmds → offsets_overhead cmds = Ok 0.
Proof.
  intros Hall. unfold offsets_overhead.
  by destruct (offsets_overhead_loop_no_Resume cmds
                 (mkOffsetsLocals None 0) Hall) as [pt ->].
Qed.

Lemma is_Pause_not_Resume c : is_Pause c = true → is_Resume c = false.
Proof.
  unfold is_Resume, is_Pause, name_in. intros H.
  apply bool_decide_eq_true_1 in H.
  rewrite !elem_of_cons, elem_of_nil in H.
  by destruct H as [-> | [-> | []]].
Qed.

Lemma offsets_overhead_step_plain st c :
  no_offset_command c → offsets_overhead_step st c = Ok st.
Proof.
  intros [Hp Hr]. unfold offsets_overhead_step. rewrite Hp, Hr.
  by destruct st.
Qed.

Lemma offsets_overhead_loop_plain cmds : ∀ st,
  Forall no_offset_command cmds →
  foldM offsets_overhead_step st cmds = Ok st.
Proof.
  induction cmds as [|c cmds IH]; intros st Hall; cbn [foldM]; [done|].
  apply Forall_cons in Hall as [Hc Hall].
  rewrite offsets_overhead_step_plain by done. exact (IH _ Hall).
Qed.

Lemma offsets_overhead_step_Pause st p :
  is_Pause p = true →
  offsets_overhead_step st p
  = Ok (mkOffsetsLocals (Some (cstart p)) (offsets_time st)).
Proof.
  intros Hp. unfold offsets_overhead_step.
  by rewrite Hp, (is_Pause_not_Resume _ Hp).
Qed.

Lemma offsets_overhead_step_shift x st c :
  offsets_overhead_step (offsets_shift x st) c
  = res_map (offsets_shift x) (offsets_overhead_step st c).
Proof.
  unfold offsets_overhead_step, offsets_shift. cbn [pause_time offsets_time].
  destruct (is_Resume c); [|done].
  destruct (if is_Pause c then Some (cstart c) else pause_time st)
    as [p|]; [|done].
  destruct (py_sub (cend c) p) as [dt|]; [|done].
  cbn. do 2 f_equal. lia.
Qed.

Lemma offsets_overhead_loop_shift x cmds : ∀ st,
  foldM offsets_overhead_step (offsets_shift x st) cmds
  = res_map (offsets_shift x) (foldM offsets_overhead_step st cmds).
Proof.
  induction cmds as [|c cmds IH]; intros st; cbn [foldM]; [done|].
  rewrite offsets_overhead_step_shift.
  destruct (offsets_overhead_step st c) as [st1|e]; [apply IH | done].
Qed.

(** X2.  The overhead of a list that goes on with a new Pause is the sum of
    the two parts: when the first part has overhead [t1] and the second
    part meets a Pause before any Resume, the whole list gives [t1] plus
    the overhead of the second part, and raises where the second part
    raises. *)
Theorem offsets_overhead_app (l1 a b : list ArbCmd) (p : ArbCmd) (t1 : time) :
  offsets_overhead l1 = Ok t1 →
  Forall no_offset_command a → is_Pause p = true →
  offsets_overhead (l1 ++ a ++ p :: b)
  = res_map (Z.add t1) (offsets_overhead (a ++ p :: b)).
Proof.
  intros H1 Ha Hp. unfold offsets_overhead in *.
  apply bind_Ok in H1 as (st1 & Hrun1 & [= <-]).
  rewrite (foldM_app _ _ l1), Hrun1. cbn [mbind res_bind].
  rewrite !(foldM_app _ _ a), !(offsets_overhead_loop_plain a) by done.
  cbn [mbind res_bind foldM].
  rewrite !offsets_overhead_step_Pause by done.
  cbn [mbind res_bind offsets_time].
  replace (mkOffsetsLocals (Some (cstart p)) (offsets_time st1))
    with (offsets_shift (offsets_time st1)
            (mkOffsetsLocals (Some (cstart p)) 0))
    by (unfold offsets_shift; cbn; f_equal; lia).
  rewrite offsets_overhead_loop_shift.
  by destruct (foldM offsets_overhead_step _ b) as [st2|e].
Qed.

Lemma offsets_overhead_step_Resume st r :
  is_Resume r = true →
  offsets_overhead_step st r
  = match pause_time st with
    | None => Raise UnboundLocalError
    | Some p =>
        dt ← py_sub (cend r) p;
        Ok (mkOffsetsLocals (Some p) (offsets_time st + dt))
    end.
Proof.
  intros Hr. unfold offsets_overhead_step.
  rewrite (is_Resume_not_Pause _ Hr), Hr. by destruct (pause_time st).
Qed.

(** X3.  One Pause that is resumed once, with no other Pause or Resume
    around: the overhead is the end of the Resume minus the start of the
    Pause, and TypeError when one of the two times is unset. *)
Theorem offsets_overhead_one_bracket (a b c : list ArbCmd) (p r : ArbCmd) :
  Forall no_offset_command a → Forall no_offset_command b →
  Forall no_offset_command c → is_Pause p = true → is_Resume r = true →
  offsets_overhead (a ++ p :: b ++ r :: c) = py_sub (cend r) (cstart p).
Proof.
  intros Ha Hb Hc Hp Hr. unfold offsets_overhead.
  rewrite foldM_app, offsets_overhead_loop_plain by done.
  cbn [mbind res_bind foldM].
  rewrite offsets_overhead_step_Pause by done. cbn [mbind res_bind].
  rewrite foldM_app, offsets_overhead_loop_plain by done.
  cbn [mbind res_bind foldM].
  rewrite offsets_overhead_step_Resume by done.
  cbn [pause_time offsets_time].
  destruct (py_sub (cend r) (cstart p)) as [dt|e]; [|done].
  cbn [mbind res_bind]. rewrite offsets_overhead_loop_plain by done.
  reflexivity.
Qed.

Lemma filter_StartAO_none pre :
  Forall (λ c, is_StartAO c = false) pre →
  filter (λ x, is_StartAO x = true) pre = [].
Proof.
  induction 1 as [|c pre Hc _ IH]; [done|].
  rewrite filter_cons_False by (by rewrite Hc). exact IH.
Qed.

Lemma setup_duration_at_first (d : CmdData)
    (pre rest : list ArbCmd) (s : ArbCmd) :
  Forall (λ c, is_StartAO c = false) pre → is_StartAO s = true →
  setup_duration d (pre ++ s :: rest) = py_sub (cend s) (start_time d).
Proof.
  intros Hpre Hs. unfold setup_duration.
  rewrite filter_app, (filter_StartAO_none pre Hpre).
  by rewrite filter_cons_True by done.
Qed.

(** X4.  [setup_duration()] is taken at the first StartAO (or Start AO) of
    the sub-commands: its end time minus the start time of the
    observation, whatever follows it, and TypeError when one of the two
    times is unset. *)
Theorem setup_duration_first_StartAO (d : CmdData)
    (pre rest : list ArbCmd) (s : ArbCmd) :
  Forall (λ c, is_StartAO c = false) pre → is_StartAO s = true →
  setup_duration d (pre ++ s :: rest) = py_sub (cend s) (start_time d).
Proof.
  intros Hpre Hs. unfold setup_duration.
  rewrite filter_app, (filter_StartAO_none pre Hpre).
  by rewrite filter_cons_True by done.
Qed.

Lemma first_StartAO_split cmds :
  Forall (λ c, is_StartAO c = false) cmds
  ∨ ∃ pre s rest, cmds = pre ++ s :: rest
      ∧ Forall (λ c, is_StartAO c = false) pre ∧ is_StartAO s = true.
Proof.
  induction cmds as [|c cmds IH]; [by left|].
  destruct (is_StartAO c) eqn:Hc.
  { right. by exists [], c, cmds. }
  destruct IH as [Hall | (pre & s & rest & -> & Hpre & Hs)].
  - left. by constructor.
  - right. exists (c :: pre), s, rest. repeat split; [|done]. by constructor.
Qed.

(** X5.  [setup_duration()] raises IndexError exactly when no sub-command
    is named StartAO or Start AO. *)
Theorem setup_duration_IndexError_iff (d : CmdData) (cmds : list ArbCmd) :
  setup_duration d cmds = Raise IndexError
  ↔ Forall (λ c, is_StartAO c = false) cmds.
Proof.
  split.
  - intros H.
    destruct (first_StartAO_split cmds)
      as [Hall | (pre & s & rest & -> & Hpre & Hs)]; [done|].
    rewrite (setup_duration_at_first d pre rest s Hpre Hs) in H.
    unfold py_sub in H. by destruct (cend s), (start_time d).
  - intros Hall. unfold setup_duration.
    by rewrite (filter_StartAO_none cmds Hall).
Qed.

(** An unfinished offset at the end of an observation. *)
Lemma offsets_overhead_without_Resume_witness :
  Forall (λ c, is_Resume c = false) (bracket_before ++ [Pause_100 (Some true)])
  ∧ offsets_overhead (bracket_before ++ [Pause_100 (Some true)]) = Ok 0.
Proof.
  assert (Forall (λ c, is_Resume c = false)
            (bracket_before ++ [Pause_100 (Some true)])) as H
    by (repeat constructor).
  split; [exact H|].
  exact (offsets_overhead_without_Resume _ H).
Defined.

(** One offset from 100 to 108, then a second one. *)
Lemma offsets_overhead_one_bracket_witness :
  Forall no_offset_command bracket_before
  ∧ Forall no_offset_command bracket_between
  ∧ Forall no_offset_command bracket_after
  ∧ is_Pause (Pause_100 (Some true)) = true
  ∧ is_Resume (Resume_106 (Some true)) = true
  ∧ offsets_overhead
      (bracket_before ++ Pause_100 (Some true)
         :: bracket_between ++ Resume_106 (Some true) :: bracket_after)
    = Ok 8.
Proof.
  assert (Forall no_offset_command bracket_before) as H1
    by (repeat constructor).
  assert (Forall no_offset_command bracket_between) as H2
    by (repeat constructor).
  assert (Forall no_offset_command bracket_after) as H3
    by (repeat constructor).
  assert (is_Pause (Pause_100 (Some true)) = true) as H4 by reflexivity.
  assert (is_Resume (Resume_106 (Some true)) = true) as H5 by reflexivity.
  repeat (split; [assumption|]).
  exact (offsets_overhead_one_bracket _ _ _ _ _ H1 H2 H3 H4 H5).
Defined.

Lemma offsets_overhead_app_witness :
  offsets_overhead
    (bracket_before ++ Pause_100 (Some true)
       :: bracket_between ++ Resume_106 (Some true) :: bracket_after) = Ok 8
  ∧ Forall no_offset_command bracket_between
  ∧ is_Pause (Pause_100 (Some true)) = true
  ∧ offsets_overhead
      ((bracket_before ++ Pause_100 (Some true)
          :: bracket_between ++ Resume_106 (Some true) :: bracket_after)
       ++ bracket_between ++ Pause_100 (Some true)
       :: [Resume_106 (Some true)])
    = Ok 16.
Proof.
  assert (offsets_overhead
            (bracket_before ++ Pause_100 (Some true)
               :: bracket_between ++ Resume_106 (Some true) :: bracket_after)
          = Ok 8) as H1 by reflexivity.
  assert (Forall no_offset_command bracket_between) as H2
    by (repeat constructor).
  assert (is_Pause (Pause_100 (Some true)) = true) as H3 by reflexivity.
  repeat (split; [assumption|]).
  exact (offsets_overhead_app _ _ [Resume_106 (Some true)] _ _ H1 H2 H3).
Defined.

Lemma setup_duration_first_StartAO_witness :
  Forall (λ c, is_StartAO c = false) (take 1 bracket_before)
  ∧ is_StartAO (atomic "StartAO" "" (Some 6) (Some 7) (Some true)) = true
  ∧ setup_duration obs_data (bracket_before ++ bracket_after) = Ok 6.
Proof.
  assert (Forall (λ c, is_StartAO c = false) (take 1 bracket_before)) as H1
    by (repeat constructor).
  assert (is_StartAO (atomic "StartAO" "" (Some 6) (Some 7) (Some true))
          = true) as H2 by reflexivity.
  repeat (split; [assumption|]).
  exact (setup_duration_first_StartAO obs_data _ bracket_after _ H1 H2).
Defined.

(** ** [detectCompleteObs]: what it does with an observation *)

Lemma not_instrument_is_preset c :
  not_instrument c →
  (if name_is c "PresetAO" then is_instrument_preset c else Ok false)
  = Ok false.
Proof. intros H. by destruct (name_is c "PresetAO"). Qed.

Lemma instrument_is_preset c :
  is_instrument_preset c = Ok true →
  name_is c "PresetAO" = true ∧ is_Some (preset_attrs c).
Proof.
  unfold is_instrument_preset.
  destruct (name_is c "PresetAO"); [|discriminate].
  destruct (preset_attrs c); [by eauto | discriminate].
Qed.

Lemma is_StartAO_not_instrument c : is_StartAO c = true → not_instrument c.
Proof.
  unfold is_StartAO, not_instrument, is_instrument_preset, name_in, name_is.
  intros H. apply bool_decide_eq_true_1 in H.
  rewrite !elem_of_cons, elem_of_nil in H.
  by destruct H as [-> | [-> | []]].
Qed.

Lemma is_Stop_not_instrument c : is_Stop c = true → not_instrument c.
Proof.
  unfold is_Stop, not_instrument, is_instrument_preset, name_in, name_is.
  intros H. apply bool_decide_eq_true_1 in H.
  rewrite !elem_of_cons, elem_of_nil in H.
  by destruct H as [-> | [-> | []]].
Qed.

Lemma is_StartAO_not_Cancel c : is_StartAO c = true → name_is c "Cancel" = false.
Proof.
  unfold is_StartAO, name_in, name_is.
  intros H. apply bool_decide_eq_true_1 in H.
  rewrite !elem_of_cons, elem_of_nil in H.
  by destruct H as [-> | [-> | []]].
Qed.

Lemma detectCompleteObs_step_outside oc n c :
  not_instrument c →
  detectCompleteObs_step (mkObsState false false oc n) c
  = Ok (mkObsState false false oc (n ++ [c])).
Proof.
  intros H. unfold detectCompleteObs_step.
  by rewrite (not_instrument_is_preset c H).
Qed.

Lemma detectCompleteObs_loop_outside cmds : ∀ oc n,
  Forall not_instrument cmds →
  foldM detectCompleteObs_step (mkObsState false false oc n) cmds
  = Ok (mkObsState false false oc (n ++ cmds)).
Proof.
  induction cmds as [|c cmds IH]; intros oc n Hall; cbn [foldM].
  - by rewrite app_nil_r.
  - apply Forall_cons in Hall as [Hc Hall].
    rewrite detectCompleteObs_step_outside by done. cbn [mbind res_bind].
    rewrite IH by done. by rewrite <- app_assoc.
Qed.

(** X6.  A list without an instrument preset (no PresetAO, or only
    PresetAO commands at the origin) goes through [detectCompleteObs]
    unchanged: it returns its input. *)
Theorem detectCompleteObs_without_instrument_preset (cmds : list ArbCmd) :
  Forall not_instrument cmds → detectCompleteObs cmds = Ok cmds.
Proof.
  intros Hall. unfold detectCompleteObs.
  by rewrite detectCompleteObs_loop_outside.
Qed.

Lemma detectCompleteObs_step_instrument st p a :
  is_instrument_preset p = Ok true → preset_attrs p = Some a →
  detectCompleteObs_step st p
  = Ok (mkObsState false true
          (Some (mkObsCmd
             (new_ArbCmd "CompleteObs" "" (cstart p) None None "")
             (p_wfs a) (p_mode a) (p_mag a) [p]))
          (obs_newCmds st ++ [p])).
Proof.
  intros Hp Ha. unfold detectCompleteObs_step.
  destruct (instrument_is_preset p Hp) as [-> _].
  by rewrite Hp, Ha.
Qed.

Lemma detectCompleteObs_step_preset_stays o n c :
  stays_in_preset c →
  detectCompleteObs_step (mkObsState false true (Some o) n) c
  = Ok (mkObsState false true (Some (obs_append o c)) (n ++ [c])).
Proof.
  intros (Hc & Hs & Hk). unfold detectCompleteObs_step.
  rewrite (not_instrument_is_preset c Hc). cbn. by rewrite Hk, Hs.
Qed.

Lemma detectCompleteObs_step_obs_stays o n c :
  stays_in_obs c →
  detectCompleteObs_step (mkObsState true false (Some o) n) c
  = Ok (mkObsState true false (Some (obs_append o c)) (n ++ [c])).
Proof.
  intros (Hc & Hs). unfold detectCompleteObs_step.
  rewrite (not_instrument_is_preset c Hc). cbn. by rewrite Hs.
Qed.

Lemma detectCompleteObs_loop_preset pre : ∀ o n,
  Forall stays_in_preset pre →
  foldM detectCompleteObs_step (mkObsState false true (Some o) n) pre
  = Ok (mkObsState false true
          (Some (mkObsCmd (o_data o) (o_wfs o) (o_mode o) (o_mag o)
                   (o_cmds o ++ pre)))
          (n ++ pre)).
Proof.
  induction pre as [|c pre IH]; intros o n Hall; cbn [foldM].
  - rewrite !app_nil_r. by destruct o.
  - apply Forall_cons in Hall as [Hc Hall].
    rewrite detectCompleteObs_step_preset_stays by done.
    cbn [mbind res_bind]. rewrite IH by done. cbn.
    by rewrite <- !app_assoc.
Qed.

Lemma detectCompleteObs_step_StartAO o n s :
  is_StartAO s = true →
  detectCompleteObs_step (mkObsState false true (Some o) n) s
  = Ok (mkObsState true false (Some (obs_append o s)) (n ++ [s])).
Proof.
  intros Hs. unfold detectCompleteObs_step.
  rewrite (not_instrument_is_preset s (is_StartAO_not_instrument s Hs)).
  cbn. by rewrite (is_StartAO_not_Cancel s Hs), Hs.
Qed.

Lemma detectCompleteObs_loop_obs mid : ∀ o n,
  Forall stays_in_obs mid →
  foldM detectCompleteObs_step (mkObsState true false (Some o) n) mid
  = Ok (mkObsState true false
          (Some (mkObsCmd (o_data o) (o_wfs o) (o_mode o) (o_mag o)
                   (o_cmds o ++ mid)))
          (n ++ mid)).
Proof.
  induction mid as [|c mid IH]; intros o n Hall; cbn [foldM].
  - rewrite !app_nil_r. by destruct o.
  - apply Forall_cons in Hall as [Hc Hall].
    rewrite detectCompleteObs_step_obs_stays by done.
    cbn [mbind res_bind]. rewrite IH by done. cbn.
    by rewrite <- !app_assoc.
Qed.

Lemma detectCompleteObs_step_Stop o n e :
  is_Stop e = true →
  detectCompleteObs_step (mkObsState true false (Some o) n) e
  = Ok (mkObsState false false (Some (obs_close (obs_append o e) e))
          (n ++ [obs_object (obs_close (obs_append o e) e); e])).
Proof.
  intros He. unfold detectCompleteObs_step.
  rewrite (not_instrument_is_preset e (is_Stop_not_instrument e He)).
  cbn. rewrite He. cbn. by rewrite <- app_assoc.
Qed.

Lemma detectCompleteObs_step_Cancel o n c :
  cname c = "Cancel" →
  detectCompleteObs_step (mkObsState false true (Some o) n) c
  = Ok (mkObsState false false (Some o) (n ++ [c])).
Proof.
  intros Hc. unfold detectCompleteObs_step, is_instrument_preset, name_is.
  rewrite Hc. done.
Qed.

Lemma detectCompleteObs_step_prepend l st c :
  detectCompleteObs_step (obs_prepend l st) c
  = res_map (obs_prepend l) (detectCompleteObs_step st c).
Proof.
  destruct st as [io ip oc n]. unfold detectCompleteObs_step, obs_prepend.
  cbn [inObs inPreset obsCmd obs_newCmds].
  destruct (if name_is c "PresetAO" then is_instrument_preset c else Ok false)
    as [[]|]; cbn [mbind res_bind]; [| |done].
  - destruct (preset_attrs c); cbn; [by rewrite <- app_assoc | done].
  - destruct ip, io, (name_is c "Cancel"), oc as [o|];
      cbn; rewrite <- ?app_assoc; try done;
      destruct (is_Stop c), (is_StartAO c); cbn; by rewrite <- ?app_assoc.
Qed.

Lemma detectCompleteObs_loop_prepend l cmds : ∀ st,
  foldM detectCompleteObs_step (obs_prepend l st) cmds
  = res_map (obs_prepend l) (foldM detectCompleteObs_step st cmds).
Proof.
  induction cmds as [|c cmds IH]; intros st; cbn [foldM]; [done|].
  rewrite detectCompleteObs_step_prepend.
  destruct (detectCompleteObs_step st c) as [st1|e]; [apply IH | done].
Qed.

Lemma detectCompleteObs_step_outside_cases c :
  (∃ e, ∀ oc' n', detectCompleteObs_step (mkObsState false false oc' n') c
                  = Raise e)
  ∨ (∃ o, ∀ oc' n', detectCompleteObs_step (mkObsState false false oc' n') c
                    = Ok (mkObsState false true (Some o) (n' ++ [c])))
  ∨ (∀ oc' n', detectCompleteObs_step (mkObsState false false oc' n') c
               = Ok (mkObsState false false oc' (n' ++ [c]))).
Proof.
  unfold detectCompleteObs_step. cbn [inObs inPreset obsCmd obs_newCmds andb].
  destruct (if name_is c "PresetAO" then is_instrument_preset c else Ok false)
    as [[]|e]; cbn [mbind res_bind].
  - destruct (preset_attrs c) as [a|]; cbn [mbind res_bind].
    + right. left. by eexists.
    + left. by eexists.
  - right. by right.
  - left. by eexists.
Qed.

(** Outside an observation the composite of an earlier one is dead: the
    run goes on as a fresh run. *)
Lemma detectCompleteObs_loop_fresh cmds : ∀ oc n,
  res_map obs_newCmds
    (foldM detectCompleteObs_step (mkObsState false false oc n) cmds)
  = res_map (app n) (detectCompleteObs cmds).
Proof.
  unfold detectCompleteObs.
  induction cmds as [|c cmds IH]; intros oc n; cbn [foldM].
  - cbn. by rewrite app_nil_r.
  - destruct (detectCompleteObs_step_outside_cases c)
      as [[e H] | [[o H] | H]]; rewrite !H; cbn [mbind res_bind]; [done| |].
    + change (mkObsState false true (Some o) (n ++ [c]))
        with (obs_prepend n (mkObsState false true (Some o) ([] ++ [c]))).
      rewrite detectCompleteObs_loop_prepend. cbn [app].
      destruct (foldM detectCompleteObs_step
                  (mkObsState false true (Some o) [c]) cmds) as [s|e].
      all: reflexivity.
    + pose proof (IH oc (n ++ [c])) as H1.
      pose proof (IH None [c]) as H2. cbn [app].
      destruct (foldM detectCompleteObs_step
                  (mkObsState false false oc (n ++ [c])) cmds) as [s1|e1],
        (foldM detectCompleteObs_step
           (mkObsState false false None [c]) cmds) as [s2|e2],
        (foldM detectCompleteObs_step
           (mkObsState false false None []) cmds) as [s3|e3];
        cbn in *; try congruence.
      injection H1 as ->. injection H2 as ->. by rewrite <- app_assoc.
Qed.

Lemma detectCompleteObs_loop_fresh_output cmds oc n :
  (foldM detectCompleteObs_step (mkObsState false false oc n) cmds
   ≫= λ st, Ok (obs_newCmds st))
  = res_map (app n) (detectCompleteObs cmds).
Proof.
  rewrite <- (detectCompleteObs_loop_fresh cmds oc n).
  by destruct (foldM detectCompleteObs_step _ cmds).
Qed.

(** X7.  A complete observation.  Outside an observation, an instrument
    preset [p], commands that the preset phase records ([pre]: no StartAO,
    no Cancel, no instrument preset), the first StartAO [s], commands that
    the observation phase records ([mid]: no Stop, no instrument preset)
    and the Stop [e] give exactly one composite, placed just before [e]:
    it starts at the start of [p], ends at the end of [e], is successful,
    carries the wfs, mode and magnitude read from [p], and holds all the
    commands from [p] to [e].  The commands after [e] are treated as a
    fresh input. *)
Theorem detectCompleteObs_complete_observation
    (pre0 pre mid rest : list ArbCmd) (p s e : ArbCmd) (a : PresetAttrs) :
  Forall not_instrument pre0 →
  is_instrument_preset p = Ok true → preset_attrs p = Some a →
  Forall stays_in_preset pre → is_StartAO s = true →
  Forall stays_in_obs mid → is_Stop e = true →
  detectCompleteObs (pre0 ++ p :: pre ++ s :: mid ++ e :: rest)
  = res_map
      (λ out_rest,
         pre0 ++ p :: pre ++ s :: mid
           ++ closed_CompleteObs p a e (p :: pre ++ s :: mid ++ [e])
           :: e :: out_rest)
      (detectCompleteObs rest).
Proof.
  intros Hpre0 Hp Ha Hpre Hs Hmid He.
  unfold detectCompleteObs at 1.
  rewrite foldM_app, detectCompleteObs_loop_outside by done.
  cbn [mbind res_bind foldM].
  rewrite (detectCompleteObs_step_instrument _ p a Hp Ha).
  cbn [mbind res_bind obs_newCmds].
  rewrite foldM_app, detectCompleteObs_loop_preset by done.
  cbn [mbind res_bind foldM].
  rewrite detectCompleteObs_step_StartAO by done.
  cbn [mbind res_bind].
  rewrite foldM_app, detectCompleteObs_loop_obs by done.
  cbn [mbind res_bind foldM].
  rewrite detectCompleteObs_step_Stop by done.
  cbn [mbind res_bind].
  rewrite detectCompleteObs_loop_fresh_output.
  destruct (detectCompleteObs rest) as [out|e2]; cbn; [|done].
  unfold closed_CompleteObs, obs_object, obs_close, obs_append, new_ArbCmd.
  cbn. rewrite <- !app_assoc. reflexivity.
Qed.

(** X8.  A Cancel in the preset phase discards the composite: the
    commands from the instrument preset to the Cancel are passed through
    with no composite for them, and what follows the Cancel is treated as a
    fresh input. *)
Theorem detectCompleteObs_Cancel_discards
    (pre0 pre rest : list ArbCmd) (p c : ArbCmd) (a : PresetAttrs) :
  Forall not_instrument pre0 →
  is_instrument_preset p = Ok true → preset_attrs p = Some a →
  Forall stays_in_preset pre → cname c = "Cancel" →
  detectCompleteObs (pre0 ++ p :: pre ++ c :: rest)
  = res_map (λ out_rest, pre0 ++ p :: pre ++ c :: out_rest)
      (detectCompleteObs rest).
Proof.
  intros Hpre0 Hp Ha Hpre Hc.
  unfold detectCompleteObs at 1.
  rewrite foldM_app, detectCompleteObs_loop_outside by done.
  cbn [mbind res_bind foldM].
  rewrite (detectCompleteObs_step_instrument _ p a Hp Ha).
  cbn [mbind res_bind obs_newCmds].
  rewrite foldM_app, detectCompleteObs_loop_preset by done.
  cbn [mbind res_bind foldM].
  rewrite detectCompleteObs_step_Cancel by done.
  cbn [mbind res_bind].
  rewrite detectCompleteObs_loop_fresh_output.
  destruct (detectCompleteObs rest) as [out|e2]; cbn; [|done].
  rewrite <- !app_assoc. reflexivity.
Qed.

Lemma head_snoc {A} (l : list A) (x y : A) :
  head l = Some x → head (l ++ [y]) = Some x.
Proof. by destruct l. Qed.

Lemma obs_fields_of_append o p c :
  obs_fields_of o p → obs_fields_of (obs_append o c) p.
Proof.
  intros (Hh & Hs & a & Ha). split; [by apply head_snoc|]. split; [done|].
  by exists a.
Qed.

Lemma detectCompleteObs_step_fields st cmd st' :
  obs_fields_inv st → detectCompleteObs_step st cmd = Ok st' →
  obs_fields_inv st'
  ∧ ∃ e, obs_newCmds st' = obs_newCmds st ++ e ++ [cmd]
      ∧ Forall emitted_fields e.
Proof.
  destruct st as [io ip oc n].
  unfold obs_fields_inv, detectCompleteObs_step. simpl.
  intros Hinv Hstep.
  apply bind_Ok in Hstep as (b & Hb & Hstep).
  apply bind_Ok in Hstep as (st1 & Hst1 & Hstep).
  injection Hstep as <-. simpl.
  destruct b.
  { destruct (preset_attrs cmd) as [a|] eqn:Ha; [|discriminate].
    injection Hst1 as <-. simpl. split; [|by exists []].
    intros _. eexists _, cmd. split; [done|]. split; [done|].
    split; [done|]. by exists a. }
  destruct (ip && name_is cmd "Cancel") eqn:Hk.
  { injection Hst1 as <-. simpl. split; [|by exists []].
    intros [?|?]; discriminate. }
  destruct io.
  { destruct Hinv as (o & p & -> & Ho); [by left|].
    pose proof (obs_fields_of_append o p cmd Ho) as Ho'.
    destruct (is_Stop cmd); injection Hst1 as <-; simpl.
    - split.
      + intros _. eexists _, p. split; [done|].
        destruct Ho' as (Hh & Hs & a & Ha). split; [done|].
        split; [done|]. by exists a.
      + exists [obs_object (obs_close (obs_append o cmd) cmd)].
        split; [by rewrite <- app_assoc|]. constructor; [|done].
        destruct Ho' as (Hh & Hs & a & Ha & Hw & Hm & Hg).
        eexists _, _, _, _, _, p, cmd, a. split; [done|]. simpl.
        split; [done|]. split; [by rewrite last_snoc|]. done.
    - split; [|by exists []]. intros _. by eexists _, p. }
  destruct ip.
  { destruct Hinv as (o & p & -> & Ho); [by right|].
    pose proof (obs_fields_of_append o p cmd Ho) as Ho'.
    destruct (is_StartAO cmd); injection Hst1 as <-; simpl.
    - split; [|by exists []]. intros _. by eexists _, p.
    - split; [|by exists []]. intros _. by eexists _, p. }
  injection Hst1 as <-. simpl. split; [|by exists []].
  intros [?|?]; discriminate.
Qed.

Lemma detectCompleteObs_loop_fields cmds : ∀ st st',
  obs_fields_inv st → foldM detectCompleteObs_step st cmds = Ok st' →
  ∃ out, obs_newCmds st' = obs_newCmds st ++ out
    ∧ Forall (λ c, c ∈ cmds ∨ emitted_fields c) out.
Proof.
  induction cmds as [|cmd cmds IH]; intros st st' Hinv Hrun; simpl in Hrun.
  - injection Hrun as <-. exists []. by rewrite app_nil_r.
  - apply bind_Ok in Hrun as (st1 & Hstep & Hrun).
    destruct (detectCompleteObs_step_fields _ _ _ Hinv Hstep)
      as (Hinv1 & e & Hn1 & He).
    destruct (IH _ _ Hinv1 Hrun) as (out & Hn' & Hout).
    exists (e ++ cmd :: out). split.
    + rewrite Hn', Hn1. by rewrite <- !app_assoc.
    + apply Forall_app. split.
      * eapply Forall_impl; [exact He | by right].
      * constructor; [left; by left|].
        eapply Forall_impl; [exact Hout|]. simpl.
        intros c [Hc | Hc]; [left; by right | by right].
Qed.

(** X9.  Every composite that [detectCompleteObs] adds to its output
    starts at the start of its instrument preset, ends at the end of the
    Stop that closed it, is successful, carries the wfs, mode and magnitude
    read from the preset, and its [setup_duration()] is the end of its
    first StartAO minus the start of the preset: it never raises
    IndexError. *)
Theorem detectCompleteObs_emitted_metrics
    (cmds out : list ArbCmd) (c : ArbCmd) :
  detectCompleteObs cmds = Ok out → c ∈ out → c ∉ cmds →
  ∃ d wfs mode mag p pre s mid e a,
    c = CompleteObs d wfs mode mag (p :: pre ++ s :: mid ++ [e])
    ∧ is_instrument_preset p = Ok true ∧ preset_attrs p = Some a
    ∧ is_StartAO s = true ∧ is_Stop e = true
    ∧ start_time d = cstart p ∧ end_time d = cend e
    ∧ success d = Some true
    ∧ wfs = p_wfs a ∧ mode = p_mode a ∧ mag = p_mag a
    ∧ setup_duration d (p :: pre ++ s :: mid ++ [e])
      = py_sub (cend s) (cstart p).
Proof.
  unfold detectCompleteObs. intros H Hin Hnew.
  apply bind_Ok in H as (st' & Hrun & [= <-]).
  destruct (detectCompleteObs_loop_spec _ _ _ obs_inv_init Hrun)
    as (_ & out1 & Hn1 & _ & Hall1).
  assert (obs_fields_inv (mkObsState false false None [])) as Hinit
    by (intros [?|?]; discriminate).
  destruct (detectCompleteObs_loop_fields _ _ _ Hinit Hrun)
    as (out2 & Hn2 & Hall2).
  simpl in Hn1, Hn2. rewrite Hn1 in Hin. rewrite Hn2 in Hn1. subst out2.
  destruct (proj1 (Forall_forall _ _) Hall1 c Hin) as [?|Hshape]; [done|].
  destruct (proj1 (Forall_forall _ _) Hall2 c Hin) as [?|Hfields]; [done|].
  destruct Hshape as (d & wfs & mode & mag & l & -> & _ & Hsucc
                      & p & pre & s & mid & e & -> & Hp & Hpre & Hs & Hmid & He).
  destruct Hfields as (d' & wfs' & mode' & mag' & l' & p' & e' & a & Heq
                       & Hhead & Hlast & Hst & Hen & Ha & Hw & Hm & Hg).
  injection Heq as <- <- <- <- <-.
  simpl in Hhead. injection Hhead as <-.
  assert (last (p :: pre ++ s :: mid ++ [e]) = Some e) as Hl.
  { replace (p :: pre ++ s :: mid ++ [e])
      with ((p :: pre ++ s :: mid) ++ [e])
      by (simpl; by rewrite <- app_assoc).
    by rewrite last_snoc. }
  rewrite Hl in Hlast. injection Hlast as <-.
  exists d, wfs, mode, mag, p, pre, s, mid, e, a.
  repeat (split; [done|]).
  rewrite <- Hst.
  apply (setup_duration_at_first d (p :: pre) (mid ++ [e]) s); [|done].
  constructor; [|done].
  destruct (instrument_is_preset p Hp) as [Hn _].
  unfold is_StartAO, name_in. unfold name_is in Hn.
  apply bool_decide_eq_true_1 in Hn. by rewrite Hn.
Qed.

Lemma detectCompleteObs_without_instrument_preset_witness :
  Forall not_instrument three_plain
  ∧ detectCompleteObs three_plain = Ok three_plain.
Proof.
  assert (Forall not_instrument three_plain) as H
    by (repeat constructor).
  split; [exact H|].
  exact (detectCompleteObs_without_instrument_preset three_plain H).
Defined.

(** A preset at the origin, then an observation with an acquisition and
    one offset, then another preset at the origin. *)
Lemma detectCompleteObs_complete_observation_witness :
  Forall not_instrument [zero_preset]
  ∧ is_instrument_preset instrument_preset = Ok true
  ∧ preset_attrs instrument_preset = Some instrument_attrs
  ∧ Forall stays_in_preset [AcquireRefAO_1]
  ∧ is_StartAO StartAO_6 = true
  ∧ Forall stays_in_obs [Pause_100 (Some true); Resume_106 (Some true)]
  ∧ is_Stop StopAO_20 = true
  ∧ detectCompleteObs
      ([zero_preset] ++ instrument_preset :: [AcquireRefAO_1] ++ StartAO_6
         :: [Pause_100 (Some true); Resume_106 (Some true)] ++ StopAO_20
         :: [zero_preset])
    = res_map
        (λ out_rest,
           [zero_preset] ++ instrument_preset :: [AcquireRefAO_1]
             ++ StartAO_6 :: [Pause_100 (Some true); Resume_106 (Some true)]
             ++ closed_CompleteObs instrument_preset instrument_attrs
                  StopAO_20
                  (instrument_preset :: [AcquireRefAO_1] ++ StartAO_6
                     :: [Pause_100 (Some true); Resume_106 (Some true)]
                     ++ [StopAO_20])
             :: StopAO_20 :: out_rest)
        (detectCompleteObs [zero_preset]).
Proof.
  assert (Forall not_instrument [zero_preset]) as H1
    by (repeat constructor).
  assert (is_instrument_preset instrument_preset = Ok true) as H2
    by (vm_compute; reflexivity).
  assert (preset_attrs instrument_preset = Some instrument_attrs) as H3
    by (vm_compute; reflexivity).
  assert (Forall stays_in_preset [AcquireRefAO_1]) as H4
    by (repeat constructor).
  assert (is_StartAO StartAO_6 = true) as H5 by reflexivity.
  assert (Forall stays_in_obs [Pause_100 (Some true); Resume_106 (Some true)])
    as H6 by (repeat constructor).
  assert (is_Stop StopAO_20 = true) as H7 by reflexivity.
  repeat (split; [assumption|]).
  exact (detectCompleteObs_complete_observation _ _ _ _ _ _ _ _
           H1 H2 H3 H4 H5 H6 H7).
Defined.

Lemma detectCompleteObs_Cancel_discards_witness :
  Forall not_instrument [zero_preset]
  ∧ is_instrument_preset instrument_preset = Ok true
  ∧ preset_attrs instrument_preset = Some instrument_attrs
  ∧ Forall stays_in_preset [AcquireRefAO_1]
  ∧ cname Cancel_8 = "Cancel"
  ∧ detectCompleteObs
      ([zero_preset] ++ instrument_preset :: [AcquireRefAO_1] ++ Cancel_8
         :: [StartAO_6; StopAO_20])
    = res_map
        (λ out_rest,
           [zero_preset] ++ instrument_preset :: [AcquireRefAO_1]
             ++ Cancel_8 :: out_rest)
        (detectCompleteObs [StartAO_6; StopAO_20]).
Proof.
  assert (Forall not_instrument [zero_preset]) as H1
    by (repeat constructor).
  assert (is_instrument_preset instrument_preset = Ok true) as H2
    by (vm_compute; reflexivity).
  assert (preset_attrs instrument_preset = Some instrument_attrs) as H3
    by (vm_compute; reflexivity).
  assert (Forall stays_in_preset [AcquireRefAO_1]) as H4
    by (repeat constructor).
  assert (cname Cancel_8 = "Cancel") as H5 by reflexivity.
  repeat (split; [assumption|]).
  exact (detectCompleteObs_Cancel_discards _ _ _ _ _ _ H1 H2 H3 H4 H5).
Defined.

Lemma detectCompleteObs_emitted_metrics_witness :
  detectCompleteObs two_StartAO = Ok two_StartAO_output
  ∧ two_StartAO_obs ∈ two_StartAO_output
  ∧ (two_StartAO_obs ∉ two_StartAO)
  ∧ ∃ d wfs mode mag p pre s mid e a,
      two_StartAO_obs
      = CompleteObs d wfs mode mag (p :: pre ++ s :: mid ++ [e])
      ∧ is_instrument_preset p = Ok true ∧ preset_attrs p = Some a
      ∧ is_StartAO s = true ∧ is_Stop e = true
      ∧ start_time d = cstart p ∧ end_time d = cend e
      ∧ success d = Some true
      ∧ wfs = p_wfs a ∧ mode = p_mode a ∧ mag = p_mag a
      ∧ setup_duration d (p :: pre ++ s :: mid ++ [e])
        = py_sub (cend s) (cstart p).
Proof.
  assert (detectCompleteObs two_StartAO = Ok two_StartAO_output) as H1
    by reflexivity.
  assert (two_StartAO_obs ∈ two_StartAO_output) as H2
    by (do 3 apply list_elem_of_further; apply list_elem_of_here).
  assert (two_StartAO_obs ∉ two_StartAO) as H3.
  { unfold two_StartAO. rewrite !elem_of_cons, elem_of_nil.
    intros [H | [H | [H | [H | []]]]]; discriminate H. }
  repeat (split; [assumption|]).
  exact (detectCompleteObs_emitted_metrics _ _ _ H1 H2 H3).
Defined.

(** ** [detectAcquires]: what it does with a window *)

Lemma detectAcquires_step_closed l n c :
  cname c ≠ "AcquireRefAO" →
  detectAcquires_step (mkAcquiresState false l n) c
  = Ok (mkAcquiresState false l (n ++ [c])).
Proof.
  intros Hc. unfold detectAcquires_step, name_is.
  by rewrite bool_decide_eq_false_2.
Qed.

Lemma detectAcquires_loop_closed cmds : ∀ l n,
  Forall (λ c, cname c ≠ "AcquireRefAO") cmds →
  foldM detectAcquires_step (mkAcquiresState false l n) cmds
  = Ok (mkAcquiresState false l (n ++ cmds)).
Proof.
  induction cmds as [|c cmds IH]; intros l n Hall; cbn [foldM].
  - by rewrite app_nil_r.
  - apply Forall_cons in Hall as [Hc Hall].
    rewrite detectAcquires_step_closed by done. cbn [mbind res_bind].
    rewrite IH by done. by rewrite <- app_assoc.
Qed.

(** X10.  A list without an AcquireRefAO goes through [detectAcquires]
    unchanged. *)
Theorem detectAcquires_without_AcquireRefAO (cmds : list ArbCmd) :
  Forall (λ c, cname c ≠ "AcquireRefAO") cmds →
  detectAcquires cmds = Ok cmds.
Proof.
  intros Hall. unfold detectAcquires.
  by rewrite detectAcquires_loop_closed.
Qed.

(** With no window open the locals of an earlier window are dead. *)
Lemma detectAcquires_loop_fresh cmds : ∀ l n,
  (foldM detectAcquires_step (mkAcquiresState false l n) cmds
   ≫= λ st, Ok (acq_newCmds st))
  = res_map (app n) (detectAcquires cmds).
Proof.
  unfold detectAcquires.
  induction cmds as [|c cmds IH]; intros l n; cbn [foldM].
  - cbn. by rewrite app_nil_r.
  - destruct (decide (cname c = "AcquireRefAO")) as [Hc|Hc].
    + rewrite !(detectAcquires_step_AcquireRefAO _ _ Hc).
      cbn [mbind res_bind acq_newCmds app].
      change (mkAcquiresState true (Some (fresh_Acquire c, false)) (n ++ [c]))
        with (acq_prepend n
                (mkAcquiresState true (Some (fresh_Acquire c, false)) [c])).
      rewrite detectAcquires_loop_prepend.
      destruct (foldM detectAcquires_step
                  (mkAcquiresState true (Some (fresh_Acquire c, false)) [c])
                  cmds); reflexivity.
    + rewrite !detectAcquires_step_closed by done.
      cbn [mbind res_bind app].
      rewrite (IH l (n ++ [c])), (IH None [c]).
      destruct (foldM detectAcquires_step
                  (mkAcquiresState false None []) cmds) as [s|e]; cbn;
        [|done].
      by rewrite <- app_assoc.
Qed.

Lemma detectAcquires_step_folded c acq dn n :
  folded_subcommand c →
  detectAcquires_step (mkAcquiresState true (Some (acq, dn)) n) c
  = Ok (mkAcquiresState true (Some (window_fold acq [c], dn)) (n ++ [c])).
Proof.
  unfold detectAcquires_step, window_fold, name_is, name_in. simpl.
  intros [Hc | Hc].
  - by rewrite Hc.
  - destruct (bool_decide (cname c = "AcquireRefAO")) eqn:Ha.
    { apply bool_decide_eq_true_1 in Ha. rewrite Ha in Hc.
      by apply AcquireRefAO_not_subcommand in Hc. }
    simpl. destruct (bool_decide (cname c = "CheckFlux")); [done|].
    simpl. by rewrite bool_decide_eq_true_2 by done.
Qed.

Lemma window_fold_app acq l1 l2 :
  window_fold acq (l1 ++ l2) = window_fold (window_fold acq l1) l2.
Proof. unfold window_fold. by rewrite foldl_app. Qed.

Lemma detectAcquires_loop_folded mid : ∀ acq dn n,
  Forall folded_subcommand mid →
  foldM detectAcquires_step (mkAcquiresState true (Some (acq, dn)) n) mid
  = Ok (mkAcquiresState true (Some (window_fold acq mid, dn)) (n ++ mid)).
Proof.
  induction mid as [|c mid IH]; intros acq dn n Hall; cbn [foldM].
  - by rewrite app_nil_r.
  - apply Forall_cons in Hall as [Hc Hall].
    rewrite detectAcquires_step_folded by done. cbn [mbind res_bind].
    rewrite IH by done. by rewrite <- app_assoc.
Qed.

Lemma detectAcquires_step_unrecognised c acq n :
  unrecognised c →
  detectAcquires_step (mkAcquiresState true (Some (acq, false)) n) c
  = Ok (mkAcquiresState false (Some (acquire_fail acq, false))
          (n ++ [Cmd (acquire_fail acq); c])).
Proof.
  intros (H1 & H2 & H3 & H4).
  unfold detectAcquires_step, name_is, name_in. simpl.
  rewrite !bool_decide_eq_false_2 by done. simpl.
  by rewrite <- app_assoc.
Qed.

(** X11.  An open window that meets a command it does not know, before
    any Done: the Acquire composite is emitted at once, just before that
    command, marked failed, with " Command not completed" added to the
    error text gathered so far; it starts at the start of the AcquireRefAO.
    The commands after it are treated as a fresh input. *)
Theorem detectAcquires_unrecognised_command_fails_window
    (pre mid rest : list ArbCmd) (a x : ArbCmd) :
  cname a = "AcquireRefAO" → Forall folded_subcommand mid →
  unrecognised x →
  ∃ out_pre out_rest acq,
    detectAcquires pre = Ok out_pre
    ∧ detectAcquires rest = Ok out_rest
    ∧ detectAcquires (pre ++ a :: mid ++ x :: rest)
      = Ok (out_pre ++ a :: mid ++ Cmd acq :: x :: out_rest)
    ∧ acq = acquire_fail (window_fold (fresh_Acquire a) mid)
    ∧ name acq = "Acquire" ∧ success acq = Some false
    ∧ start_time acq = cstart a
    ∧ errstr acq
      = errstr (window_fold (fresh_Acquire a) mid) +:+ " Command not completed".
Proof.
  intros Ha Hmid Hx.
  destruct (detectAcquires_loop_spec pre _ acquires_inv_init)
    as (st_pre & out_pre & Hpre & _ & Hn_pre & _).
  simpl in Hn_pre.
  destruct (detectAcquires_preserves rest) as [out_rest [Hrest _]].
  exists out_pre, out_rest, (acquire_fail (window_fold (fresh_Acquire a) mid)).
  split; [unfold detectAcquires; rewrite Hpre; cbn; by rewrite Hn_pre|].
  split; [done|]. split.
  { unfold detectAcquires at 1.
    rewrite foldM_app, Hpre. cbn [mbind res_bind foldM].
    rewrite (detectAcquires_step_AcquireRefAO _ _ Ha). cbn [mbind res_bind].
    rewrite foldM_app, detectAcquires_loop_folded by done.
    cbn [mbind res_bind foldM].
    rewrite detectAcquires_step_unrecognised by done.
    cbn [mbind res_bind].
    rewrite detectAcquires_loop_fresh, Hrest. cbn.
    rewrite Hn_pre. by rewrite <- !app_assoc. }
  split; [done|].
  assert (∀ l acq, name (window_fold acq l) = name acq
                   ∧ start_time (window_fold acq l) = start_time acq) as Hw.
  { induction l as [|c l IH]; intros acq; [done|].
    change (c :: l) with ([c] ++ l). rewrite window_fold_app.
    destruct (IH (window_fold acq [c])) as [-> ->].
    unfold window_fold. simpl. by destruct (name_is c "CheckFlux"). }
  destruct (Hw mid (fresh_Acquire a)) as [Hn Hs].
  repeat split; simpl; [by rewrite Hn | by rewrite Hs].
Qed.

Lemma detectAcquires_step_keeps_fold c acq dn n :
  keeps_window_open c →
  ∃ dn',
    detectAcquires_step (mkAcquiresState true (Some (acq, dn)) n) c
    = Ok (mkAcquiresState true (Some (window_fold acq [c], dn')) (n ++ [c])).
Proof.
  intros [Hc | [Hc | [Hc Hs]]].
  - exists dn. apply detectAcquires_step_folded. by left.
  - exists dn. apply detectAcquires_step_folded. by right.
  - exists true. unfold detectAcquires_step, window_fold, name_is, name_in.
    simpl. rewrite Hc. simpl. by rewrite bool_decide_eq_false_2 by done.
Qed.

Lemma detectAcquires_loop_keeps_fold mid : ∀ acq dn n,
  Forall keeps_window_open mid →
  ∃ dn',
    foldM detectAcquires_step (mkAcquiresState true (Some (acq, dn)) n) mid
    = Ok (mkAcquiresState true (Some (window_fold acq mid, dn')) (n ++ mid)).
Proof.
  induction mid as [|c mid IH]; intros acq dn n Hall; cbn [foldM].
  - exists dn. by rewrite app_nil_r.
  - apply Forall_cons in Hall as [Hc Hall].
    destruct (detectAcquires_step_keeps_fold c acq dn n Hc) as [dn1 ->].
    cbn [mbind res_bind].
    destruct (IH (window_fold acq [c]) dn1 (n ++ [c]) Hall) as [dn' ->].
    exists dn'. by rewrite <- app_assoc.
Qed.

Lemma detectAcquires_step_Done c acq dn n :
  cname c = "Done" → csuccess c = Some true →
  detectAcquires_step (mkAcquiresState true (Some (acq, dn)) n) c
  = Ok (mkAcquiresState false (Some (acquire_fold acq c, true))
          (n ++ [Cmd (acquire_fold acq c); c])).
Proof.
  intros Hc Hs. unfold detectAcquires_step, name_is, name_in. simpl.
  rewrite Hc. simpl. rewrite bool_decide_eq_true_2 by done. simpl.
  by rewrite <- app_assoc.
Qed.

Lemma py_and_true a b : py_and a b = Some true ↔ a = Some true ∧ b = Some true.
Proof. destruct a as [[]|]; simpl; naive_solver. Qed.

(** The composite of a window is successful exactly when the composite it
    started from and every command folded into it are. *)
Lemma window_fold_success_iff (acq : CmdData) (mid : list ArbCmd) :
  success (window_fold acq mid) = Some true
  ↔ success acq = Some true ∧ Forall (λ c, csuccess c = Some true) mid.
Proof.
  revert acq. induction mid as [|c mid IH]; intros acq.
  - split; [by intros ?; split | by intros [? _]].
  - change (c :: mid) with ([c] ++ mid). rewrite window_fold_app, IH.
    assert (success (window_fold acq [c]) = py_and (success acq) (csuccess c))
      as -> by (unfold window_fold; simpl; by destruct (name_is c "CheckFlux")).
    rewrite py_and_true, Forall_app, Forall_singleton. tauto.
Qed.

(** X12.  A window closed by a successful Done: the Acquire composite is
    emitted just before the Done.  It is the AcquireRefAO's composite with
    the sub-commands (and any earlier unsuccessful Done) and the Done
    folded in; it starts at the start of the AcquireRefAO, ends at the end
    of the Done, and is successful exactly when the AcquireRefAO and every
    command folded in are successful.  The commands after the Done are
    treated as a fresh input. *)
Theorem detectAcquires_successful_Done_emits
    (pre mid rest : list ArbCmd) (a dn : ArbCmd) :
  cname a = "AcquireRefAO" → Forall keeps_window_open mid →
  cname dn = "Done" → csuccess dn = Some true →
  ∃ out_pre out_rest acq,
    detectAcquires pre = Ok out_pre
    ∧ detectAcquires rest = Ok out_rest
    ∧ detectAcquires (pre ++ a :: mid ++ dn :: rest)
      = Ok (out_pre ++ a :: mid ++ Cmd acq :: dn :: out_rest)
    ∧ acq = window_fold (fresh_Acquire a) (mid ++ [dn])
    ∧ name acq = "Acquire"
    ∧ start_time acq = cstart a ∧ end_time acq = cend dn
    ∧ (success acq = Some true
       ↔ csuccess a = Some true ∧ Forall (λ c, csuccess c = Some true) mid).
Proof.
  intros Ha Hmid Hd Hs.
  destruct (detectAcquires_loop_spec pre _ acquires_inv_init)
    as (st_pre & out_pre & Hpre & _ & Hn_pre & _).
  simpl in Hn_pre.
  destruct (detectAcquires_preserves rest) as [out_rest [Hrest _]].
  assert (window_fold (fresh_Acquire a) (mid ++ [dn])
          = acquire_fold (window_fold (fresh_Acquire a) mid) dn) as Hfold.
  { rewrite window_fold_app. unfold window_fold at 1, name_is. simpl.
    by rewrite Hd. }
  exists out_pre, out_rest, (window_fold (fresh_Acquire a) (mid ++ [dn])).
  split; [unfold detectAcquires; rewrite Hpre; cbn; by rewrite Hn_pre|].
  split; [done|]. split.
  { unfold detectAcquires at 1.
    rewrite foldM_app, Hpre. cbn [mbind res_bind foldM].
    rewrite (detectAcquires_step_AcquireRefAO _ _ Ha). cbn [mbind res_bind].
    rewrite foldM_app.
    destruct (detectAcquires_loop_keeps_fold mid (fresh_Acquire a) false
                (acq_newCmds st_pre ++ [a]) Hmid) as [dn' ->].
    cbn [mbind res_bind foldM].
    rewrite detectAcquires_step_Done by done.
    cbn [mbind res_bind].
    rewrite detectAcquires_loop_fresh, Hrest. cbn.
    rewrite Hn_pre, Hfold. by rewrite <- !app_assoc. }
  split; [done|].
  assert (∀ l acq, name (window_fold acq l) = name acq
                   ∧ start_time (window_fold acq l) = start_time acq) as Hw.
  { induction l as [|c l IH]; intros acq; [done|].
    change (c :: l) with ([c] ++ l). rewrite window_fold_app.
    destruct (IH (window_fold acq [c])) as [-> ->].
    unfold window_fold. simpl. by destruct (name_is c "CheckFlux"). }
  destruct (Hw (mid ++ [dn]) (fresh_Acquire a)) as [Hn Hst].
  split; [by rewrite Hn|]. split; [by rewrite Hst|].
  split; [by rewrite Hfold|].
  rewrite window_fold_success_iff, Forall_app, Forall_singleton.
  change (success (fresh_Acquire a)) with (csuccess a). tauto.
Qed.

Lemma detectAcquires_without_AcquireRefAO_witness :
  Forall (λ c, cname c ≠ "AcquireRefAO") [zero_preset; StartAO_6; StopAO_20]
  ∧ detectAcquires [zero_preset; StartAO_6; StopAO_20]
    = Ok [zero_preset; StartAO_6; StopAO_20].
Proof.
  assert (Forall (λ c, cname c ≠ "AcquireRefAO")
            [zero_preset; StartAO_6; StopAO_20]) as H
    by (repeat constructor; discriminate).
  split; [exact H|].
  exact (detectAcquires_without_AcquireRefAO _ H).
Defined.

(** An acquisition interrupted by a StartAO. *)
Lemma detectAcquires_unrecognised_command_fails_window_witness :
  cname AcquireRefAO_1 = "AcquireRefAO"
  ∧ Forall folded_subcommand [CheckFlux_12; CloseLoop_14]
  ∧ unrecognised StartAO_6
  ∧ ∃ out_pre out_rest acq,
      detectAcquires [zero_preset] = Ok out_pre
      ∧ detectAcquires [StopAO_20] = Ok out_rest
      ∧ detectAcquires
          ([zero_preset] ++ AcquireRefAO_1 :: [CheckFlux_12; CloseLoop_14]
             ++ StartAO_6 :: [StopAO_20])
        = Ok (out_pre ++ AcquireRefAO_1 :: [CheckFlux_12; CloseLoop_14]
                ++ Cmd acq :: StartAO_6 :: out_rest)
      ∧ acq = acquire_fail (window_fold (fresh_Acquire AcquireRefAO_1)
                              [CheckFlux_12; CloseLoop_14])
      ∧ name acq = "Acquire" ∧ success acq = Some false
      ∧ start_time acq = cstart AcquireRefAO_1
      ∧ errstr acq
        = errstr (window_fold (fresh_Acquire AcquireRefAO_1)
                    [CheckFlux_12; CloseLoop_14])
          +:+ " Command not completed".
Proof.
  assert (cname AcquireRefAO_1 = "AcquireRefAO") as H1 by reflexivity.
  assert (Forall folded_subcommand [CheckFlux_12; CloseLoop_14]) as H2.
  { constructor; [left; reflexivity|]. constructor; [|constructor].
    right. by apply (bool_decide_unpack _). }
  assert (unrecognised StartAO_6) as H3.
  { repeat split; try discriminate. by apply (bool_decide_unpack _). }
  repeat (split; [assumption|]).
  exact (detectAcquires_unrecognised_command_fails_window [zero_preset]
           _ [StopAO_20] _ _ H1 H2 H3).
Defined.

(** An acquisition whose first Done failed and whose second succeeded. *)
Lemma detectAcquires_successful_Done_emits_witness :
  cname AcquireRefAO_1 = "AcquireRefAO"
  ∧ Forall keeps_window_open open_window
  ∧ cname Done_16 = "Done" ∧ csuccess Done_16 = Some true
  ∧ ∃ out_pre out_rest acq,
      detectAcquires [zero_preset] = Ok out_pre
      ∧ detectAcquires [StartAO_6] = Ok out_rest
      ∧ detectAcquires
          ([zero_preset] ++ AcquireRefAO_1 :: open_window
             ++ Done_16 :: [StartAO_6])
        = Ok (out_pre ++ AcquireRefAO_1 :: open_window
                ++ Cmd acq :: Done_16 :: out_rest)
      ∧ acq = window_fold (fresh_Acquire AcquireRefAO_1)
                (open_window ++ [Done_16])
      ∧ name acq = "Acquire"
      ∧ start_time acq = cstart AcquireRefAO_1
      ∧ end_time acq = cend Done_16
      ∧ (success acq = Some true
         ↔ csuccess AcquireRefAO_1 = Some true
           ∧ Forall (λ c, csuccess c = Some true) open_window).
Proof.
  assert (cname AcquireRefAO_1 = "AcquireRefAO") as H1 by reflexivity.
  assert (Forall keeps_window_open open_window) as H2.
  { constructor; [left; reflexivity|].
    constructor; [|constructor].
    right. right. split; [reflexivity | discriminate]. }
  assert (cname Done_16 = "Done") as H3 by reflexivity.
  assert (csuccess Done_16 = Some true) as H4 by reflexivity.
  repeat (split; [assumption|]).
  exact (detectAcquires_successful_Done_emits [zero_preset] _ [StartAO_6]
           _ _ H1 H2 H3 H4).
Defined.


(** ** [detectOffsets]: what it keeps and what it adds *)

Lemma py_index_Ok {A} (l : list A) (n : nat) (x : A) :
  py_index l n = Ok x → l !! n = Some x.
Proof. unfold py_index. destruct (l !! n); congruence. Qed.

Lemma detectOffsets_step_adds cmds st n st' :
  detectOffsets_step cmds st n = Ok st' →
  ∃ c0 e, cmds !! n = Some c0
    ∧ off_newCmds st' = off_newCmds st ++ e ++ [c0]
    ∧ Forall offsets_composite e ∧ (List.length e ≤ 1)%nat.
Proof.
  unfold detectOffsets_step. intros H.
  apply bind_Ok in H as (c0 & H0%py_index_Ok & H).
  apply bind_Ok in H as (c1 & _ & H).
  apply bind_Ok in H as (c2 & _ & H).
  apply bind_Ok in H as (st1 & H1 & [= <-]).
  exists c0. cbn [off_newCmds].
  assert (∃ e, off_newCmds st1 = off_newCmds st ++ e
               ∧ Forall offsets_composite e ∧ (List.length e ≤ 1)%nat)
    as (e & -> & He & Hl).
  { destruct (name_is c0 "Pause" && name_is c1 "OffsetXY"
              && name_is c2 "Resume").
    { apply bind_Ok in H1 as (su & _ & [= <-]).
      eexists [_]. by repeat constructor. }
    destruct (name_is c0 "Pause" && name_is c1 "OffsetXY").
    { apply bind_Ok in H1 as (su & _ & H1).
      destruct (truthy su); injection H1 as <-;
        eexists [_]; by repeat constructor. }
    destruct (name_is c0 "Pause" && name_is c1 "Resume").
    { injection H1 as <-. eexists [_]. by repeat constructor. }
    destruct (name_is c0 "Pause").
    { destruct (truthy (csuccess c0)); injection H1 as <-;
        eexists [_]; by repeat constructor. }
    destruct (name_is c0 "Resume" && name_is c1 "Pause").
    { destruct (args_local st); [|discriminate]. injection H1 as <-.
      eexists [_]. by repeat constructor. }
    injection H1 as <-. exists []. rewrite app_nil_r.
    by repeat constructor. }
  exists e. by rewrite <- app_assoc.
Qed.

Lemma detectOffsets_loop_adds cmds k : ∀ st st',
  foldM (detectOffsets_step cmds) st (seq 0 k) = Ok st' →
  ∃ out, off_newCmds st' = off_newCmds st ++ out
    ∧ sublist (take k cmds) out
    ∧ Forall (λ c, c ∈ cmds ∨ offsets_composite c) out
    ∧ (k ≤ List.length out ≤ 2 * k)%nat ∧ (k ≤ List.length cmds)%nat.
Proof.
  induction k as [|k IH]; intros st st' H.
  - injection H as <-. exists []. rewrite app_nil_r, take_0.
    repeat split; try done; simpl; lia.
  - rewrite seq_S, foldM_app in H. simpl in H.
    apply bind_Ok in H as (st1 & Hrun & H).
    apply bind_Ok in H as (st2 & Hstep & [= <-]).
    destruct (IH _ _ Hrun) as (out & Hn & Hsub & Hall & Hlen & Hk).
    destruct (detectOffsets_step_adds _ _ _ _ Hstep)
      as (c0 & e & H0 & Hn2 & He & Hl).
    exists (out ++ e ++ [c0]). repeat split.
    + rewrite Hn2, Hn. by rewrite <- !app_assoc.
    + rewrite (take_S_r _ _ _ H0). apply sublist_app; [done|].
      apply sublist_inserts_l. done.
    + apply Forall_app. split; [done|]. apply Forall_app. split.
      * eapply Forall_impl; [exact He | by right].
      * constructor; [|done]. left. by eapply list_elem_of_lookup_2.
    + rewrite !length_app. simpl. lia.
    + rewrite !length_app. simpl. lia.
    + apply lookup_lt_Some in H0. lia.
Qed.

(** X13.  Whenever [detectOffsets] returns on three commands or more, the
    commands before the last two are in its output, in their order; every
    other element of the output is an OffsetSequence or ExposureSequence
    composite, at most one per input command. *)
Theorem detectOffsets_keeps_all_but_last_two (cmds out : list ArbCmd) :
  (3 ≤ List.length cmds)%nat → detectOffsets cmds = Ok out →
  sublist (take (List.length cmds - 2) cmds) out
  ∧ Forall (λ c, c ∈ cmds ∨ offsets_composite c) out
  ∧ (List.length cmds - 2 ≤ List.length out ≤ 2 * (List.length cmds - 2))%nat.
Proof.
  intros Hlen H. unfold detectOffsets in H.
  destruct (Nat.ltb_spec (List.length cmds) 3) as [?|_]; [lia|].
  apply bind_Ok in H as (st' & Hrun & [= <-]).
  destruct (detectOffsets_loop_adds _ _ _ _ Hrun)
    as (out & Hn & Hsub & Hall & Hl & _).
  simpl in Hn. rewrite Hn. done.
Qed.

Lemma detectOffsets_step_no_Resume cmds st n :
  Forall (λ c, cname c ≠ "Resume") cmds → (n + 2 < List.length cmds)%nat →
  ∃ st' c0 e, detectOffsets_step cmds st n = Ok st'
    ∧ cmds !! n = Some c0
    ∧ off_newCmds st' = off_newCmds st ++ e ++ [c0]
    ∧ Forall (λ c, cname c = "OffsetSequence" ∧ csuccess c ≠ Some true) e.
Proof.
  intros Hall Hn.
  destruct (lookup_lt_is_Some_2 cmds n) as [c0 H0]; [lia|].
  destruct (lookup_lt_is_Some_2 cmds (n + 1)) as [c1 H1]; [lia|].
  destruct (lookup_lt_is_Some_2 cmds (n + 2)) as [c2 H2]; [lia|].
  assert (∀ i c, cmds !! i = Some c → name_is c "Resume" = false) as Hr.
  { intros i c Hc. apply bool_decide_eq_false_2.
    exact (Forall_lookup_1 _ _ _ _ Hall Hc). }
  unfold detectOffsets_step.
  rewrite (py_index_lookup _ _ _ H0), (py_index_lookup _ _ _ H1),
    (py_index_lookup _ _ _ H2). cbn [mbind res_bind].
  rewrite (Hr _ _ H0), (Hr _ _ H1), (Hr _ _ H2), !andb_false_r.
  cbn [andb].
  destruct (name_is c0 "Pause"); cbn [andb].
  - destruct (name_is c1 "OffsetXY").
    + cbn.
      destruct (bool_decide (csuccess c0 = Some true)
                && bool_decide (csuccess c1 = Some true)); cbn;
        eexists _, c0, [_]; (split; [done|]); (split; [done|]);
        (split; [cbn; by rewrite <- app_assoc|]); by repeat constructor.
    + destruct (truthy (csuccess c0)) eqn:Ht; cbn;
        eexists _, c0, [_]; (split; [done|]); (split; [done|]);
        (split; [cbn; by rewrite <- app_assoc|]); repeat constructor.
      * done.
      * unfold truthy in Ht. apply bool_decide_eq_false_1 in Ht. exact Ht.
  - cbn. eexists _, c0, []. by repeat constructor.
Qed.

Lemma detectOffsets_loop_no_Resume cmds k : ∀ st,
  Forall (λ c, cname c ≠ "Resume") cmds → (k + 2 ≤ List.length cmds)%nat →
  ∃ st' out, foldM (detectOffsets_step cmds) st (seq 0 k) = Ok st'
    ∧ off_newCmds st' = off_newCmds st ++ out
    ∧ Forall (λ c, c ∈ cmds
                   ∨ (cname c = "OffsetSequence" ∧ csuccess c ≠ Some true))
        out.
Proof.
  intros st Hall. induction k as [|k IH]; intros Hk.
  - exists st, []. by rewrite app_nil_r.
  - destruct IH as (st1 & out & Hrun & Hn & Hout); [lia|].
    destruct (detectOffsets_step_no_Resume cmds st1 k Hall)
      as (st2 & c0 & e & Hstep & H0 & Hn2 & He); [lia|].
    exists st2, (out ++ e ++ [c0]).
    rewrite seq_S, foldM_app, Hrun. simpl. rewrite Hstep.
    split; [done|]. split; [rewrite Hn2, Hn; by rewrite <- !app_assoc|].
    apply Forall_app. split; [done|]. apply Forall_app. split.
    + eapply Forall_impl; [exact He | by right].
    + constructor; [|done]. left. by eapply list_elem_of_lookup_2.
Qed.

(** X14.  On a list without a command named Resume [detectOffsets] always
    returns, and no composite it adds is marked successful: each is an
    OffsetSequence whose success is [False] or unknown. *)
Theorem detectOffsets_without_Resume (cmds : list ArbCmd) :
  Forall (λ c, cname c ≠ "Resume") cmds →
  ∃ out, detectOffsets cmds = Ok out
    ∧ ∀ c, c ∈ out →
        c ∈ cmds ∨ (cname c = "OffsetSequence" ∧ csuccess c ≠ Some true).
Proof.
  intros Hall. unfold detectOffsets.
  destruct (Nat.ltb_spec (List.length cmds) 3) as [Hlt|Hge].
  { exists cmds. split; [done|]. by left. }
  destruct (detectOffsets_loop_no_Resume cmds (List.length cmds - 2)
              (mkOffsetsState None []) Hall) as (st' & out & -> & Hn & Hout);
    [lia|].
  exists out. simpl in Hn. simpl. rewrite Hn. split; [done|].
  intros c Hc. exact (proj1 (Forall_forall _ _) Hout c Hc).
Qed.

(** A Pause followed by an OffsetXY that is never resumed, then a lone
    Pause of unknown success. *)
Lemma detectOffsets_without_Resume_witness :
  Forall (λ c, cname c ≠ "Resume") pause_without_resume
  ∧ ∃ out, detectOffsets pause_without_resume = Ok out
      ∧ ∀ c, c ∈ out →
          c ∈ pause_without_resume
          ∨ (cname c = "OffsetSequence" ∧ csuccess c ≠ Some true).
Proof.
  assert (Forall (λ c, cname c ≠ "Resume") pause_without_resume) as H
    by (repeat constructor; discriminate).
  split; [exact H|].
  exact (detectOffsets_without_Resume pause_without_resume H).
Defined.

Lemma detectOffsets_keeps_all_but_last_two_witness :
  (3 ≤ List.length pause_without_resume)%nat
  ∧ (∃ out, detectOffsets pause_without_resume = Ok out
       ∧ List.length out = 6%nat
       ∧ sublist (take 4 pause_without_resume) out).
Proof.
  assert (3 ≤ List.length pause_without_resume)%nat as H1 by (simpl; lia).
  split; [exact H1|].
  eexists. split; [reflexivity|]. split; [reflexivity|].
  exact (proj1 (detectOffsets_keeps_all_but_last_two pause_without_resume _
                  H1 eq_refl)).
Defined.

(** ** The deduplicating [search]: further properties *)

Lemma split_on_not_nil sep s : split_on sep s ≠ [].
Proof.
  destruct s as [|c s]; simpl; [done|].
  destruct (Ascii.eqb c sep); [done|]. by destruct (split_on sep s).
Qed.

Lemma join_cons sep x l :
  l ≠ [] → join sep (x :: l) = x +:+ sep +:+ join sep l.
Proof. by destruct l. Qed.

(** Splitting a line at a separator loses nothing: joining the fields
    with the separator gives the line back. *)
Lemma join_split_on_eq (sep : ascii) (s : string) :
  join (String sep "") (split_on sep s) = s.
Proof.
  induction s as [|c s IH]; simpl; [done|].
  destruct (Ascii.eqb_spec c sep) as [->|Hne].
  - rewrite join_cons by apply split_on_not_nil. by rewrite IH.
  - destruct (split_on sep s) as [|x r] eqn:Hs.
    { by apply split_on_not_nil in Hs. }
    destruct r as [|y r]; simpl in *; by rewrite <- IH.
Qed.


Section SearchMore.
Variable log_timestamp : string → res time.

Lemma search_step_rejected mindiff st f t :
  log_timestamp f = Ok t → accepts mindiff (prev st) t = false →
  search_step log_timestamp mindiff st f = Ok (mkSearchState t (found2 st)).
Proof.
  intros Hf Ha. unfold search_step. rewrite Hf. cbn [mbind res_bind].
  by rewrite Ha.
Qed.

Lemma search_step_new mindiff st f t :
  log_timestamp f = Ok t → accepts mindiff (prev st) t = true →
  found2 st !! t = None →
  search_step log_timestamp mindiff st f
  = Ok (mkSearchState t (<[t := strip f]> (found2 st))).
Proof.
  intros Hf Ha Hn. unfold search_step. rewrite Hf. cbn [mbind res_bind].
  by rewrite Ha, Hn.
Qed.

Lemma search_loop_rejected mindiff found ts :
  Forall2 (λ f t, log_timestamp f = Ok t) found ts → ∀ p m,
  all_close mindiff p ts →
  ∃ p', foldM (search_step log_timestamp mindiff) (mkSearchState p m) found
        = Ok (mkSearchState p' m).
Proof.
  induction 1 as [|f t found ts Hf _ IH]; intros p m Hclose; cbn [foldM].
  - by exists p.
  - destruct Hclose as [Hlt Hclose].
    rewrite (search_step_rejected mindiff _ f t Hf)
      by (apply bool_decide_eq_false_2; cbn; lia).
    exact (IH t m Hclose).
Qed.

(** X15.  A burst collapses to its first line: when the first line is
    accepted (its timestamp is at least [mindiff]) and every later line
    comes less than [mindiff] after the line before it, the search returns
    exactly one entry, the stripped first line. *)
Theorem search_burst_collapses (f : string) (found : list string)
    (t : time) (ts : list time) (mindiff : time) :
  Forall2 (λ f t, log_timestamp f = Ok t) (f :: found) (t :: ts) →
  mindiff ≤ t → all_close mindiff t ts →
  search_dict log_timestamp (f :: found) mindiff = Ok {[t := strip f]}
  ∧ search log_timestamp (f :: found) mindiff = Ok [strip f].
Proof.
  intros Hts Hacc Hclose.
  apply Forall2_cons in Hts as [Hf Hts].
  assert (search_dict log_timestamp (f :: found) mindiff
          = Ok {[t := strip f]}) as Hd.
  { unfold search_dict. cbn [foldM].
    rewrite (search_step_new mindiff _ f t Hf)
      by (done || (apply bool_decide_eq_true_2; cbn; lia)).
    cbn [mbind res_bind found2].
    destruct (search_loop_rejected mindiff found ts Hts t
                (<[t:=strip f]> ∅) Hclose) as [p' ->].
    cbn. by rewrite insert_empty. }
  split; [done|].
  unfold search. rewrite Hd. cbn.
  rewrite dom_singleton_L, elements_singleton. cbn.
  by rewrite lookup_singleton_eq.
Qed.
End SearchMore.

Lemma accepted_after_previous_line_all mindiff ts : ∀ p,
  mindiff ≤ 0 → non_decreasing_from p ts →
  accepted_after_previous_line mindiff p ts = ts.
Proof.
  induction ts as [|t ts IH]; intros p Hm Hnd; simpl; [done|].
  destruct Hnd as [Hpt Hnd]. unfold accepts.
  rewrite bool_decide_eq_true_2 by lia. by rewrite IH.
Qed.

(** X16.  With [mindiff] at most 0, the setting of the command extractor,
    a stream whose timestamps never step back (and are not negative) loses
    no timestamp: the keys of the result are exactly the timestamps of the
    lines. *)
Theorem search_keeps_every_timestamp
    (log_timestamp : string → res time) (found : list string)
    (ts : list time) (mindiff : time) :
  Forall2 (λ f t, log_timestamp f = Ok t) found ts →
  mindiff ≤ 0 → non_decreasing_from 0 ts →
  ∃ found2,
    search_dict log_timestamp found mindiff = Ok found2
    ∧ ∀ t, t ∈ dom found2 ↔ t ∈ ts.
Proof.
  intros Hts Hm Hnd. unfold search_dict.
  destruct (search_loop_dom log_timestamp mindiff found ts Hts
              (mkSearchState 0 ∅)) as (st' & -> & Hd).
  exists (found2 st'). split; [done|]. intros t. rewrite Hd. cbn.
  rewrite accepted_after_previous_line_all by done. set_solver.
Qed.

Lemma StronglySorted_le_lt (l : list Z) :
  StronglySorted Z.le l → NoDup l → StronglySorted Z.lt l.
Proof.
  induction 1 as [|x l Hs IH Hall]; intros Hnd; [constructor|].
  apply NoDup_cons in Hnd as [Hx Hnd]. constructor; [by apply IH|].
  apply Forall_forall. intros y Hy.
  pose proof (proj1 (Forall_forall _ _) Hall y Hy) as Hle.
  assert (x ≠ y) by (intros ->; done). lia.
Qed.

(** X17.  The list form of the search comes out in the order of the
    timestamps, whatever the order of the lines: there is one value per
    kept timestamp, and the values are those of the strictly increasing
    sequence of the keys. *)
Theorem search_sorted_by_timestamp
    (log_timestamp : string → res time) (found : list string)
    (mindiff : time) (l : list string) :
  search log_timestamp found mindiff = Ok l →
  ∃ found2 keys,
    search_dict log_timestamp found mindiff = Ok found2
    ∧ keys ≡ₚ elements (dom found2)
    ∧ StronglySorted Z.lt keys
    ∧ Forall2 (λ k v, found2 !! k = Some v) keys l.
Proof.
  unfold search. intros H.
  apply bind_Ok in H as (m & Hm & [= <-]).
  exists m, (merge_sort Z.le (elements (dom m))).
  split; [done|].
  assert (merge_sort Z.le (elements (dom m)) ≡ₚ elements (dom m)) as Hperm
    by apply merge_sort_Permutation.
  split; [done|]. split.
  - apply StronglySorted_le_lt.
    + apply StronglySorted_merge_sort; apply _.
    + rewrite Hperm. apply NoDup_elements.
  - apply Forall2_fmap_r, Forall_Forall2_diag, Forall_forall.
    intros k Hk. rewrite Hperm in Hk.
    apply elem_of_elements, elem_of_dom in Hk as [v Hv].
    simpl. rewrite Hv. reflexivity.
Qed.

(** The burst of the examples, from its second line on. *)
Lemma search_burst_collapses_witness :
  Forall2 (λ f t, seconds_timestamp f = Ok t) burst_lines [1000; 1100; 1200]
  ∧ 120 ≤ 1000 ∧ all_close 120 1000 [1100; 1200]
  ∧ search seconds_timestamp burst_lines 120
    = Ok ["AOARB|L|MAIN|1000|> heartbeat"].
Proof.
  assert (Forall2 (λ f t, seconds_timestamp f = Ok t) burst_lines
            [1000; 1100; 1200]) as H1 by (repeat constructor).
  assert (120 ≤ 1000) as H2 by lia.
  assert (all_close 120 1000 [1100; 1200]) as H3 by (simpl; lia).
  repeat (split; [assumption|]).
  exact (proj2 (search_burst_collapses seconds_timestamp
                  "AOARB|L|MAIN|1000|> heartbeat" _ 1000 [1100; 1200] 120
                  H1 H2 H3)).
Defined.

Lemma search_keeps_every_timestamp_witness :
  Forall2 (λ f t, seconds_timestamp f = Ok t) ordered_lines [1000; 1100; 1300]
  ∧ 0 ≤ 0 ∧ non_decreasing_from 0 [1000; 1100; 1300]
  ∧ ∃ found2,
      search_dict seconds_timestamp ordered_lines 0 = Ok found2
      ∧ ∀ t, t ∈ dom found2 ↔ t ∈ [1000; 1100; 1300].
Proof.
  assert (Forall2 (λ f t, seconds_timestamp f = Ok t) ordered_lines
            [1000; 1100; 1300]) as H1 by (repeat constructor).
  assert (0 ≤ 0) as H2 by lia.
  assert (non_decreasing_from 0 [1000; 1100; 1300]) as H3 by (simpl; lia).
  repeat (split; [assumption|]).
  exact (search_keeps_every_timestamp seconds_timestamp ordered_lines
           [1000; 1100; 1300] 0 H1 H2 H3).
Defined.

(** A stream that steps back in time comes out in time order. *)
Lemma search_sorted_by_timestamp_witness :
  search seconds_timestamp unordered_lines 120
  = Ok ["AOARB|L|MAIN|1000|> heartbeat"; "AOARB|L|MAIN|1050|> heartbeat"]
  ∧ ∃ found2 keys,
      search_dict seconds_timestamp unordered_lines 120 = Ok found2
      ∧ keys ≡ₚ elements (dom found2)
      ∧ StronglySorted Z.lt keys
      ∧ Forall2 (λ k v, found2 !! k = Some v) keys
          ["AOARB|L|MAIN|1000|> heartbeat"; "AOARB|L|MAIN|1050|> heartbeat"].
Proof.
  assert (search seconds_timestamp unordered_lines 120
          = Ok ["AOARB|L|MAIN|1000|> heartbeat";
                "AOARB|L|MAIN|1050|> heartbeat"]) as H
    by (vm_compute; reflexivity).
  split; [exact H|].
  exact (search_sorted_by_timestamp seconds_timestamp unordered_lines 120 _ H).
Defined.

(** ** [update_cmd_csv] *)

Section CmdCsvFacts.
Variable dayStr hourStr format_d : time → string.
Variable day : string.

Lemma keep_rows_Ok name0 data kept :
  keep_rows day name0 data = Ok kept →
  kept = filter (λ r, kept_row day name0 r = true) data
  ∧ Forall (λ r, readable_row day r = true) data.
Proof.
  revert kept. induction data as [|row data IH]; intros kept H; simpl in H.
  { injection H as <-. done. }
  apply bind_Ok in H as (b1 & H1 & H).
  apply bind_Ok in H as (b & Hb & H).
  apply bind_Ok in H as (kept' & Hk & [= <-]).
  destruct (IH kept' Hk) as [-> Hall].
  unfold other_day_or_command, not_header, py_index in H1, Hb.
  assert (kept_row day name0 row = b ∧ readable_row day row = true)
    as [Hkr Hrr].
  { unfold kept_row, readable_row.
    destruct (row !! 0%nat) as [r0|]; [|discriminate]. simpl in H1, Hb.
    destruct (bool_decide (r0 ≠ day)).
    - injection H1 as <-. injection Hb as <-. by rewrite andb_true_r.
    - destruct (row !! 2%nat) as [r2|]; [|discriminate]. simpl in H1.
      injection H1 as <-. simpl. split; [|done].
      destruct (bool_decide (r2 ≠ name0)); simpl in *.
      + injection Hb as <-. by rewrite andb_true_r.
      + injection Hb as <-. by rewrite andb_false_r. }
  split; [|by constructor].
  destruct b.
  - by rewrite filter_cons_True.
  - by rewrite filter_cons_False by (by rewrite Hkr).
Qed.

Lemma keep_rows_readable name0 data :
  Forall (λ r, readable_row day r = true) data →
  keep_rows day name0 data
  = Ok (filter (λ r, kept_row day name0 r = true) data).
Proof.
  induction 1 as [|row data Hr _ IH]; simpl; [done|].
  rewrite IH. unfold other_day_or_command, not_header, py_index.
  unfold readable_row in Hr.
  destruct (row !! 0%nat) as [r0|] eqn:H0; [|discriminate]. simpl.
  destruct (bool_decide (r0 ≠ day)) eqn:Hd; simpl.
  - destruct (bool_decide (r0 ≠ "day")) eqn:Hh; simpl.
    + rewrite filter_cons_True; [done|]. unfold kept_row.
      by rewrite H0, Hd, Hh.
    + rewrite filter_cons_False; [done|]. unfold kept_row.
      by rewrite H0, Hd, Hh.
  - destruct (row !! 2%nat) as [r2|] eqn:H2; simpl in *; [|discriminate].
    destruct (bool_decide (r2 ≠ name0)) eqn:Hn; simpl.
    + destruct (bool_decide (r0 ≠ "day")) eqn:Hh; simpl.
      * rewrite filter_cons_True; [done|]. unfold kept_row.
        by rewrite H0, H2, Hd, Hh, Hn.
      * rewrite filter_cons_False; [done|]. unfold kept_row.
        by rewrite H0, H2, Hd, Hh.
    + rewrite filter_cons_False; [done|]. unfold kept_row.
      rewrite H0, H2, Hd, Hn. by rewrite andb_false_r.
Qed.

Lemma keep_rows_raises name0 data e :
  keep_rows day name0 data = Raise e → e = IndexError.
Proof.
  induction data as [|row data IH]; simpl; [discriminate|].
  unfold other_day_or_command, not_header, py_index.
  destruct (row !! 0%nat) as [r0|]; simpl; [|congruence].
  destruct (bool_decide (r0 ≠ day)); simpl.
  - destruct (keep_rows day name0 data); simpl; [discriminate | exact IH].
  - destruct (row !! 2%nat) as [r2|]; simpl; [|congruence].
    destruct (bool_decide (r2 ≠ name0)); simpl;
      (destruct (keep_rows day name0 data); simpl; [discriminate | exact IH]).
Qed.

Lemma string_leb_refl s : String.leb s s = true.
Proof. by destruct (String.leb_total s s). Qed.

Lemma insert_row_Permutation x l : insert_row x l ≡ₚ x :: l.
Proof.
  induction l as [|y l IH]; simpl; [done|].
  destruct (String.leb (row_key x) (row_key y)); [done|].
  rewrite IH. apply Permutation_swap.
Qed.

Lemma sort_rows_Permutation l : sort_rows l ≡ₚ l.
Proof.
  induction l as [|x l IH]; simpl; [done|].
  by rewrite insert_row_Permutation, IH.
Qed.

Lemma insert_row_Sorted x l : Sorted key_le l → Sorted key_le (insert_row x l).
Proof.
  induction 1 as [|y l Hs IH Hhd]; simpl.
  { by repeat constructor. }
  destruct (String.leb (row_key x) (row_key y)) eqn:Hxy.
  - constructor; [by constructor|]. by constructor.
  - constructor; [done|].
    assert (key_le y x) as Hyx.
    { unfold key_le. destruct (String.leb_total (row_key x) (row_key y));
        congruence. }
    destruct l as [|z l]; simpl in *; [by constructor|].
    destruct (String.leb (row_key x) (row_key z)); constructor; [done|].
    by inversion Hhd.
Qed.

Lemma sort_rows_Sorted l : Sorted key_le (sort_rows l).
Proof.
  induction l as [|x l IH]; simpl; [constructor | by apply insert_row_Sorted].
Qed.

Lemma insert_row_stable k x l :
  filter (λ r, row_key r = k) (insert_row x l)
  = filter (λ r, row_key r = k) (x :: l).
Proof.
  induction l as [|y l IH]; simpl; [done|].
  destruct (String.leb (row_key x) (row_key y)) eqn:Hxy; [done|].
  assert (row_key y ≠ row_key x) as Hne.
  { intros Heq. rewrite Heq, string_leb_refl in Hxy. discriminate. }
  destruct (decide (row_key x = k)) as [Hx|Hx].
  - rewrite (filter_cons_False _ y) by congruence.
    rewrite IH, (filter_cons_True _ x) by done.
    rewrite (filter_cons_True _ x) by done.
    by rewrite (filter_cons_False _ y) by congruence.
  - rewrite (filter_cons_False _ x (y :: l)) by done.
    destruct (decide (row_key y = k)) as [Hy|Hy].
    + rewrite !(filter_cons_True _ y) by done.
      by rewrite IH, (filter_cons_False _ x) by done.
    + rewrite !(filter_cons_False _ y) by done.
      by rewrite IH, (filter_cons_False _ x) by done.
Qed.

Lemma sort_rows_stable k l :
  filter (λ r, row_key r = k) (sort_rows l) = filter (λ r, row_key r = k) l.
Proof.
  induction l as [|x l IH]; simpl; [done|].
  rewrite insert_row_stable.
  destruct (decide (row_key x = k)).
  - rewrite !(filter_cons_True _ x) by done. by rewrite IH.
  - rewrite !(filter_cons_False _ x) by done. by rewrite IH.
Qed.

Lemma string_leb_trans a b c :
  String.leb a b = true → String.leb b c = true → String.leb a c = true.
Proof.
  unfold String.leb. revert b c.
  induction a as [|x a IH]; intros [|y b] [|z c]; simpl; try done.
  unfold Ascii.compare.
  destruct (N.compare_spec (N_of_ascii x) (N_of_ascii y)) as [Hxy|Hxy|Hxy];
  destruct (N.compare_spec (N_of_ascii y) (N_of_ascii z)) as [Hyz|Hyz|Hyz];
  destruct (N.compare_spec (N_of_ascii x) (N_of_ascii z)) as [Hxz|Hxz|Hxz];
  try done; try lia.
  apply IH.
Qed.

Lemma key_le_trans : Transitive key_le.
Proof. intros a b c. apply string_leb_trans. Qed.

Lemma first_of_key_filter x l y l' :
  filter (λ r, row_key r = row_key y) (x :: l)
  = filter (λ r, row_key r = row_key y) (y :: l') →
  StronglySorted key_le (x :: l) → key_le x y.
Proof.
  intros Hf Hs. assert (y ∈ x :: l) as Hin.
  { rewrite (filter_cons_True _ y) in Hf by done.
    assert (y ∈ filter (λ r, row_key r = row_key y) (x :: l)) as Hy
      by (rewrite Hf; left).
    by apply list_elem_of_filter in Hy as [_ ?]. }
  apply elem_of_cons in Hin as [->|Hin]; [apply string_leb_refl|].
  apply StronglySorted_inv in Hs as [_ Hx].
  rewrite Forall_forall in Hx. by apply Hx.
Qed.

(** Two sorted lists that hold the same rows in the same order under every
    key are the same list. *)
Lemma stable_sorted_unique l1 l2 :
  StronglySorted key_le l1 → StronglySorted key_le l2 →
  (∀ k, filter (λ r, row_key r = k) l1 = filter (λ r, row_key r = k) l2) →
  l1 = l2.
Proof.
  revert l2. induction l1 as [|x l1 IH]; intros l2 H1 H2 Hf.
  { destruct l2 as [|y l2]; [done|].
    specialize (Hf (row_key y)).
    rewrite filter_nil, filter_cons_True in Hf by done. done. }
  destruct l2 as [|y l2].
  { specialize (Hf (row_key x)).
    rewrite filter_nil, filter_cons_True in Hf by done. done. }
  assert (row_key x = row_key y) as Hk.
  { apply String.leb_antisym.
    - by eapply first_of_key_filter.
    - eapply first_of_key_filter; [|done]. symmetry. apply Hf. }
  pose proof (Hf (row_key x)) as Hfx.
  rewrite filter_cons_True in Hfx by done.
  rewrite (filter_cons_True _ y) in Hfx by done.
  injection Hfx as -> Hfx. f_equal.
  apply StronglySorted_inv in H1 as [H1 _].
  apply StronglySorted_inv in H2 as [H2 _].
  apply IH; [done..|]. intros k.
  destruct (decide (row_key y = k)) as [<-|Hne]; [done|].
  specialize (Hf k). by rewrite !filter_cons_False in Hf by done.
Qed.

Lemma sort_rows_StronglySorted l : StronglySorted key_le (sort_rows l).
Proof.
  apply Sorted_StronglySorted; [apply key_le_trans | apply sort_rows_Sorted].
Qed.

Lemma kept_row_readable name0 row :
  kept_row day name0 row = true → readable_row day row = true.
Proof.
  unfold kept_row, readable_row. destruct (row !! 0%nat) as [r0|]; [|done].
  destruct (bool_decide (r0 ≠ day)); [done|]. simpl.
  destruct (row !! 2%nat); [done|]. by rewrite andb_false_r.
Qed.

Lemma cmd_csv_row_fields cmd row :
  cmd_csv_row dayStr hourStr format_d cmd = Some row →
  ∃ s e, cstart cmd = Some s ∧ cend cmd = Some e ∧ csuccess cmd = Some true
    ∧ row = [dayStr s; hourStr s; cname cmd; format_d (e - s)].
Proof.
  unfold cmd_csv_row, truthy. intros H.
  destruct (decide (csuccess cmd = Some true)) as [Hs|Hs].
  - rewrite bool_decide_eq_true_2 in H by done. simpl in H.
    destruct (cend cmd) as [e|]; [|done].
    destruct (cstart cmd) as [s|]; [|done].
    injection H as <-. by exists s, e.
  - rewrite bool_decide_eq_false_2 in H by done. done.
Qed.

Lemma new_rows_readable cmds :
  Forall (λ r, readable_row day r = true)
    (omap (cmd_csv_row dayStr hourStr format_d) cmds).
Proof.
  apply Forall_forall. intros row Hin.
  apply list_elem_of_omap in Hin as (cmd & _ & Hrow).
  apply cmd_csv_row_fields in Hrow as (s & e & _ & _ & _ & ->).
  unfold readable_row. simpl. by rewrite orb_true_r.
Qed.

Lemma new_rows_of_run name0 cmds :
  one_day_and_command dayStr day name0 cmds →
  Forall (λ r, kept_row day name0 r = false)
    (omap (cmd_csv_row dayStr hourStr format_d) cmds).
Proof.
  intros Hrun. apply Forall_forall. intros row Hin.
  apply list_elem_of_omap in Hin as (cmd & Hcmd & Hrow).
  apply cmd_csv_row_fields in Hrow as (s & e & Hs & _ & _ & ->).
  unfold one_day_and_command in Hrun. rewrite Forall_forall in Hrun.
  destruct (Hrun cmd Hcmd) as [Hn Hd]. specialize (Hd s Hs).
  unfold kept_row. simpl. rewrite Hd, Hn.
  rewrite (bool_decide_eq_false_2 (day ≠ day)) by (intros ?; done).
  rewrite (bool_decide_eq_false_2 (name0 ≠ name0)) by (intros ?; done).
  by rewrite andb_false_r.
Qed.

Lemma filter_none {A} (P : A → Prop) `{∀ x, Decision (P x)} (l : list A) :
  Forall (λ x, ¬ P x) l → filter P l = [].
Proof.
  induction 1 as [|x l Hx _ IH]; [done|]. by rewrite filter_cons_False.
Qed.

Lemma filter_all {A} (P : A → Prop) `{∀ x, Decision (P x)} (l : list A) :
  Forall P l → filter P l = l.
Proof.
  induction 1 as [|x l Hx _ IH]; [done|]. by rewrite filter_cons_True, IH.
Qed.

Lemma filter_comm {A} (P Q : A → Prop) `{∀ x, Decision (P x)}
    `{∀ x, Decision (Q x)} (l : list A) :
  filter P (filter Q l) = filter Q (filter P l).
Proof.
  induction l as [|x l IH]; [done|].
  destruct (decide (P x)), (decide (Q x));
    repeat first [ rewrite filter_cons_True by done
                 | rewrite filter_cons_False by done ];
    by rewrite ?IH.
Qed.

(** X18.  When every row of the file can be read, a run with at least
    one command writes the header, then the rows it keeps and its own rows,
    ordered by day; rows of one day stay in their order, those of the file
    before those of the run. *)
Theorem update_cmd_csv_writes data cmd0 rest :
  Forall (λ r, readable_row day r = true) data →
  ∃ body,
    update_cmd_csv dayStr hourStr format_d day data (cmd0 :: rest)
    = Ok (Some (cmd_csv_header :: body))
    ∧ body ≡ₚ filter (λ r, kept_row day (cname cmd0) r = true) data
              ++ omap (cmd_csv_row dayStr hourStr format_d) (cmd0 :: rest)
    ∧ Sorted key_le body
    ∧ ∀ k, filter (λ r, row_key r = k) body
           = filter (λ r, row_key r = k)
               (filter (λ r, kept_row day (cname cmd0) r = true) data)
             ++ filter (λ r, row_key r = k)
                  (omap (cmd_csv_row dayStr hourStr format_d) (cmd0 :: rest)).
Proof.
  intros Hr. eexists. unfold update_cmd_csv.
  rewrite (keep_rows_readable _ _ Hr). cbn [mbind res_bind].
  split; [reflexivity|]. split; [apply sort_rows_Permutation|].
  split; [apply sort_rows_Sorted|].
  intros k. by rewrite sort_rows_stable, filter_app.
Qed.

(** X19.  The rows are read before anything is formatted.  Reading them
    raises only IndexError, and exactly for a row that cannot be read: a
    blank line, or a row of the day with fewer than three fields.  With at
    least one command such a row makes the run raise IndexError; without a
    command the run returns before the rows are looked at. *)
Theorem update_cmd_csv_unreadable_row data cmd0 rest :
  (∀ e, keep_rows day (cname cmd0) data = Raise e
        ↔ e = IndexError ∧ Exists (λ r, readable_row day r = false) data)
  ∧ (Exists (λ r, readable_row day r = false) data →
     update_cmd_csv dayStr hourStr format_d day data (cmd0 :: rest)
     = Raise IndexError)
  ∧ update_cmd_csv dayStr hourStr format_d day data [] = Ok None.
Proof.
  assert (∀ e, keep_rows day (cname cmd0) data = Raise e
               ↔ e = IndexError
                 ∧ Exists (λ r, readable_row day r = false) data) as Hk.
  { intros e. split.
    - intros H. pose proof (keep_rows_raises _ _ _ H) as ->.
      split; [done|].
      destruct (decide (Forall (λ r, readable_row day r = true) data))
        as [Hall|Hn].
      { rewrite (keep_rows_readable _ _ Hall) in H. discriminate. }
      apply not_Forall_Exists in Hn; [|apply _].
      eapply Exists_impl; [exact Hn|]. intros r Hr. simpl in Hr.
      by destruct (readable_row day r).
    - intros (-> & Hex).
      destruct (keep_rows day (cname cmd0) data) as [kept|e] eqn:H.
      + apply keep_rows_Ok in H as [_ Hall]. exfalso.
        apply Exists_exists in Hex as (r & Hin & Hr).
        rewrite Forall_forall in Hall. specialize (Hall r Hin). congruence.
      + by rewrite (keep_rows_raises _ _ _ H). }
  split; [exact Hk|]. split; [|done].
  intros Hex. unfold update_cmd_csv.
  by rewrite (proj2 (Hk IndexError) (conj eq_refl Hex)).
Qed.

(** X20.  A run replaces the rows of its day and command: in the written
    body the rows with that day and command are the rows of the run, in
    the order of its commands. *)
Theorem update_cmd_csv_replaces_run data cmd0 rest body :
  update_cmd_csv dayStr hourStr format_d day data (cmd0 :: rest)
  = Ok (Some (cmd_csv_header :: body)) →
  filter (row_of_run day (cname cmd0)) body
  = filter (row_of_run day (cname cmd0))
      (omap (cmd_csv_row dayStr hourStr format_d) (cmd0 :: rest)).
Proof.
  unfold update_cmd_csv. intros H.
  apply bind_Ok in H as (kept & Hk & [= <-]).
  apply keep_rows_Ok in Hk as [-> _].
  set (new := omap _ _).
  assert (∀ l : list (list string), filter (row_of_run day (cname cmd0)) l
               = filter (row_of_run day (cname cmd0))
                   (filter (λ r, row_key r = day) l)) as Hkey.
  { intros l. induction l as [|r l IH]; [done|].
    destruct (decide (row_key r = day)) as [Hd|Hd].
    - rewrite (filter_cons_True (λ r, row_key r = day)) by done.
      destruct (decide (row_of_run day (cname cmd0) r)).
      + rewrite !(filter_cons_True (row_of_run _ _)) by done. by rewrite IH.
      + rewrite !(filter_cons_False (row_of_run _ _)) by done. by rewrite IH.
    - rewrite (filter_cons_False (λ r, row_key r = day)) by done.
      rewrite filter_cons_False; [done|]. intros [H0 _]. apply Hd.
      destruct r; [done|]. simpl in *. congruence. }
  rewrite Hkey, sort_rows_stable, <- Hkey, filter_app.
  rewrite (filter_none (row_of_run day (cname cmd0))); [done|].
  apply Forall_forall. intros r Hin [H0 H2].
  apply list_elem_of_filter in Hin as [Hkept _].
  unfold kept_row in Hkept. rewrite H0, H2 in Hkept.
  rewrite (bool_decide_eq_false_2 (day ≠ day)) in Hkept by (intros ?; done).
  rewrite (bool_decide_eq_false_2 (cname cmd0 ≠ cname cmd0)) in Hkept
    by (intros ?; done).
  by rewrite andb_false_r in Hkept.
Qed.

(** X21.  A second run of the same commands on the file the first run
    wrote writes the same file again, when the commands share their name
    and started on the day of the run. *)
Theorem update_cmd_csv_rerun data cmd0 rest out :
  one_day_and_command dayStr day (cname cmd0) (cmd0 :: rest) →
  update_cmd_csv dayStr hourStr format_d day data (cmd0 :: rest)
  = Ok (Some out) →
  update_cmd_csv dayStr hourStr format_d day out (cmd0 :: rest)
  = Ok (Some out).
Proof.
  intros Hrun H. unfold update_cmd_csv in *.
  apply bind_Ok in H as (kept & Hk & [= <-]).
  apply keep_rows_Ok in Hk as [-> _].
  set (K := filter _ data). set (new := omap _ _).
  assert (Forall (λ r, readable_row day r = true) K) as HK.
  { apply Forall_forall. intros r Hin.
    apply list_elem_of_filter in Hin as [Hkept _].
    by eapply kept_row_readable. }
  assert (Forall (λ r, readable_row day r = true)
            (cmd_csv_header :: sort_rows (K ++ new))) as Hread.
  { constructor.
    - unfold readable_row. simpl. by rewrite orb_true_r.
    - rewrite sort_rows_Permutation. apply Forall_app. split; [done|].
      apply new_rows_readable. }
  rewrite (keep_rows_readable _ _ Hread). cbn [mbind res_bind].
  rewrite filter_cons_False by (unfold kept_row; simpl; by intros ?).
  do 3 f_equal. fold new.
  apply stable_sorted_unique; [apply sort_rows_StronglySorted..|].
  intros k. rewrite !sort_rows_stable, !filter_app. f_equal.
  rewrite filter_comm, sort_rows_stable, filter_app.
  rewrite filter_app.
  rewrite (filter_none (λ r, kept_row day (cname cmd0) r = true)
             (filter _ new)).
  - rewrite app_nil_r, filter_comm. f_equal. unfold K.
    by rewrite list_filter_filter_l by done.
  - apply Forall_forall. intros r Hin.
    apply list_elem_of_filter in Hin as [_ Hin].
    pose proof (new_rows_of_run _ _ Hrun) as Hnew.
    rewrite Forall_forall in Hnew. specialize (Hnew r Hin). congruence.
Qed.
End CmdCsvFacts.

(** A blank line in the file stops the sample run. *)
Example update_cmd_csv_blank_line :
  update_cmd_csv sample_dayStr sample_hourStr sample_format_d "20200101"
    blank_line_file sample_run
  = Raise IndexError.
Proof. reflexivity. Qed.

Lemma update_cmd_csv_unreadable_row_witness :
  Exists (λ r, readable_row "20200101" r = false) blank_line_file
  ∧ update_cmd_csv sample_dayStr sample_hourStr sample_format_d "20200101"
      blank_line_file sample_run
    = Raise IndexError.
Proof.
  assert (Exists (λ r, readable_row "20200101" r = false) blank_line_file)
    as H by (right; left; reflexivity).
  split; [exact H|].
  exact (proj1 (proj2 (update_cmd_csv_unreadable_row sample_dayStr
                         sample_hourStr sample_format_d "20200101"
                         blank_line_file PresetAO_done [PresetAO_failed]))
           H).
Defined.

Lemma update_cmd_csv_writes_witness :
  Forall (λ r, readable_row "20200101" r = true) sample_cmd_file
  ∧ ∃ body,
      update_cmd_csv sample_dayStr sample_hourStr sample_format_d "20200101"
        sample_cmd_file sample_run
      = Ok (Some (cmd_csv_header :: body))
      ∧ Sorted key_le body.
Proof.
  assert (Forall (λ r, readable_row "20200101" r = true) sample_cmd_file)
    as H by (repeat constructor).
  split; [exact H|].
  destruct (update_cmd_csv_writes sample_dayStr sample_hourStr
              sample_format_d "20200101" sample_cmd_file PresetAO_done
              [PresetAO_failed] H) as (body & Hb & _ & Hs & _).
  exists body. split; [exact Hb | exact Hs].
Defined.

Lemma update_cmd_csv_replaces_run_witness :
  update_cmd_csv sample_dayStr sample_hourStr sample_format_d "20200101"
    sample_cmd_file sample_run
  = Ok (Some (cmd_csv_header :: sample_written_body))
  ∧ filter (row_of_run "20200101" "PresetAO") sample_written_body
    = filter (row_of_run "20200101" "PresetAO")
        (omap (cmd_csv_row sample_dayStr sample_hourStr sample_format_d)
           sample_run).
Proof.
  assert (update_cmd_csv sample_dayStr sample_hourStr sample_format_d
            "20200101" sample_cmd_file sample_run
          = Ok (Some (cmd_csv_header :: sample_written_body))) as H
    by reflexivity.
  split; [exact H|].
  exact (update_cmd_csv_replaces_run sample_dayStr sample_hourStr
           sample_format_d "20200101" sample_cmd_file PresetAO_done
           [PresetAO_failed] sample_written_body H).
Defined.

Lemma update_cmd_csv_rerun_witness :
  one_day_and_command sample_dayStr "20200101" "PresetAO" sample_run
  ∧ update_cmd_csv sample_dayStr sample_hourStr sample_format_d "20200101"
      sample_cmd_file sample_run
    = Ok (Some (cmd_csv_header :: sample_written_body))
  ∧ update_cmd_csv sample_dayStr sample_hourStr sample_format_d "20200101"
      (cmd_csv_header :: sample_written_body) sample_run
    = Ok (Some (cmd_csv_header :: sample_written_body)).
Proof.
  assert (one_day_and_command sample_dayStr "20200101" "PresetAO" sample_run)
    as H1.
  { repeat constructor; intros s [= <-]; reflexivity. }
  assert (update_cmd_csv sample_dayStr sample_hourStr sample_format_d
            "20200101" sample_cmd_file sample_run
          = Ok (Some (cmd_csv_header :: sample_written_body))) as H2
    by reflexivity.
  split; [exact H1|]. split; [exact H2|].
  exact (update_cmd_csv_rerun sample_dayStr sample_hourStr sample_format_d
           "20200101" sample_cmd_file PresetAO_done [PresetAO_failed]
           (cmd_csv_header :: sample_written_body) H1 H2).
Defined.

(** ** The events of the report *)

Lemma count_char_app c a b :
  count_char c (a +:+ b) = (count_char c a + count_char c b)%nat.
Proof. induction a as [|d a IH]; simpl; [done|]. rewrite IH. lia. Qed.

Lemma split_on_length c s :
  List.length (split_on c s) = S (count_char c s).
Proof.
  induction s as [|d s IH]; simpl; [done|].
  destruct (Ascii.eqb d c); simpl; [by rewrite IH|].
  destruct (split_on c s); simpl in *; [done|]. by rewrite IH.
Qed.

Lemma split_on_without c s : count_char c s = 0%nat → split_on c s = [s].
Proof.
  induction s as [|d s IH]; simpl; [done|].
  destruct (Ascii.eqb d c); simpl; [done|]. intros H. by rewrite IH.
Qed.

Lemma split_on_at c a b :
  count_char c a = 0%nat →
  split_on c (a +:+ String c b) = a :: split_on c b.
Proof.
  induction a as [|d a IH]; simpl.
  - intros _. by rewrite Ascii.eqb_refl.
  - destruct (Ascii.eqb d c); simpl; [done|]. intros H. by rewrite IH.
Qed.

(** A line splits in two exactly when it holds the separator once. *)
Lemma split_on_two c s a b :
  split_on c s = [a; b]
  ↔ s = a +:+ String c b ∧ count_char c a = 0%nat ∧ count_char c b = 0%nat.
Proof.
  split.
  - intros H. assert (s = a +:+ String c b) as ->.
    { rewrite <- (join_split_on_eq c s), H. done. }
    split; [done|].
    pose proof (split_on_length c (a +:+ String c b)) as Hl.
    rewrite H, count_char_app in Hl. simpl in Hl.
    rewrite Ascii.eqb_refl in Hl. lia.
  - intros (-> & Ha & Hb). by rewrite split_on_at, split_on_without.
Qed.






Section EventFacts.
Variable log_timestamp : string → res time.
Variable py_int : string → res Z.

(** X22.  A SkipFrame line gives an event exactly when, once its arrows
    are rewritten, it holds one greater-than sign; the details are the text
    after it.  Any other line with a timestamp raises ValueError. *)
Theorem SkipFrameEvent_fromLogLine_one_sign line t :
  log_timestamp line = Ok t →
  (∀ ev, SkipFrameEvent_fromLogLine log_timestamp line = Ok ev
         ↔ ∃ log msg,
             replace2 "-" ">" "--" line = log +:+ String ">" msg
             ∧ count_char ">" log = 0%nat ∧ count_char ">" msg = 0%nat
             ∧ ev = SkipFrameEvent t msg)
  ∧ (count_char ">" (replace2 "-" ">" "--" line) ≠ 1%nat →
     SkipFrameEvent_fromLogLine log_timestamp line = Raise ValueError).
Proof.
  intros Ht. unfold SkipFrameEvent_fromLogLine. rewrite Ht.
  cbn [mbind res_bind]. set (l := replace2 _ _ _ line). split.
  - intros ev. split.
    + intros H. destruct (split_on ">" l) as [|a [|b [|? ?]]] eqn:Hs;
        try discriminate.
      injection H as <-. apply split_on_two in Hs as (? & ? & ?).
      by exists a, b.
    + intros (a & b & Hl & Ha & Hb & ->).
      by rewrite (proj2 (split_on_two ">" l a b)).
  - intros Hc. pose proof (split_on_length ">" l) as Hl.
    destruct (split_on ">" l) as [|a [|b [|? ?]]]; try done.
    simpl in Hl. lia.
Qed.


(** X24.  A line with a timestamp always gives a RIP event, and the event
    names a process exactly when the line holds one underscore. *)
Theorem RIPEvent_fromLogLine_details line t :
  log_timestamp line = Ok t →
  ∃ d, RIPEvent_fromLogLine log_timestamp line = Ok (RIPEvent t d)
       ∧ (d ≠ "" ↔ count_char "_" line = 1%nat).
Proof.
  intros Ht. unfold RIPEvent_fromLogLine. rewrite Ht. cbn [mbind res_bind].
  pose proof (split_on_length "_" line) as Hl.
  destruct (split_on "_" line) as [|a [|b [|? ?]]]; simpl in Hl.
  - eexists. split; [done|]. split; [done | lia].
  - eexists. split; [done|]. split; [done | lia].
  - eexists. split; [done|]. split; [intros _; lia | done].
  - eexists. split; [done|]. split; [done | lia].
Qed.
End EventFacts.

Lemma SkipFrameEvent_fromLogLine_one_sign_witness :
  seconds_timestamp skip_frame_line = Ok 1000
  ∧ SkipFrameEvent_fromLogLine seconds_timestamp skip_frame_line
    = Ok (SkipFrameEvent 1000 " loop -- SkipFrame").
Proof.
  assert (seconds_timestamp skip_frame_line = Ok 1000) as H by reflexivity.
  split; [exact H|].
  apply (proj1 (SkipFrameEvent_fromLogLine_one_sign seconds_timestamp
                  skip_frame_line 1000 H)).
  exists "AOARB|L|MAIN|1000|", " loop -- SkipFrame".
  repeat split; reflexivity.
Defined.


Lemma RIPEvent_fromLogLine_details_witness :
  seconds_timestamp rip_line = Ok 1000
  ∧ ∃ d, RIPEvent_fromLogLine seconds_timestamp rip_line
         = Ok (RIPEvent 1000 d)
         ∧ (d ≠ "" ↔ count_char "_" rip_line = 1%nat).
Proof.
  assert (seconds_timestamp rip_line = Ok 1000) as H by reflexivity.
  split; [exact H|].
  exact (RIPEvent_fromLogLine_details seconds_timestamp rip_line 1000 H).
Defined.

(** A line of the log gives the event of actuator 123; without the space
    before the number the pattern does not match. *)
Example FailedActuatorEvent_fromLogLine_lines :
  FailedActuatorEvent_fromLogLine seconds_timestamp digits_int actuator_line
  = Ok (FailedActuatorEvent 1000
          "Act: 123 -  Failing actuator detected N. 123 (current)"
          (Some 123))
  ∧ FailedActuatorEvent_fromLogLine seconds_timestamp digits_int
      no_space_actuator_line
    = Raise UnboundLocalError.
Proof. split; reflexivity. Qed.

(** ** [get_AOARB_cmds] *)

Section GetCmdsFacts.
Variable log_timestamp : string → res time.
Variable py_float : string → res pyfloat.
Variable py_int : string → res Z.

Lemma arb_touched_refl st : arb_touched st st.
Proof. split; [done|]. split; [done|]. by exists []. Qed.

Lemma with_curCmd_touched st f st' :
  with_curCmd st f = Ok st' →
  (∀ d, name (f d) = name d ∧ args (f d) = args d
        ∧ start_time (f d) = start_time d
        ∧ ((success d = Some true → is_Some (end_time d))
           → success (f d) = Some true → is_Some (end_time (f d)))) →
  arb_touched st st'.
Proof.
  unfold with_curCmd. destruct (a_curCmd st) as [i|] eqn:Hc; [|discriminate].
  intros [= <-] Hf. split; [done|]. split; [done|].
  exists [(i, f)]. split; [done|]. by constructor.
Qed.

Lemma arb_touched_trans st1 st2 st3 :
  arb_touched st1 st2 → arb_touched st2 st3 → arb_touched st1 st3.
Proof.
  intros (Hc1 & Hu1 & fs1 & Hh1 & Hf1) (Hc2 & Hu2 & fs2 & Hh2 & Hf2).
  split; [congruence|]. split; [congruence|].
  exists (fs2 ++ fs1). split.
  - by rewrite foldr_app, <- Hh1.
  - by apply Forall_app.
Qed.

Lemma arb_end_touched st line st' :
  arb_end log_timestamp st line = Ok st' → arb_touched st st'.
Proof.
  unfold arb_end. intros H.
  apply bind_Ok in H as (t & _ & H).
  apply bind_Ok in H as (st1 & H1 & H).
  apply with_curCmd_touched in H1; [|intros d; simpl; by eauto].
  eapply arb_touched_trans; [exact H1|].
  destruct (contains readyForStartStr line); [|injection H as <-;
                                                 apply arb_touched_refl].
  destruct (a_lastAcquireRef st1) as [i|];
    [|injection H as <-; apply arb_touched_refl].
  injection H as <-. split; [done|]. split; [done|].
  exists [(i, set_end_time (Some t))]. split; [done|].
  constructor; [|done]. intros d. simpl. by eauto.
Qed.

Lemma arb_body_other_touched st line st' :
  is_request_marker line = false →
  arb_body log_timestamp py_float py_int st line = Ok st' →
  arb_touched st st'.
Proof.
  unfold is_request_marker, arb_body. intros -> H.
  destruct (_ || _); [by eapply arb_end_touched|].
  repeat match type of H with
         | (if ?b then _ else _) = _ => destruct b
         | mbind _ _ = Ok _ => apply bind_Ok in H as (? & _ & H)
         | with_curCmd _ _ = Ok _ =>
             eapply with_curCmd_touched; [exact H|]; intros d; simpl;
             by eauto
         end.
  injection H as <-. apply arb_touched_refl.
Qed.

Lemma arb_touched_inv reqs st st' :
  arb_touched st st' →
  arb_inv log_timestamp reqs st → arb_inv log_timestamp reqs st'.
Proof.
  intros (Hc & Hu & fs & Hh & Hfs) [HF Hseq].
  assert (Forall2 (command_of_request log_timestamp) (a_heap st') reqs
          ∧ List.length (a_heap st') = List.length (a_heap st)) as [HF' Hl].
  { rewrite Hh. clear Hh. induction Hfs as [|[i f] fs Hf _ IH]; simpl.
    - done.
    - destruct IH as [IH1 IH2]. split; [|by rewrite length_alter].
      apply Forall2_alter_l; [done|].
      intros d line _ _ (Hp & Ht & Hs).
      destruct (Hf d) as (Hn & Ha & Hst & Hsu).
      unfold command_of_request. rewrite Hn, Ha, Hst. auto. }
  split; [done|]. rewrite Hl, <- Hseq.
  unfold store_curCmd. rewrite Hu, Hc.
  by destruct (a_curCmd st).
Qed.

Lemma store_curCmd_heap st : a_heap (store_curCmd st) = a_heap st.
Proof. unfold store_curCmd. by destruct (a_curCmd st). Qed.

Lemma store_curCmd_None st : a_curCmd (store_curCmd st) = None.
Proof. unfold store_curCmd. by destruct (a_curCmd st) eqn:H. Qed.

Lemma store_curCmd_idem st : store_curCmd (store_curCmd st) = store_curCmd st.
Proof.
  unfold store_curCmd at 1. by rewrite store_curCmd_None.
Qed.

Lemma new_curCmd_heap st n a t :
  a_heap (new_curCmd st n a t)
  = a_heap st ++ [new_ArbCmd n a (Some t) None None ""].
Proof. reflexivity. Qed.

Lemma new_curCmd_cmds st n a t :
  a_cmds (store_curCmd (new_curCmd st n a t))
  = a_cmds st ++ [List.length (a_heap st)].
Proof. reflexivity. Qed.

Lemma arb_try_inv reqs st line st' :
  arb_inv log_timestamp reqs st →
  arb_try log_timestamp py_float py_int st line = Ok st' →
  arb_inv log_timestamp
    (reqs ++ if well_formed_request line then [line] else []) st'.
Proof.
  intros Hinv H. unfold arb_try in H.
  destruct (arb_body log_timestamp py_float py_int st line) as [st1|e]
    eqn:Hb; [|by destruct (a_args st)].
  injection H as ->.
  unfold well_formed_request.
  destruct (is_request_marker line) eqn:Hm; simpl.
  2:{ rewrite app_nil_r. eapply arb_touched_inv; [|done].
      by eapply arb_body_other_touched. }
  unfold arb_body in Hb. unfold is_request_marker in Hm. rewrite Hm in Hb.
  unfold arb_request in Hb.
  destruct (contains "getLastImage" line); simpl.
  { injection Hb as <-. by rewrite app_nil_r. }
  apply bind_Ok in Hb as (t & Ht & Hb).
  destruct Hinv as [HF Hseq].
  destruct (parse_request line) as [[n a]|] eqn:Hp.
  - injection Hb as <-.
    rewrite bool_decide_eq_true_2 by done.
    split.
    + rewrite new_curCmd_heap, store_curCmd_heap.
      apply Forall2_app; [done|].
      constructor; [|done]. unfold command_of_request. simpl.
      split; [done|]. split; [by exists t | done].
    + rewrite new_curCmd_cmds, new_curCmd_heap, Hseq, store_curCmd_heap.
      rewrite length_app. simpl. by rewrite Nat.add_1_r, seq_S.
  - injection Hb as <-.
    rewrite bool_decide_eq_false_2 by (by intros [? ?]).
    rewrite app_nil_r. split.
    + cbn [a_heap]. by rewrite store_curCmd_heap.
    + unfold store_curCmd at 1. cbn [a_curCmd a_heap].
      rewrite store_curCmd_None. cbn [a_cmds].
      by rewrite Hseq, store_curCmd_heap.
Qed.

Lemma arb_loop_inv lines : ∀ reqs st st',
  arb_inv log_timestamp reqs st →
  foldM (arb_try log_timestamp py_float py_int) st lines = Ok st' →
  arb_inv log_timestamp
    (reqs ++ filter (λ l, well_formed_request l = true) lines) st'.
Proof.
  induction lines as [|line lines IH]; intros reqs st st' Hinv H; simpl in H.
  { injection H as <-. by rewrite app_nil_r. }
  apply bind_Ok in H as (st1 & H1 & H).
  pose proof (arb_try_inv _ _ _ _ Hinv H1) as Hinv1.
  specialize (IH _ _ _ Hinv1 H).
  destruct (well_formed_request line) eqn:Hw.
  - rewrite filter_cons_True by done.
    by rewrite <- app_assoc in IH.
  - rewrite filter_cons_False by (by rewrite Hw).
    by rewrite app_nil_r in IH.
Qed.

Lemma arb_inv_init : arb_inv log_timestamp [] arb_init.
Proof. split; [constructor | done]. Qed.

Lemma omap_lookup_seq_from {A B} (f : A → B) (l pre : list A) :
  omap (λ i, f <$> (pre ++ l) !! i) (seq (List.length pre) (List.length l))
  = f <$> l.
Proof.
  revert pre. induction l as [|x l IH]; intros pre; [done|].
  cbn [List.length seq]. rewrite fmap_cons.
  change (omap ?g (?i :: ?r)) with
    (match g i with Some y => y :: omap g r | None => omap g r end).
  cbn beta. rewrite list_lookup_middle by done. cbn [fmap option_fmap option_map].
  f_equal. specialize (IH (pre ++ [x])).
  rewrite <- app_assoc, length_app in IH. simpl in IH.
  by rewrite Nat.add_1_r in IH.
Qed.

Lemma omap_lookup_seq {A B} (f : A → B) (l : list A) :
  omap (λ i, f <$> l !! i) (seq 0 (List.length l)) = f <$> l.
Proof. apply (omap_lookup_seq_from f l []). Qed.

(** What the loop returns is the store, in the order of creation. *)
Lemma AOARB_cmds_of_lines_Ok lines cmds :
  AOARB_cmds_of_lines log_timestamp py_float py_int lines = Ok cmds →
  ∃ st,
    foldM (arb_try log_timestamp py_float py_int) arb_init lines = Ok st
    ∧ arb_inv log_timestamp
        (filter (λ l, well_formed_request l = true) lines) st
    ∧ cmds = Cmd <$> a_heap st.
Proof.
  unfold AOARB_cmds_of_lines. intros H.
  apply bind_Ok in H as (st & Hst & [= <-]). exists st. split; [done|].
  pose proof (arb_loop_inv lines [] _ _ arb_inv_init Hst) as Hinv.
  simpl in Hinv. split; [done|].
  destruct Hinv as [_ Hseq]. rewrite Hseq, store_curCmd_heap.
  apply omap_lookup_seq.
Qed.

(** X25.  When [get_AOARB_cmds] returns, its commands are, in their
    order, the requests that the patterns can read among the lines that
    [search] hands to the loop (a line that [search] drops, for a
    timestamp that steps back or is already taken, is not among them):
    each command has the name and the arguments of its line and started at
    the time of that line, and a command marked as succeeded has an end
    time. *)
Theorem get_AOARB_cmds_are_the_requests found cmds :
  get_AOARB_cmds log_timestamp py_float py_int found = Ok cmds →
  ∃ lines ds,
    search log_timestamp found 0 = Ok lines
    ∧ cmds = Cmd <$> ds
    ∧ Forall2 (command_of_request log_timestamp) ds
        (filter (λ l, well_formed_request l = true) lines).
Proof.
  unfold get_AOARB_cmds. intros H.
  apply bind_Ok in H as (lines & Hs & H).
  apply AOARB_cmds_of_lines_Ok in H as (st & _ & [HF _] & ->).
  by exists lines, (a_heap st).
Qed.

Lemma arb_try_ignored st l :
  ignored_line l → arb_try log_timestamp py_float py_int st l = Ok st.
Proof.
  unfold arb_try, arb_body. intros [Hn | [Hm Hg]].
  - unfold no_marker, markers in Hn.
    repeat match goal with
           | H : Forall _ (_ :: _) |- _ =>
               apply Forall_cons in H as [? H]
           end.
    by repeat match goal with
              | H : contains _ l = false |- _ => rewrite H; clear H
              end.
  - unfold is_request_marker in Hm. rewrite Hm. unfold arb_request.
    by rewrite Hg.
Qed.




Lemma AOARB_cmds_of_lines_ignored pre l post :
  ignored_line l →
  AOARB_cmds_of_lines log_timestamp py_float py_int (pre ++ l :: post)
  = AOARB_cmds_of_lines log_timestamp py_float py_int (pre ++ post).
Proof.
  intros Hl. unfold AOARB_cmds_of_lines. rewrite !foldM_app.
  destruct (foldM _ arb_init pre) as [st|e]; cbn [mbind res_bind foldM];
    [|done].
  by rewrite (arb_try_ignored _ _ Hl).
Qed.

(** X27.  Of the lines that [search] hands to the loop, those without any
    of the texts and the requests for the last image change nothing:
    [get_AOARB_cmds] returns what its loop returns on the other lines. *)
Theorem get_AOARB_cmds_ignored_line found pre l post :
  search log_timestamp found 0 = Ok (pre ++ l :: post) →
  ignored_line l →
  get_AOARB_cmds log_timestamp py_float py_int found
  = AOARB_cmds_of_lines log_timestamp py_float py_int (pre ++ post).
Proof.
  intros Hs Hl. unfold get_AOARB_cmds. rewrite Hs. cbn [mbind res_bind].
  by apply AOARB_cmds_of_lines_ignored.
Qed.






End GetCmdsFacts.

Lemma get_AOARB_cmds_are_the_requests_witness :
  get_AOARB_cmds seconds_timestamp float digits_int
    [acquire_request; heartbeat_line; acquire_status]
  = Ok [Cmd (mkCmd "AcquireRefAO" "" (Some 1000) (Some 1010) (Some true) ""
               None None None None)]
  ∧ ∃ lines ds,
      search seconds_timestamp
        [acquire_request; heartbeat_line; acquire_status] 0 = Ok lines
      ∧ [Cmd (mkCmd "AcquireRefAO" "" (Some 1000) (Some 1010) (Some true) ""
                None None None None)] = Cmd <$> ds
      ∧ Forall2 (command_of_request seconds_timestamp) ds
          (filter (λ l, well_formed_request l = true) lines).
Proof.
  assert (get_AOARB_cmds seconds_timestamp float digits_int
            [acquire_request; heartbeat_line; acquire_status]
          = Ok [Cmd (mkCmd "AcquireRefAO" "" (Some 1000) (Some 1010)
                       (Some true) "" None None None None)]) as H
    by (vm_compute; reflexivity).
  split; [exact H|].
  exact (get_AOARB_cmds_are_the_requests seconds_timestamp float digits_int
           _ _ H).
Defined.


Lemma get_AOARB_cmds_ignored_line_witness :
  search seconds_timestamp
    [acquire_request; heartbeat_line; acquire_status] 0
  = Ok ([acquire_request] ++ heartbeat_line :: [acquire_status])
  ∧ ignored_line heartbeat_line
  ∧ get_AOARB_cmds seconds_timestamp float digits_int
      [acquire_request; heartbeat_line; acquire_status]
    = AOARB_cmds_of_lines seconds_timestamp float digits_int
        ([acquire_request] ++ [acquire_status]).
Proof.
  assert (search seconds_timestamp
            [acquire_request; heartbeat_line; acquire_status] 0
          = Ok ([acquire_request] ++ heartbeat_line :: [acquire_status]))
    as H1 by (vm_compute; reflexivity).
  assert (ignored_line heartbeat_line) as H2
    by (left; by repeat constructor).
  split; [exact H1|]. split; [exact H2|].
  exact (get_AOARB_cmds_ignored_line seconds_timestamp float digits_int
           _ [acquire_request] heartbeat_line [acquire_status] H1 H2).
Defined.


(** ** [outputEvents] *)

Lemma events_by_time_snoc events x :
  events_by_time (events ++ [x]) = <[ev_t x := x]> (events_by_time events).
Proof. unfold events_by_time. by rewrite foldl_app. Qed.

Lemma events_by_time_lookup events t e :
  events_by_time events !! t = Some e
  ↔ ev_t e = t ∧ last_of_its_time events e.
Proof.
  unfold last_of_its_time.
  induction events as [|x events IH] using rev_ind.
  { unfold events_by_time. simpl. rewrite lookup_empty. split; [done|].
    intros (_ & pre & post & H & _). by destruct pre. }
  rewrite events_by_time_snoc.
  destruct (decide (ev_t x = t)) as [Hx|Hx].
  - rewrite Hx, lookup_insert_eq. split.
    + intros [= <-]. split; [done|]. by exists events, [].
    + intros (He & pre & post & Hl & Hpost).
      destruct post as [|y post _] using rev_ind.
      * apply app_inj_tail in Hl as [_ ->]. done.
      * rewrite app_comm_cons, app_assoc in Hl.
        apply app_inj_tail in Hl as [_ ->].
        apply Forall_app in Hpost as [_ Hy].
        apply Forall_cons in Hy as [Hy _]. congruence.
  - rewrite lookup_insert_ne by done. rewrite IH. split.
    + intros (He & pre & post & -> & Hpost). split; [done|].
      exists pre, (post ++ [x]). split; [by rewrite <- app_assoc|].
      apply Forall_app. split; [done|]. constructor; [congruence | done].
    + intros (He & pre & post & Hl & Hpost). split; [done|].
      destruct post as [|y post _] using rev_ind.
      * apply app_inj_tail in Hl as [_ ->]. done.
      * rewrite app_comm_cons, app_assoc in Hl.
        apply app_inj_tail in Hl as [-> ->].
        apply Forall_app in Hpost as [Hpost _]. by exists pre, post.
Qed.

Lemma omap_lookup_times (m : gmap Z Event) (keys : list Z) :
  (∀ k e, m !! k = Some e → ev_t e = k) →
  Forall (λ k, is_Some (m !! k)) keys →
  ev_t <$> omap (λ k, m !! k) keys = keys.
Proof.
  intros Hm. induction 1 as [|k keys [e He] _ IH]; [done|].
  change (omap ?g (?i :: ?r)) with
    (match g i with Some y => y :: omap g r | None => omap g r end).
  cbn beta. rewrite He, fmap_cons, IH. by rewrite (Hm k e He).
Qed.

(** X29.  The report lists one event for each time, in the order of the
    times: of the events that share a time only the last of the list is
    kept, and the total that is printed counts the times, not the
    events. *)
Theorem outputEvents_one_event_per_time (events : list Event) :
  StronglySorted Z.lt (ev_t <$> sortedEvents true events)
  ∧ (∀ e, e ∈ sortedEvents true events ↔ last_of_its_time events e)
  ∧ List.length (sortedEvents true events)
    = size (dom (events_by_time events)).
Proof.
  unfold sortedEvents. set (m := events_by_time events).
  set (keys := merge_sort Z.le (elements (dom m))).
  assert (keys ≡ₚ elements (dom m)) as Hperm
    by apply merge_sort_Permutation.
  assert (∀ k e, m !! k = Some e → ev_t e = k) as Hm.
  { intros k e H. by apply events_by_time_lookup in H as [? _]. }
  assert (Forall (λ k, is_Some (m !! k)) keys) as Hkeys.
  { apply Forall_forall. intros k Hk. rewrite Hperm in Hk.
    by apply elem_of_elements, elem_of_dom in Hk. }
  pose proof (omap_lookup_times m keys Hm Hkeys) as Ht.
  split; [|split].
  - rewrite Ht. apply StronglySorted_le_lt.
    + apply StronglySorted_merge_sort; apply _.
    + rewrite Hperm. apply NoDup_elements.
  - intros e. rewrite list_elem_of_omap. split.
    + intros (k & _ & Hk). by apply events_by_time_lookup in Hk as [_ ?].
    + intros He. exists (ev_t e).
      assert (m !! ev_t e = Some e) as Hl
        by (by apply events_by_time_lookup).
      split; [|done]. rewrite Hperm.
      apply elem_of_elements, elem_of_dom. by exists e.
  - rewrite <- (length_fmap ev_t), Ht, Hperm. done.
Qed.

(** ** [detectAcquires]: a second AcquireRefAO in an open window *)

Lemma window_fold_name_start (l : list ArbCmd) : ∀ acq,
  name (window_fold acq l) = name acq
  ∧ start_time (window_fold acq l) = start_time acq.
Proof.
  induction l as [|c l IH]; intros acq; [done|].
  change (c :: l) with ([c] ++ l). rewrite window_fold_app.
  destruct (IH (window_fold acq [c])) as [-> ->].
  unfold window_fold. simpl. by destruct (name_is c "CheckFlux").
Qed.

(** C10.  A second AcquireRefAO [a2] arrives while the window opened by a
    first one, [a1], is still open (only recognised sub-commands and
    unsuccessful Done commands, [mid], in between).  At that point the loop
    holds the composite of [a1] with [mid] folded in and has emitted
    nothing for it.  The step on [a2] replaces it by a fresh composite that
    starts at [a2], succeeds as [a2] does and has no end time: the
    composite in progress is gone from the state, and since it was never
    appended it is not in the output.  Whatever follows, the output is that
    of [pre], then [a1] and [mid] as they are, then the output of a run
    that starts at [a2]; when the new window is closed by a successful
    Done, the one composite of the two windows is emitted before that
    Done, and it starts at [a2], ends with the Done and folds in only the
    commands after [a2]. *)
Theorem detectAcquires_second_AcquireRefAO_restarts
    (pre mid : list ArbCmd) (a1 a2 : ArbCmd) :
  cname a1 = "AcquireRefAO" → cname a2 = "AcquireRefAO" →
  Forall keeps_window_open mid →
  ∃ st1 done1 out_pre,
    detectAcquires pre = Ok out_pre
    ∧ foldM detectAcquires_step (mkAcquiresState false None [])
        (pre ++ a1 :: mid) = Ok st1
    ∧ inAcquire st1 = true
    ∧ acquire_locals st1 = Some (window_fold (fresh_Acquire a1) mid, done1)
    ∧ acq_newCmds st1 = out_pre ++ a1 :: mid
    ∧ detectAcquires_step st1 a2
      = Ok (mkAcquiresState true (Some (fresh_Acquire a2, false))
              (out_pre ++ a1 :: mid ++ [a2]))
    ∧ (∀ tail, ∃ out_tail,
         detectAcquires (a2 :: tail) = Ok out_tail
         ∧ detectAcquires (pre ++ a1 :: mid ++ a2 :: tail)
           = Ok (out_pre ++ a1 :: mid ++ out_tail))
    ∧ (∀ mid2 dn rest,
         Forall keeps_window_open mid2 →
         cname dn = "Done" → csuccess dn = Some true →
         ∃ out_rest acq,
           detectAcquires rest = Ok out_rest
           ∧ detectAcquires (pre ++ a1 :: mid ++ a2 :: mid2 ++ dn :: rest)
             = Ok (out_pre ++ a1 :: mid ++ a2 :: mid2
                     ++ Cmd acq :: dn :: out_rest)
           ∧ acq = window_fold (fresh_Acquire a2) (mid2 ++ [dn])
           ∧ name acq = "Acquire"
           ∧ start_time acq = cstart a2 ∧ end_time acq = cend dn).
Proof.
  intros H1 H2 Hmid.
  destruct (detectAcquires_loop_spec pre _ acquires_inv_init)
    as (st_pre & out_pre & Hpre & _ & Hn_pre & _).
  simpl in Hn_pre.
  destruct (detectAcquires_loop_keeps_fold mid (fresh_Acquire a1) false
              (acq_newCmds st_pre ++ [a1]) Hmid) as [done1 Hloop].
  set (st1 := mkAcquiresState true
                (Some (window_fold (fresh_Acquire a1) mid, done1))
                ((acq_newCmds st_pre ++ [a1]) ++ mid)).
  assert (foldM detectAcquires_step (mkAcquiresState false None [])
            (pre ++ a1 :: mid) = Ok st1) as Hst1.
  { rewrite foldM_app, Hpre. cbn [mbind res_bind foldM].
    rewrite (detectAcquires_step_AcquireRefAO _ _ H1). cbn [mbind res_bind].
    exact Hloop. }
  assert (acq_newCmds st1 = out_pre ++ a1 :: mid) as Hn1.
  { unfold st1. cbn [acq_newCmds]. rewrite Hn_pre. by rewrite <- app_assoc. }
  assert (detectAcquires_step st1 a2
          = Ok (mkAcquiresState true (Some (fresh_Acquire a2, false))
                  (out_pre ++ a1 :: mid ++ [a2]))) as Hstep.
  { rewrite (detectAcquires_step_AcquireRefAO _ _ H2), Hn1.
    by rewrite <- app_assoc. }
  assert (detectAcquires pre = Ok out_pre) as Hout_pre.
  { unfold detectAcquires. rewrite Hpre. cbn. by rewrite Hn_pre. }
  exists st1, done1, out_pre.
  split; [exact Hout_pre|]. split; [exact Hst1|]. split; [done|].
  split; [done|]. split; [exact Hn1|]. split; [exact Hstep|]. split.
  - intros tail.
    destruct (detectAcquires_restart_runs pre mid tail a1 a2 H1 H2 Hmid)
      as (out_pre' & out_tail & Hp' & Ht & Hall).
    rewrite Hout_pre in Hp'. injection Hp' as <-. by exists out_tail.
  - intros mid2 dn rest Hmid2 Hd Hs.
    destruct (detectAcquires_preserves rest) as [out_rest [Hrest _]].
    assert (window_fold (fresh_Acquire a2) (mid2 ++ [dn])
            = acquire_fold (window_fold (fresh_Acquire a2) mid2) dn)
      as Hfold.
    { rewrite window_fold_app. unfold window_fold at 1, name_is. simpl.
      by rewrite Hd. }
    exists out_rest, (window_fold (fresh_Acquire a2) (mid2 ++ [dn])).
    split; [done|]. split.
    { unfold detectAcquires at 1.
      replace (pre ++ a1 :: mid ++ a2 :: mid2 ++ dn :: rest)
        with ((pre ++ a1 :: mid) ++ a2 :: mid2 ++ dn :: rest)
        by (by rewrite <- app_assoc).
      rewrite foldM_app, Hst1. cbn [mbind res_bind foldM].
      rewrite Hstep. cbn [mbind res_bind].
      rewrite foldM_app.
      destruct (detectAcquires_loop_keeps_fold mid2 (fresh_Acquire a2) false
                  (out_pre ++ a1 :: mid ++ [a2]) Hmid2) as [done2 ->].
      cbn [mbind res_bind foldM].
      rewrite detectAcquires_step_Done by done.
      cbn [mbind res_bind].
      rewrite detectAcquires_loop_fresh, Hrest. cbn.
      rewrite Hfold. f_equal.
      rewrite <- !app_assoc. cbn [app]. by rewrite <- !app_assoc. }
    split; [done|].
    destruct (window_fold_name_start (mid2 ++ [dn]) (fresh_Acquire a2))
      as [Hn Hst].
    split; [by rewrite Hn|]. split; [by rewrite Hst|].
    by rewrite Hfold.
Qed.

(** A window with a CheckFlux and a failed Done, then a new AcquireRefAO
    whose window a Done closes. *)
Lemma detectAcquires_second_AcquireRefAO_restarts_witness :
  cname AcquireRefAO_1 = "AcquireRefAO"
  ∧ cname AcquireRefAO_2 = "AcquireRefAO"
  ∧ Forall keeps_window_open open_window
  ∧ ∃ out_pre,
      detectAcquires three_plain = Ok out_pre
      ∧ detectAcquires
          (three_plain ++ AcquireRefAO_1 :: open_window
             ++ AcquireRefAO_2 :: [] ++ Done_32 :: [StartAO_6])
        = Ok (out_pre ++ AcquireRefAO_1 :: open_window
                ++ AcquireRefAO_2 :: []
                ++ Cmd (mkCmd "Acquire" "" (Some 30) (Some 33) (Some true) ""
                          None None None None)
                :: Done_32 :: [StartAO_6]).
Proof.
  assert (cname AcquireRefAO_1 = "AcquireRefAO") as H1 by reflexivity.
  assert (cname AcquireRefAO_2 = "AcquireRefAO") as H2 by reflexivity.
  assert (Forall keeps_window_open open_window) as H3.
  { constructor; [left; reflexivity|].
    constructor; [|constructor].
    right. right. split; [reflexivity | discriminate]. }
  split; [exact H1|]. split; [exact H2|]. split; [exact H3|].
  destruct (detectAcquires_second_AcquireRefAO_restarts three_plain
              open_window AcquireRefAO_1 AcquireRefAO_2 H1 H2 H3)
    as (st1 & done1 & out_pre & Hpre & _ & _ & _ & _ & _ & _ & Hdone).
  destruct (Hdone [] Done_32 [StartAO_6] (Forall_nil_2 _) eq_refl eq_refl)
    as (out_rest & acq & Hrest & Hall & -> & _).
  assert (detectAcquires [StartAO_6] = Ok [StartAO_6]) as Er
    by (vm_compute; reflexivity).
  rewrite Er in Hrest. injection Hrest as <-.
  exists out_pre. split; [exact Hpre|]. exact Hall.
Defined.
